(** * Publication scheduler and duplicate guard of the Telegram channel bot

    A shallow embedding of [bot.py] and [config.py]: the relevance
    classifier [NewsParser.is_relevant_news], the content-hash duplicate
    guard, the state file, the publish paths and the driving loop of
    [TelegramChannelBot].

    Conventions.
    - A Python [str] is the list of its Unicode code points ([pystr]).
    - A naive [datetime] is the number of microseconds since a fixed
      midnight; a [date] is a day number.
    - Python sets are [gset]s; [list(s)] is [elements s] and [set(l)] is
      [list_to_set l].
    - External collaborators (DeepSeek, NanoBanana, the Telegram API, the
      clock, the disk) answer through explicit environment records; every
      external call is appended to the world's call log, and every post
      that the Telegram API accepts to the world's channel.
    - A method returns or raises ([outcome]); [str.encode] raises on a
      lone surrogate, and so does every method that hashes such a text. *)

From Stdlib Require Import ZArith NArith List Bool Lia Sorted.
From Stdlib Require Import Strings.String Strings.Byte.
From stdpp Require Import base gmap sets list.

Set Default Proof Using "Type".
Local Open Scope Z_scope.

(* ===================================================================== *)
(** * Python strings                                                      *)
(* ===================================================================== *)

Module PyStr.

(** A Python [str]: the sequence of its code points. *)
Definition pystr : Type := list N.

(** UTF-8 decoding of a source literal, used only to write the keyword
    tables of the source legibly. *)
Fixpoint utf8_decode (bs : list N) : pystr :=
  match bs with
  | [] => []
  | b0 :: r0 =>
    if (b0 <? 0x80)%N then b0 :: utf8_decode r0
    else if (b0 <? 0xE0)%N then
      match r0 with
      | b1 :: r1 => ((b0 - 0xC0) * 64 + (b1 - 0x80))%N :: utf8_decode r1
      | _ => []
      end
    else if (b0 <? 0xF0)%N then
      match r0 with
      | b1 :: b2 :: r2 =>
        ((b0 - 0xE0) * 4096 + (b1 - 0x80) * 64 + (b2 - 0x80))%N :: utf8_decode r2
      | _ => []
      end
    else
      match r0 with
      | b1 :: b2 :: b3 :: r3 =>
        ((b0 - 0xF0) * 262144 + (b1 - 0x80) * 4096 + (b2 - 0x80) * 64 + (b3 - 0x80))%N
          :: utf8_decode r3
      | _ => []
      end
  end.

Definition u (s : string) : pystr :=
  utf8_decode (List.map Byte.to_N (list_byte_of_string s)).

(** [str.encode('utf-8')]: the bytes of one code point, and of a text.
    A surrogate code point (U+D800 to U+DFFF) cannot be encoded: [None]
    stands for the [UnicodeEncodeError] that Python raises. *)
Definition utf8_encode_cp (c : N) : list N :=
  if (c <? 0x80)%N then [c]
  else if (c <? 0x800)%N then [0xC0 + c / 64; 0x80 + c mod 64]%N
  else if (c <? 0x10000)%N then
    [0xE0 + c / 4096; 0x80 + (c / 64) mod 64; 0x80 + c mod 64]%N
  else
    [0xF0 + c / 262144; 0x80 + (c / 4096) mod 64;
     0x80 + (c / 64) mod 64; 0x80 + c mod 64]%N.

Definition is_surrogate (c : N) : bool := ((0xD800 <=? c) && (c <=? 0xDFFF))%N.

Fixpoint utf8_encode (s : pystr) : option (list N) :=
  match s with
  | [] => Some []
  | c :: s' =>
    if is_surrogate c then None
    else
      match utf8_encode s' with
      | Some bytes => Some (utf8_encode_cp c ++ bytes)
      | None => None
      end
  end.

(** [str.isspace] on one character: the whitespace table of CPython. *)
Definition is_space (c : N) : bool :=
  ((0x09 <=? c) && (c <=? 0x0D) || (0x1C <=? c) && (c <=? 0x20)
   || (c =? 0x85) || (c =? 0xA0) || (c =? 0x1680)
   || (0x2000 <=? c) && (c <=? 0x200A)
   || (c =? 0x2028) || (c =? 0x2029) || (c =? 0x202F)
   || (c =? 0x205F) || (c =? 0x3000))%N.

(** ** [str.lower]

    The case tables are those of CPython 3.11 (Unicode 14.0): the
    lowercase mapping of every code point that has one, and the
    properties Cased and Case_Ignorable that the rule for the capital
    sigma reads. *)

(** The simple lowercase mapping, as runs [(first, last, step, lower of
    first)]: the code points [first], [first + step], ... up to [last]
    map to [lower of first], [lower of first + step], ... *)
Definition lower_runs : list (N * N * N * N) :=
  [
   (0x41, 0x5A, 1, 0x61); (0xC0, 0xD6, 1, 0xE0); (0xD8, 0xDE, 1, 0xF8);
   (0x100, 0x12E, 2, 0x101); (0x132, 0x136, 2, 0x133); (0x139, 0x147, 2, 0x13A);
   (0x14A, 0x176, 2, 0x14B); (0x178, 0x178, 1, 0xFF); (0x179, 0x17D, 2, 0x17A);
   (0x181, 0x181, 1, 0x253); (0x182, 0x184, 2, 0x183); (0x186, 0x186, 1, 0x254);
   (0x187, 0x187, 1, 0x188); (0x189, 0x18A, 1, 0x256); (0x18B, 0x18B, 1, 0x18C);
   (0x18E, 0x18E, 1, 0x1DD); (0x18F, 0x18F, 1, 0x259); (0x190, 0x190, 1, 0x25B);
   (0x191, 0x191, 1, 0x192); (0x193, 0x193, 1, 0x260); (0x194, 0x194, 1, 0x263);
   (0x196, 0x196, 1, 0x269); (0x197, 0x197, 1, 0x268); (0x198, 0x198, 1, 0x199);
   (0x19C, 0x19C, 1, 0x26F); (0x19D, 0x19D, 1, 0x272); (0x19F, 0x19F, 1, 0x275);
   (0x1A0, 0x1A4, 2, 0x1A1); (0x1A6, 0x1A6, 1, 0x280); (0x1A7, 0x1A7, 1, 0x1A8);
   (0x1A9, 0x1A9, 1, 0x283); (0x1AC, 0x1AC, 1, 0x1AD); (0x1AE, 0x1AE, 1, 0x288);
   (0x1AF, 0x1AF, 1, 0x1B0); (0x1B1, 0x1B2, 1, 0x28A); (0x1B3, 0x1B5, 2, 0x1B4);
   (0x1B7, 0x1B7, 1, 0x292); (0x1B8, 0x1B8, 1, 0x1B9); (0x1BC, 0x1BC, 1, 0x1BD);
   (0x1C4, 0x1C4, 1, 0x1C6); (0x1C5, 0x1C5, 1, 0x1C6); (0x1C7, 0x1C7, 1, 0x1C9);
   (0x1C8, 0x1C8, 1, 0x1C9); (0x1CA, 0x1CA, 1, 0x1CC); (0x1CB, 0x1DB, 2, 0x1CC);
   (0x1DE, 0x1EE, 2, 0x1DF); (0x1F1, 0x1F1, 1, 0x1F3); (0x1F2, 0x1F4, 2, 0x1F3);
   (0x1F6, 0x1F6, 1, 0x195); (0x1F7, 0x1F7, 1, 0x1BF); (0x1F8, 0x21E, 2, 0x1F9);
   (0x220, 0x220, 1, 0x19E); (0x222, 0x232, 2, 0x223); (0x23A, 0x23A, 1, 0x2C65);
   (0x23B, 0x23B, 1, 0x23C); (0x23D, 0x23D, 1, 0x19A); (0x23E, 0x23E, 1, 0x2C66);
   (0x241, 0x241, 1, 0x242); (0x243, 0x243, 1, 0x180); (0x244, 0x244, 1, 0x289);
   (0x245, 0x245, 1, 0x28C); (0x246, 0x24E, 2, 0x247); (0x370, 0x372, 2, 0x371);
   (0x376, 0x376, 1, 0x377); (0x37F, 0x37F, 1, 0x3F3); (0x386, 0x386, 1, 0x3AC);
   (0x388, 0x38A, 1, 0x3AD); (0x38C, 0x38C, 1, 0x3CC); (0x38E, 0x38F, 1, 0x3CD);
   (0x391, 0x3A1, 1, 0x3B1); (0x3A3, 0x3AB, 1, 0x3C3); (0x3CF, 0x3CF, 1, 0x3D7);
   (0x3D8, 0x3EE, 2, 0x3D9); (0x3F4, 0x3F4, 1, 0x3B8); (0x3F7, 0x3F7, 1, 0x3F8);
   (0x3F9, 0x3F9, 1, 0x3F2); (0x3FA, 0x3FA, 1, 0x3FB); (0x3FD, 0x3FF, 1, 0x37B);
   (0x400, 0x40F, 1, 0x450); (0x410, 0x42F, 1, 0x430); (0x460, 0x480, 2, 0x461);
   (0x48A, 0x4BE, 2, 0x48B); (0x4C0, 0x4C0, 1, 0x4CF); (0x4C1, 0x4CD, 2, 0x4C2);
   (0x4D0, 0x52E, 2, 0x4D1); (0x531, 0x556, 1, 0x561); (0x10A0, 0x10C5, 1, 0x2D00);
   (0x10C7, 0x10C7, 1, 0x2D27); (0x10CD, 0x10CD, 1, 0x2D2D); (0x13A0, 0x13EF, 1, 0xAB70);
   (0x13F0, 0x13F5, 1, 0x13F8); (0x1C90, 0x1CBA, 1, 0x10D0); (0x1CBD, 0x1CBF, 1, 0x10FD);
   (0x1E00, 0x1E94, 2, 0x1E01); (0x1E9E, 0x1E9E, 1, 0xDF); (0x1EA0, 0x1EFE, 2, 0x1EA1);
   (0x1F08, 0x1F0F, 1, 0x1F00); (0x1F18, 0x1F1D, 1, 0x1F10); (0x1F28, 0x1F2F, 1, 0x1F20);
   (0x1F38, 0x1F3F, 1, 0x1F30); (0x1F48, 0x1F4D, 1, 0x1F40); (0x1F59, 0x1F5F, 2, 0x1F51);
   (0x1F68, 0x1F6F, 1, 0x1F60); (0x1F88, 0x1F8F, 1, 0x1F80); (0x1F98, 0x1F9F, 1, 0x1F90);
   (0x1FA8, 0x1FAF, 1, 0x1FA0); (0x1FB8, 0x1FB9, 1, 0x1FB0); (0x1FBA, 0x1FBB, 1, 0x1F70);
   (0x1FBC, 0x1FBC, 1, 0x1FB3); (0x1FC8, 0x1FCB, 1, 0x1F72); (0x1FCC, 0x1FCC, 1, 0x1FC3);
   (0x1FD8, 0x1FD9, 1, 0x1FD0); (0x1FDA, 0x1FDB, 1, 0x1F76); (0x1FE8, 0x1FE9, 1, 0x1FE0);
   (0x1FEA, 0x1FEB, 1, 0x1F7A); (0x1FEC, 0x1FEC, 1, 0x1FE5); (0x1FF8, 0x1FF9, 1, 0x1F78);
   (0x1FFA, 0x1FFB, 1, 0x1F7C); (0x1FFC, 0x1FFC, 1, 0x1FF3); (0x2126, 0x2126, 1, 0x3C9);
   (0x212A, 0x212A, 1, 0x6B); (0x212B, 0x212B, 1, 0xE5); (0x2132, 0x2132, 1, 0x214E);
   (0x2160, 0x216F, 1, 0x2170); (0x2183, 0x2183, 1, 0x2184); (0x24B6, 0x24CF, 1, 0x24D0);
   (0x2C00, 0x2C2F, 1, 0x2C30); (0x2C60, 0x2C60, 1, 0x2C61); (0x2C62, 0x2C62, 1, 0x26B);
   (0x2C63, 0x2C63, 1, 0x1D7D); (0x2C64, 0x2C64, 1, 0x27D); (0x2C67, 0x2C6B, 2, 0x2C68);
   (0x2C6D, 0x2C6D, 1, 0x251); (0x2C6E, 0x2C6E, 1, 0x271); (0x2C6F, 0x2C6F, 1, 0x250);
   (0x2C70, 0x2C70, 1, 0x252); (0x2C72, 0x2C72, 1, 0x2C73); (0x2C75, 0x2C75, 1, 0x2C76);
   (0x2C7E, 0x2C7F, 1, 0x23F); (0x2C80, 0x2CE2, 2, 0x2C81); (0x2CEB, 0x2CED, 2, 0x2CEC);
   (0x2CF2, 0x2CF2, 1, 0x2CF3); (0xA640, 0xA66C, 2, 0xA641); (0xA680, 0xA69A, 2, 0xA681);
   (0xA722, 0xA72E, 2, 0xA723); (0xA732, 0xA76E, 2, 0xA733); (0xA779, 0xA77B, 2, 0xA77A);
   (0xA77D, 0xA77D, 1, 0x1D79); (0xA77E, 0xA786, 2, 0xA77F); (0xA78B, 0xA78B, 1, 0xA78C);
   (0xA78D, 0xA78D, 1, 0x265); (0xA790, 0xA792, 2, 0xA791); (0xA796, 0xA7A8, 2, 0xA797);
   (0xA7AA, 0xA7AA, 1, 0x266); (0xA7AB, 0xA7AB, 1, 0x25C); (0xA7AC, 0xA7AC, 1, 0x261);
   (0xA7AD, 0xA7AD, 1, 0x26C); (0xA7AE, 0xA7AE, 1, 0x26A); (0xA7B0, 0xA7B0, 1, 0x29E);
   (0xA7B1, 0xA7B1, 1, 0x287); (0xA7B2, 0xA7B2, 1, 0x29D); (0xA7B3, 0xA7B3, 1, 0xAB53);
   (0xA7B4, 0xA7C2, 2, 0xA7B5); (0xA7C4, 0xA7C4, 1, 0xA794); (0xA7C5, 0xA7C5, 1, 0x282);
   (0xA7C6, 0xA7C6, 1, 0x1D8E); (0xA7C7, 0xA7C9, 2, 0xA7C8); (0xA7D0, 0xA7D0, 1, 0xA7D1);
   (0xA7D6, 0xA7D8, 2, 0xA7D7); (0xA7F5, 0xA7F5, 1, 0xA7F6); (0xFF21, 0xFF3A, 1, 0xFF41);
   (0x10400, 0x10427, 1, 0x10428); (0x104B0, 0x104D3, 1, 0x104D8); (0x10570, 0x1057A, 1, 0x10597);
   (0x1057C, 0x1058A, 1, 0x105A3); (0x1058C, 0x10592, 1, 0x105B3); (0x10594, 0x10595, 1, 0x105BB);
   (0x10C80, 0x10CB2, 1, 0x10CC0); (0x118A0, 0x118BF, 1, 0x118C0); (0x16E40, 0x16E5F, 1, 0x16E60);
   (0x1E900, 0x1E921, 1, 0x1E922)
  ]%N.


Definition expand_run (r : N * N * N * N) : list (N * N) :=
  let '(first, last, step, target) := r in
  List.map (fun k => (first + N.of_nat k * step, target + N.of_nat k * step)%N)
           (seq 0 (S (N.to_nat ((last - first) / step)))).

(** The pairs [(code point, its lowercase)]. *)
Definition lower_pairs : list (N * N) :=
  Eval vm_compute in flat_map expand_run lower_runs.

(** The code points with the property Cased. *)
Definition cased_ranges : list (N * N) :=
  [
   (0x41, 0x5A); (0x61, 0x7A); (0xAA, 0xAA); (0xB5, 0xB5); (0xBA, 0xBA);
   (0xC0, 0xD6); (0xD8, 0xF6); (0xF8, 0x1BA); (0x1BC, 0x1BF); (0x1C4, 0x293);
   (0x295, 0x2B8); (0x2C0, 0x2C1); (0x2E0, 0x2E4); (0x345, 0x345); (0x370, 0x373);
   (0x376, 0x377); (0x37A, 0x37D); (0x37F, 0x37F); (0x386, 0x386); (0x388, 0x38A);
   (0x38C, 0x38C); (0x38E, 0x3A1); (0x3A3, 0x3F5); (0x3F7, 0x481); (0x48A, 0x52F);
   (0x531, 0x556); (0x560, 0x588); (0x10A0, 0x10C5); (0x10C7, 0x10C7); (0x10CD, 0x10CD);
   (0x10D0, 0x10FA); (0x10FD, 0x10FF); (0x13A0, 0x13F5); (0x13F8, 0x13FD); (0x1C80, 0x1C88);
   (0x1C90, 0x1CBA); (0x1CBD, 0x1CBF); (0x1D00, 0x1DBF); (0x1E00, 0x1F15); (0x1F18, 0x1F1D);
   (0x1F20, 0x1F45); (0x1F48, 0x1F4D); (0x1F50, 0x1F57); (0x1F59, 0x1F59); (0x1F5B, 0x1F5B);
   (0x1F5D, 0x1F5D); (0x1F5F, 0x1F7D); (0x1F80, 0x1FB4); (0x1FB6, 0x1FBC); (0x1FBE, 0x1FBE);
   (0x1FC2, 0x1FC4); (0x1FC6, 0x1FCC); (0x1FD0, 0x1FD3); (0x1FD6, 0x1FDB); (0x1FE0, 0x1FEC);
   (0x1FF2, 0x1FF4); (0x1FF6, 0x1FFC); (0x2071, 0x2071); (0x207F, 0x207F); (0x2090, 0x209C);
   (0x2102, 0x2102); (0x2107, 0x2107); (0x210A, 0x2113); (0x2115, 0x2115); (0x2119, 0x211D);
   (0x2124, 0x2124); (0x2126, 0x2126); (0x2128, 0x2128); (0x212A, 0x212D); (0x212F, 0x2134);
   (0x2139, 0x2139); (0x213C, 0x213F); (0x2145, 0x2149); (0x214E, 0x214E); (0x2160, 0x217F);
   (0x2183, 0x2184); (0x24B6, 0x24E9); (0x2C00, 0x2CE4); (0x2CEB, 0x2CEE); (0x2CF2, 0x2CF3);
   (0x2D00, 0x2D25); (0x2D27, 0x2D27); (0x2D2D, 0x2D2D); (0xA640, 0xA66D); (0xA680, 0xA69D);
   (0xA722, 0xA787); (0xA78B, 0xA78E); (0xA790, 0xA7CA); (0xA7D0, 0xA7D1); (0xA7D3, 0xA7D3);
   (0xA7D5, 0xA7D9); (0xA7F5, 0xA7F6); (0xA7F8, 0xA7FA); (0xAB30, 0xAB5A); (0xAB5C, 0xAB68);
   (0xAB70, 0xABBF); (0xFB00, 0xFB06); (0xFB13, 0xFB17); (0xFF21, 0xFF3A); (0xFF41, 0xFF5A);
   (0x10400, 0x1044F); (0x104B0, 0x104D3); (0x104D8, 0x104FB); (0x10570, 0x1057A); (0x1057C, 0x1058A);
   (0x1058C, 0x10592); (0x10594, 0x10595); (0x10597, 0x105A1); (0x105A3, 0x105B1); (0x105B3, 0x105B9);
   (0x105BB, 0x105BC); (0x10780, 0x10780); (0x10783, 0x10785); (0x10787, 0x107B0); (0x107B2, 0x107BA);
   (0x10C80, 0x10CB2); (0x10CC0, 0x10CF2); (0x118A0, 0x118DF); (0x16E40, 0x16E7F); (0x1D400, 0x1D454);
   (0x1D456, 0x1D49C); (0x1D49E, 0x1D49F); (0x1D4A2, 0x1D4A2); (0x1D4A5, 0x1D4A6); (0x1D4A9, 0x1D4AC);
   (0x1D4AE, 0x1D4B9); (0x1D4BB, 0x1D4BB); (0x1D4BD, 0x1D4C3); (0x1D4C5, 0x1D505); (0x1D507, 0x1D50A);
   (0x1D50D, 0x1D514); (0x1D516, 0x1D51C); (0x1D51E, 0x1D539); (0x1D53B, 0x1D53E); (0x1D540, 0x1D544);
   (0x1D546, 0x1D546); (0x1D54A, 0x1D550); (0x1D552, 0x1D6A5); (0x1D6A8, 0x1D6C0); (0x1D6C2, 0x1D6DA);
   (0x1D6DC, 0x1D6FA); (0x1D6FC, 0x1D714); (0x1D716, 0x1D734); (0x1D736, 0x1D74E); (0x1D750, 0x1D76E);
   (0x1D770, 0x1D788); (0x1D78A, 0x1D7A8); (0x1D7AA, 0x1D7C2); (0x1D7C4, 0x1D7CB); (0x1DF00, 0x1DF09);
   (0x1DF0B, 0x1DF1E); (0x1E900, 0x1E943); (0x1F130, 0x1F149); (0x1F150, 0x1F169); (0x1F170, 0x1F189)
  ]%N.

(** The code points with the property Case_Ignorable. *)
Definition case_ignorable_ranges : list (N * N) :=
  [
   (0x27, 0x27); (0x2E, 0x2E); (0x3A, 0x3A); (0x5E, 0x5E); (0x60, 0x60);
   (0xA8, 0xA8); (0xAD, 0xAD); (0xAF, 0xAF); (0xB4, 0xB4); (0xB7, 0xB8);
   (0x2B0, 0x36F); (0x374, 0x375); (0x37A, 0x37A); (0x384, 0x385); (0x387, 0x387);
   (0x483, 0x489); (0x559, 0x559); (0x55F, 0x55F); (0x591, 0x5BD); (0x5BF, 0x5BF);
   (0x5C1, 0x5C2); (0x5C4, 0x5C5); (0x5C7, 0x5C7); (0x5F4, 0x5F4); (0x600, 0x605);
   (0x610, 0x61A); (0x61C, 0x61C); (0x640, 0x640); (0x64B, 0x65F); (0x670, 0x670);
   (0x6D6, 0x6DD); (0x6DF, 0x6E8); (0x6EA, 0x6ED); (0x70F, 0x70F); (0x711, 0x711);
   (0x730, 0x74A); (0x7A6, 0x7B0); (0x7EB, 0x7F5); (0x7FA, 0x7FA); (0x7FD, 0x7FD);
   (0x816, 0x82D); (0x859, 0x85B); (0x888, 0x888); (0x890, 0x891); (0x898, 0x89F);
   (0x8C9, 0x902); (0x93A, 0x93A); (0x93C, 0x93C); (0x941, 0x948); (0x94D, 0x94D);
   (0x951, 0x957); (0x962, 0x963); (0x971, 0x971); (0x981, 0x981); (0x9BC, 0x9BC);
   (0x9C1, 0x9C4); (0x9CD, 0x9CD); (0x9E2, 0x9E3); (0x9FE, 0x9FE); (0xA01, 0xA02);
   (0xA3C, 0xA3C); (0xA41, 0xA42); (0xA47, 0xA48); (0xA4B, 0xA4D); (0xA51, 0xA51);
   (0xA70, 0xA71); (0xA75, 0xA75); (0xA81, 0xA82); (0xABC, 0xABC); (0xAC1, 0xAC5);
   (0xAC7, 0xAC8); (0xACD, 0xACD); (0xAE2, 0xAE3); (0xAFA, 0xAFF); (0xB01, 0xB01);
   (0xB3C, 0xB3C); (0xB3F, 0xB3F); (0xB41, 0xB44); (0xB4D, 0xB4D); (0xB55, 0xB56);
   (0xB62, 0xB63); (0xB82, 0xB82); (0xBC0, 0xBC0); (0xBCD, 0xBCD); (0xC00, 0xC00);
   (0xC04, 0xC04); (0xC3C, 0xC3C); (0xC3E, 0xC40); (0xC46, 0xC48); (0xC4A, 0xC4D);
   (0xC55, 0xC56); (0xC62, 0xC63); (0xC81, 0xC81); (0xCBC, 0xCBC); (0xCBF, 0xCBF);
   (0xCC6, 0xCC6); (0xCCC, 0xCCD); (0xCE2, 0xCE3); (0xD00, 0xD01); (0xD3B, 0xD3C);
   (0xD41, 0xD44); (0xD4D, 0xD4D); (0xD62, 0xD63); (0xD81, 0xD81); (0xDCA, 0xDCA);
   (0xDD2, 0xDD4); (0xDD6, 0xDD6); (0xE31, 0xE31); (0xE34, 0xE3A); (0xE46, 0xE4E);
   (0xEB1, 0xEB1); (0xEB4, 0xEBC); (0xEC6, 0xEC6); (0xEC8, 0xECD); (0xF18, 0xF19);
   (0xF35, 0xF35); (0xF37, 0xF37); (0xF39, 0xF39); (0xF71, 0xF7E); (0xF80, 0xF84);
   (0xF86, 0xF87); (0xF8D, 0xF97); (0xF99, 0xFBC); (0xFC6, 0xFC6); (0x102D, 0x1030);
   (0x1032, 0x1037); (0x1039, 0x103A); (0x103D, 0x103E); (0x1058, 0x1059); (0x105E, 0x1060);
   (0x1071, 0x1074); (0x1082, 0x1082); (0x1085, 0x1086); (0x108D, 0x108D); (0x109D, 0x109D);
   (0x10FC, 0x10FC); (0x135D, 0x135F); (0x1712, 0x1714); (0x1732, 0x1733); (0x1752, 0x1753);
   (0x1772, 0x1773); (0x17B4, 0x17B5); (0x17B7, 0x17BD); (0x17C6, 0x17C6); (0x17C9, 0x17D3);
   (0x17D7, 0x17D7); (0x17DD, 0x17DD); (0x180B, 0x180F); (0x1843, 0x1843); (0x1885, 0x1886);
   (0x18A9, 0x18A9); (0x1920, 0x1922); (0x1927, 0x1928); (0x1932, 0x1932); (0x1939, 0x193B);
   (0x1A17, 0x1A18); (0x1A1B, 0x1A1B); (0x1A56, 0x1A56); (0x1A58, 0x1A5E); (0x1A60, 0x1A60);
   (0x1A62, 0x1A62); (0x1A65, 0x1A6C); (0x1A73, 0x1A7C); (0x1A7F, 0x1A7F); (0x1AA7, 0x1AA7);
   (0x1AB0, 0x1ACE); (0x1B00, 0x1B03); (0x1B34, 0x1B34); (0x1B36, 0x1B3A); (0x1B3C, 0x1B3C);
   (0x1B42, 0x1B42); (0x1B6B, 0x1B73); (0x1B80, 0x1B81); (0x1BA2, 0x1BA5); (0x1BA8, 0x1BA9);
   (0x1BAB, 0x1BAD); (0x1BE6, 0x1BE6); (0x1BE8, 0x1BE9); (0x1BED, 0x1BED); (0x1BEF, 0x1BF1);
   (0x1C2C, 0x1C33); (0x1C36, 0x1C37); (0x1C78, 0x1C7D); (0x1CD0, 0x1CD2); (0x1CD4, 0x1CE0);
   (0x1CE2, 0x1CE8); (0x1CED, 0x1CED); (0x1CF4, 0x1CF4); (0x1CF8, 0x1CF9); (0x1D2C, 0x1D6A);
   (0x1D78, 0x1D78); (0x1D9B, 0x1DFF); (0x1FBD, 0x1FBD); (0x1FBF, 0x1FC1); (0x1FCD, 0x1FCF);
   (0x1FDD, 0x1FDF); (0x1FED, 0x1FEF); (0x1FFD, 0x1FFE); (0x200B, 0x200F); (0x2018, 0x2019);
   (0x2024, 0x2024); (0x2027, 0x2027); (0x202A, 0x202E); (0x2060, 0x2064); (0x2066, 0x206F);
   (0x2071, 0x2071); (0x207F, 0x207F); (0x2090, 0x209C); (0x20D0, 0x20F0); (0x2C7C, 0x2C7D);
   (0x2CEF, 0x2CF1); (0x2D6F, 0x2D6F); (0x2D7F, 0x2D7F); (0x2DE0, 0x2DFF); (0x2E2F, 0x2E2F);
   (0x3005, 0x3005); (0x302A, 0x302D); (0x3031, 0x3035); (0x303B, 0x303B); (0x3099, 0x309E);
   (0x30FC, 0x30FE); (0xA015, 0xA015); (0xA4F8, 0xA4FD); (0xA60C, 0xA60C); (0xA66F, 0xA672);
   (0xA674, 0xA67D); (0xA67F, 0xA67F); (0xA69C, 0xA69F); (0xA6F0, 0xA6F1); (0xA700, 0xA721);
   (0xA770, 0xA770); (0xA788, 0xA78A); (0xA7F2, 0xA7F4); (0xA7F8, 0xA7F9); (0xA802, 0xA802);
   (0xA806, 0xA806); (0xA80B, 0xA80B); (0xA825, 0xA826); (0xA82C, 0xA82C); (0xA8C4, 0xA8C5);
   (0xA8E0, 0xA8F1); (0xA8FF, 0xA8FF); (0xA926, 0xA92D); (0xA947, 0xA951); (0xA980, 0xA982);
   (0xA9B3, 0xA9B3); (0xA9B6, 0xA9B9); (0xA9BC, 0xA9BD); (0xA9CF, 0xA9CF); (0xA9E5, 0xA9E6);
   (0xAA29, 0xAA2E); (0xAA31, 0xAA32); (0xAA35, 0xAA36); (0xAA43, 0xAA43); (0xAA4C, 0xAA4C);
   (0xAA70, 0xAA70); (0xAA7C, 0xAA7C); (0xAAB0, 0xAAB0); (0xAAB2, 0xAAB4); (0xAAB7, 0xAAB8);
   (0xAABE, 0xAABF); (0xAAC1, 0xAAC1); (0xAADD, 0xAADD); (0xAAEC, 0xAAED); (0xAAF3, 0xAAF4);
   (0xAAF6, 0xAAF6); (0xAB5B, 0xAB5F); (0xAB69, 0xAB6B); (0xABE5, 0xABE5); (0xABE8, 0xABE8);
   (0xABED, 0xABED); (0xFB1E, 0xFB1E); (0xFBB2, 0xFBC2); (0xFE00, 0xFE0F); (0xFE13, 0xFE13);
   (0xFE20, 0xFE2F); (0xFE52, 0xFE52); (0xFE55, 0xFE55); (0xFEFF, 0xFEFF); (0xFF07, 0xFF07);
   (0xFF0E, 0xFF0E); (0xFF1A, 0xFF1A); (0xFF3E, 0xFF3E); (0xFF40, 0xFF40); (0xFF70, 0xFF70);
   (0xFF9E, 0xFF9F); (0xFFE3, 0xFFE3); (0xFFF9, 0xFFFB); (0x101FD, 0x101FD); (0x102E0, 0x102E0);
   (0x10376, 0x1037A); (0x10780, 0x10785); (0x10787, 0x107B0); (0x107B2, 0x107BA); (0x10A01, 0x10A03);
   (0x10A05, 0x10A06); (0x10A0C, 0x10A0F); (0x10A38, 0x10A3A); (0x10A3F, 0x10A3F); (0x10AE5, 0x10AE6);
   (0x10D24, 0x10D27); (0x10EAB, 0x10EAC); (0x10F46, 0x10F50); (0x10F82, 0x10F85); (0x11001, 0x11001);
   (0x11038, 0x11046); (0x11070, 0x11070); (0x11073, 0x11074); (0x1107F, 0x11081); (0x110B3, 0x110B6);
   (0x110B9, 0x110BA); (0x110BD, 0x110BD); (0x110C2, 0x110C2); (0x110CD, 0x110CD); (0x11100, 0x11102);
   (0x11127, 0x1112B); (0x1112D, 0x11134); (0x11173, 0x11173); (0x11180, 0x11181); (0x111B6, 0x111BE);
   (0x111C9, 0x111CC); (0x111CF, 0x111CF); (0x1122F, 0x11231); (0x11234, 0x11234); (0x11236, 0x11237);
   (0x1123E, 0x1123E); (0x112DF, 0x112DF); (0x112E3, 0x112EA); (0x11300, 0x11301); (0x1133B, 0x1133C);
   (0x11340, 0x11340); (0x11366, 0x1136C); (0x11370, 0x11374); (0x11438, 0x1143F); (0x11442, 0x11444);
   (0x11446, 0x11446); (0x1145E, 0x1145E); (0x114B3, 0x114B8); (0x114BA, 0x114BA); (0x114BF, 0x114C0);
   (0x114C2, 0x114C3); (0x115B2, 0x115B5); (0x115BC, 0x115BD); (0x115BF, 0x115C0); (0x115DC, 0x115DD);
   (0x11633, 0x1163A); (0x1163D, 0x1163D); (0x1163F, 0x11640); (0x116AB, 0x116AB); (0x116AD, 0x116AD);
   (0x116B0, 0x116B5); (0x116B7, 0x116B7); (0x1171D, 0x1171F); (0x11722, 0x11725); (0x11727, 0x1172B);
   (0x1182F, 0x11837); (0x11839, 0x1183A); (0x1193B, 0x1193C); (0x1193E, 0x1193E); (0x11943, 0x11943);
   (0x119D4, 0x119D7); (0x119DA, 0x119DB); (0x119E0, 0x119E0); (0x11A01, 0x11A0A); (0x11A33, 0x11A38);
   (0x11A3B, 0x11A3E); (0x11A47, 0x11A47); (0x11A51, 0x11A56); (0x11A59, 0x11A5B); (0x11A8A, 0x11A96);
   (0x11A98, 0x11A99); (0x11C30, 0x11C36); (0x11C38, 0x11C3D); (0x11C3F, 0x11C3F); (0x11C92, 0x11CA7);
   (0x11CAA, 0x11CB0); (0x11CB2, 0x11CB3); (0x11CB5, 0x11CB6); (0x11D31, 0x11D36); (0x11D3A, 0x11D3A);
   (0x11D3C, 0x11D3D); (0x11D3F, 0x11D45); (0x11D47, 0x11D47); (0x11D90, 0x11D91); (0x11D95, 0x11D95);
   (0x11D97, 0x11D97); (0x11EF3, 0x11EF4); (0x13430, 0x13438); (0x16AF0, 0x16AF4); (0x16B30, 0x16B36);
   (0x16B40, 0x16B43); (0x16F4F, 0x16F4F); (0x16F8F, 0x16F9F); (0x16FE0, 0x16FE1); (0x16FE3, 0x16FE4);
   (0x1AFF0, 0x1AFF3); (0x1AFF5, 0x1AFFB); (0x1AFFD, 0x1AFFE); (0x1BC9D, 0x1BC9E); (0x1BCA0, 0x1BCA3);
   (0x1CF00, 0x1CF2D); (0x1CF30, 0x1CF46); (0x1D167, 0x1D169); (0x1D173, 0x1D182); (0x1D185, 0x1D18B);
   (0x1D1AA, 0x1D1AD); (0x1D242, 0x1D244); (0x1DA00, 0x1DA36); (0x1DA3B, 0x1DA6C); (0x1DA75, 0x1DA75);
   (0x1DA84, 0x1DA84); (0x1DA9B, 0x1DA9F); (0x1DAA1, 0x1DAAF); (0x1E000, 0x1E006); (0x1E008, 0x1E018);
   (0x1E01B, 0x1E021); (0x1E023, 0x1E024); (0x1E026, 0x1E02A); (0x1E130, 0x1E13D); (0x1E2AE, 0x1E2AE);
   (0x1E2EC, 0x1E2EF); (0x1E8D0, 0x1E8D6); (0x1E944, 0x1E94B); (0x1F3FB, 0x1F3FF); (0xE0001, 0xE0001);
   (0xE0020, 0xE007F); (0xE0100, 0xE01EF)
  ]%N.

Definition in_ranges (ranges : list (N * N)) (c : N) : bool :=
  existsb (fun r => (fst r <=? c) && (c <=? snd r))%N ranges.

Definition is_cased (c : N) : bool := in_ranges cased_ranges c.

Definition is_case_ignorable (c : N) : bool :=
  in_ranges case_ignorable_ranges c.

(** The lowercase of one character that does not depend on its
    neighbours. *)
Definition simple_lower (c : N) : N :=
  match List.find (fun p => (fst p =? c)%N) lower_pairs with
  | Some p => snd p
  | None => c
  end.

(** [_PyUnicode_ToLowerFull]: only U+0130 has a lowercase of two
    characters. *)
Definition lower_full (c : N) : pystr :=
  if (c =? 0x130)%N then [0x69; 0x307]%N else [simple_lower c].

(** Skipping the case-ignorable characters, the next one exists and is
    cased. *)
Fixpoint next_is_cased (l : pystr) : bool :=
  match l with
  | [] => false
  | c :: l' => if is_case_ignorable c then next_is_cased l' else is_cased c
  end.

(** [handle_capital_sigma]: a capital sigma that follows a cased letter
    and is followed by none becomes the final sigma; [before] is the text
    before it, last character first. *)
Definition handle_capital_sigma (before after : pystr) : N :=
  if next_is_cased before && negb (next_is_cased after)
  then 0x3C2%N else 0x3C3%N.

Fixpoint do_lower (before s : pystr) : pystr :=
  match s with
  | [] => []
  | c :: s' =>
    (if (c =? 0x3A3)%N then [handle_capital_sigma before s']
     else lower_full c)
    ++ do_lower (c :: before) s'
  end.

Definition lower (s : pystr) : pystr := do_lower [] s.

(** [str.lstrip()], [str.rstrip()], [str.strip()] without arguments. *)
Fixpoint lstrip (s : pystr) : pystr :=
  match s with
  | [] => []
  | c :: s' => if is_space c then lstrip s' else s
  end.

Definition rstrip (s : pystr) : pystr := rev (lstrip (rev s)).

Definition strip (s : pystr) : pystr := rstrip (lstrip s).

(** [str.split()] without arguments: maximal runs of non-whitespace. *)
Fixpoint split (s : pystr) : list pystr :=
  match s with
  | [] => []
  | c :: s' =>
    if is_space c then split s'
    else
      match s' with
      | [] => [[c]]
      | c' :: _ =>
        if is_space c' then [c] :: split s'
        else
          match split s' with
          | w :: ws => (c :: w) :: ws
          | [] => [[c]]
          end
      end
  end.

(** [sep.join(words)]. *)
Fixpoint join (sep : pystr) (ws : list pystr) : pystr :=
  match ws with
  | [] => []
  | [w] => w
  | w :: ws' => w ++ sep ++ join sep ws'
  end.

(** [s.startswith(p)]. *)
Fixpoint startswith (s p : pystr) : bool :=
  match p, s with
  | [], _ => true
  | _ :: _, [] => false
  | a :: p', b :: s' => (a =? b)%N && startswith s' p'
  end.

(** [kw in s]. *)
Fixpoint contains (s kw : pystr) : bool :=
  startswith s kw ||
  match s with
  | [] => false
  | _ :: s' => contains s' kw
  end.

(** [any(kw in s for kw in kws)]. *)
Definition any_in (kws : list pystr) (s : pystr) : bool :=
  existsb (contains s) kws.

(** ** Vocabulary for the facts on [str.lower] *)

(** The whitespace characters, listed. *)
Definition spaces : list N :=
  [0x09; 0x0A; 0x0B; 0x0C; 0x0D; 0x1C; 0x1D; 0x1E; 0x1F; 0x20; 0x85; 0xA0;
   0x1680; 0x2000; 0x2001; 0x2002; 0x2003; 0x2004; 0x2005; 0x2006; 0x2007;
   0x2008; 0x2009; 0x200A; 0x2028; 0x2029; 0x202F; 0x205F; 0x3000]%N.

(** A character that [str.lower] leaves as it is wherever it stands. *)
Definition stable (c : N) : bool :=
  (negb (c =? 0x3A3) && negb (c =? 0x130) && (simple_lower c =? c))%N.

(** What holds of every pair of the lowercase table: neither character
    is whitespace, a surrogate or U+0130, the second one is stable, and
    both have the same Cased and Case_Ignorable properties. *)
Definition pair_ok (p : N * N) : bool :=
  (negb (is_space (fst p)) && negb (is_space (snd p))
   && negb (fst p =? 0x130) && stable (snd p)
   && Bool.eqb (is_cased (fst p)) (is_cased (snd p))
   && Bool.eqb (is_case_ignorable (fst p)) (is_case_ignorable (snd p))
   && negb (is_surrogate (fst p)) && negb (is_surrogate (snd p)))%N.

(** The text holds no surrogate: it can be encoded. *)
Definition encodable (s : pystr) : bool :=
  forallb (fun c => negb (is_surrogate c)) s.

(** Two characters are the same letter up to case: they have the same
    simple lowercase. The capital sigma is left out, its lowercase
    depending on where it stands. *)
Definition same_letter (c c' : N) : Prop :=
  simple_lower c = simple_lower c' /\ c <> 0x3A3%N /\ c' <> 0x3A3%N.

End PyStr.
Export PyStr.

(* ===================================================================== *)
(** * hashlib.md5                                                         *)
(* ===================================================================== *)

Module MD5.

Definition w32 (x : Z) : Z := x mod 2 ^ 32.

Definition rotl (x n : Z) : Z :=
  w32 (Z.lor (Z.shiftl x n) (Z.shiftr (w32 x) (32 - n))).

Definition shifts : list Z :=
  [7; 12; 17; 22; 7; 12; 17; 22; 7; 12; 17; 22; 7; 12; 17; 22;
   5; 9; 14; 20; 5; 9; 14; 20; 5; 9; 14; 20; 5; 9; 14; 20;
   4; 11; 16; 23; 4; 11; 16; 23; 4; 11; 16; 23; 4; 11; 16; 23;
   6; 10; 15; 21; 6; 10; 15; 21; 6; 10; 15; 21; 6; 10; 15; 21].

Definition sines : list Z :=
  [0xd76aa478; 0xe8c7b756; 0x242070db; 0xc1bdceee;
   0xf57c0faf; 0x4787c62a; 0xa8304613; 0xfd469501;
   0x698098d8; 0x8b44f7af; 0xffff5bb1; 0x895cd7be;
   0x6b901122; 0xfd987193; 0xa679438e; 0x49b40821;
   0xf61e2562; 0xc040b340; 0x265e5a51; 0xe9b6c7aa;
   0xd62f105d; 0x02441453; 0xd8a1e681; 0xe7d3fbc8;
   0x21e1cde6; 0xc33707d6; 0xf4d50d87; 0x455a14ed;
   0xa9e3e905; 0xfcefa3f8; 0x676f02d9; 0x8d2a4c8a;
   0xfffa3942; 0x8771f681; 0x6d9d6122; 0xfde5380c;
   0xa4beea44; 0x4bdecfa9; 0xf6bb4b60; 0xbebfbc70;
   0x289b7ec6; 0xeaa127fa; 0xd4ef3085; 0x04881d05;
   0xd9d4d039; 0xe6db99e5; 0x1fa27cf8; 0xc4ac5665;
   0xf4292244; 0x432aff97; 0xab9423a7; 0xfc93a039;
   0x655b59c3; 0x8f0ccc92; 0xffeff47d; 0x85845dd1;
   0x6fa87e4f; 0xfe2ce6e0; 0xa3014314; 0x4e0811a1;
   0xf7537e82; 0xbd3af235; 0x2ad7d2bb; 0xeb86d391].

(** Padding: a 1 bit, zeros up to 56 mod 64 bytes, the bit length on 64
    bits, little endian. *)
Definition le_bytes (n : nat) (x : Z) : list Z :=
  List.map (fun i => (x / 2 ^ (8 * Z.of_nat i)) mod 256) (seq 0 n).

Definition pad (msg : list Z) : list Z :=
  let len := Z.of_nat (List.length msg) in
  let zeros := Z.to_nat ((55 - len) mod 64) in
  msg ++ [0x80] ++ repeat 0 zeros ++ le_bytes 8 ((8 * len) mod 2 ^ 64).

Fixpoint le_words (n : nat) (bs : list Z) : list Z :=
  match n, bs with
  | S n', b0 :: b1 :: b2 :: b3 :: r =>
    (b0 + 256 * b1 + 65536 * b2 + 16777216 * b3) :: le_words n' r
  | _, _ => []
  end.

Definition round (m : list Z) (st : Z * Z * Z * Z) (i : nat) : Z * Z * Z * Z :=
  let '(a, b, c, d) := st in
  let zi := Z.of_nat i in
  let '(f, g) :=
    if zi <? 16 then (Z.lor (Z.land b c) (Z.land (Z.lxor b 0xffffffff) d), zi)
    else if zi <? 32 then
      (Z.lor (Z.land d b) (Z.land (Z.lxor d 0xffffffff) c), (5 * zi + 1) mod 16)
    else if zi <? 48 then (Z.lxor (Z.lxor b c) d, (3 * zi + 5) mod 16)
    else (Z.lxor c (Z.lor b (Z.lxor d 0xffffffff)), (7 * zi) mod 16) in
  let f' := w32 (f + a + nth i sines 0 + nth (Z.to_nat g) m 0) in
  (d, w32 (b + rotl f' (nth i shifts 0)), b, c).

Definition block (st : Z * Z * Z * Z) (m : list Z) : Z * Z * Z * Z :=
  let '(a0, b0, c0, d0) := st in
  let '(a, b, c, d) := fold_left (round m) (seq 0 64) st in
  (w32 (a0 + a), w32 (b0 + b), w32 (c0 + c), w32 (d0 + d)).

Fixpoint blocks (n : nat) (bs : list Z) (st : Z * Z * Z * Z) : Z * Z * Z * Z :=
  match n with
  | O => st
  | S n' => blocks n' (skipn 64 bs) (block st (le_words 16 (firstn 64 bs)))
  end.

Definition digest (msg : list Z) : list Z :=
  let p := pad msg in
  let '(a, b, c, d) :=
    blocks (List.length p / 64)%nat p (0x67452301, 0xefcdab89, 0x98badcfe, 0x10325476) in
  le_bytes 4 a ++ le_bytes 4 b ++ le_bytes 4 c ++ le_bytes 4 d.

Definition hex_digit (x : Z) : N :=
  if x <? 10 then Z.to_N (48 + x) else Z.to_N (87 + x).

(** [hashlib.md5(bytes).hexdigest()]. *)
Definition hexdigest (msg : list N) : pystr :=
  flat_map (fun b => [hex_digit (b / 16); hex_digit (b mod 16)])
           (digest (List.map Z.of_N msg)).

End MD5.

(* ===================================================================== *)
(** * config.py                                                           *)
(* ===================================================================== *)

Module config.

Definition POSTS_PER_DAY : Z := 999.

(** [MIN_HOURS_BETWEEN_POSTS = 0.5], kept in microseconds. *)
Definition MIN_HOURS_BETWEEN_POSTS_us : Z := 1800000000.

Definition PRICE_POST_MORNING_HOUR : Z := 11.
Definition PRICE_POST_EVENING_HOUR : Z := 22.

End config.

(* ===================================================================== *)
(** * NewsParser.is_relevant_news                                         *)
(* ===================================================================== *)

Module Relevance.

Definition ukraine_keywords : list pystr := Eval vm_compute in
  [u "украин"; u "ukraine"; u "зеленск"; u "zelensky"; u "зеленский"].

Definition political_markers : list pystr := Eval vm_compute in
  [u "геополитика"; u "geopolitics"; u "геополитик"; u "россия"; u "russia";
   u "россий"; u "сша"; u "usa"; u "united states"; u "америк";
   u "вашингтон"; u "washington"; u "китай"; u "china"; u "китайск";
   u "тайвань"; u "taiwan"; u "тайвань"; u "война"; u "war"; u "военн";
   u "санкции"; u "sanctions"; u "санкци"; u "дипломатия"; u "diplomacy";
   u "дипломат"; u "президент"; u "president"; u "президент";
   u "правительство"; u "government"; u "правительств"; u "министр";
   u "minister"; u "министр"; u "премьер"; u "prime minister"; u "премьер";
   u "парламент"; u "parliament"; u "парламент"; u "выборы"; u "elections";
   u "выбор"; u "референдум"; u "referendum"; u "референдум"; u "нато";
   u "nato"; u "ес"; u "eu"; u "european union"; u "евросоюз"; u "венесуэла";
   u "venezuela"; u "венесуэл"; u "иран"; u "iran"; u "иран"; u "израиль";
   u "israel"; u "израил"; u "палестина"; u "palestine"; u "палестин";
   u "гренландия"; u "greenland"; u "гренланд"; u "ирландия"; u "ireland";
   u "ирланд"; u "южная корея"; u "south korea"; u "южнокорейск"; u "турция";
   u "turkey"; u "турецк"; u "европа"; u "europe"; u "европейск"; u "мадуро";
   u "maduro"; u "си цзиньпин"; u "xi jinping"; u "трамп"; u "trump";
   u "байден"; u "biden"].

Definition strict_crypto_keywords : list pystr := Eval vm_compute in
  [u "крипт"; u "криптовалют"; u "crypto"; u "cryptocurrency"; u "крипта";
   u "крипто"; u "блокчейн"; u "blockchain"; u "биткоин"; u "bitcoin";
   u "btc"; u "биток"; u "эфир"; u "ethereum"; u "eth"; u "эфириум"; u "тон";
   u "ton"; u "toncoin"; u "the open network"; u "usdt"; u "tether";
   u "тезер"; u "usdc"; u "usd coin"; u "bnb"; u "binance coin"; u "бинанс";
   u "sol"; u "solana"; u "солана"; u "ada"; u "cardano"; u "кардано";
   u "xrp"; u "ripple"; u "рипл"; u "doge"; u "dogecoin"; u "дож";
   u "догикоин"; u "shib"; u "shiba inu"; u "шоиб"; u "шиба"; u "matic";
   u "polygon"; u "полигон"; u "avax"; u "avalanche"; u "аваланч"; u "dot";
   u "polkadot"; u "полкадот"; u "link"; u "chainlink"; u "чейнлинк";
   u "uni"; u "uniswap"; u "юнисвап"; u "ltc"; u "litecoin"; u "лайткоин";
   u "bch"; u "bitcoin cash"; u "биткоин кэш"; u "xlm"; u "stellar";
   u "стеллар"; u "atom"; u "cosmos"; u "космос"; u "near";
   u "near protocol"; u "ftm"; u "fantom"; u "фантом"; u "algo";
   u "algorand"; u "алгоранд"; u "vet"; u "vechain"; u "вечейн"; u "icp";
   u "internet computer"; u "apt"; u "aptos"; u "аптос"; u "arb";
   u "arbitrum"; u "арбитрум"; u "op"; u "optimism"; u "оптимизм"; u "sui";
   u "суи"; u "sei"; u "сей"; u "tia"; u "celestia"; u "целестия"; u "inj";
   u "injective"; u "инжектив"; u "rndr"; u "render"; u "рендер"; u "imx";
   u "immutable x"; u "grt"; u "the graph"; u "aave"; u "ааве"; u "comp";
   u "compound"; u "компаунд"; u "mkr"; u "maker"; u "мейкер"; u "snx";
   u "synthetix"; u "синтетикс"; u "crv"; u "curve"; u "кривая"; u "1inch";
   u "1инч"; u "sushi"; u "sushiswap"; u "суши"; u "pancake";
   u "pancakeswap"; u "панкейк"; u "дефай"; u "defi";
   u "decentralized finance"; u "нфт"; u "nft"; u "non-fungible token";
   u "стейкинг"; u "staking"; u "стейк"; u "майнинг"; u "mining";
   u "майнинг"; u "сатоши"; u "satoshi"; u "сат"; u "wei"; u "вей"; u "газ";
   u "gas"; u "gas fee"; u "смарт контракт"; u "smart contract"; u "dapp";
   u "децентрализованное приложение"; u "dao";
   u "децентрализованная автономная организация"; u "web3"; u "веб3";
   u "метавселенная"; u "metaverse"; u "метавселенная"; u "p2e";
   u "play to earn"; u "играй и зарабатывай"; u "gamefi"; u "геймфи";
   u "yield farming"; u "фарминг"; u "dex"; u "децентрализованная биржа";
   u "cex"; u "централизованная биржа"; u "wallet"; u "кошелек"; u "валлет";
   u "exchange"; u "биржа"; u "trading"; u "трейдинг"; u "торговля";
   u "bull"; u "бык"; u "бычий"; u "bear"; u "медведь"; u "медвежий";
   u "whale"; u "кит"; u "fomo"; u "фомо"; u "fud"; u "фуд"; u "hype";
   u "хайп"; u "pump"; u "памп"; u "накачка"; u "dump"; u "дамп"; u "сброс";
   u "hold"; u "холд"; u "держать"; u "hodl"; u "хадл"; u "moon"; u "луна";
   u "к луне"; u "lambo"; u "ламбо"; u "rekt"; u "рект"; u "diamond hands";
   u "алмазные руки"; u "paper hands"; u "бумажные руки"].

Definition general_keywords : list pystr := Eval vm_compute in
  [u "токен"; u "token"; u "коин"; u "coin"; u "альткоин"; u "altcoin";
   u "liquidity"; u "ликвидность"].

Definition financial_context : list pystr := Eval vm_compute in
  [u "цена"; u "price"; u "курс"; u "rate"; u "рост"; u "рост"; u "падение";
   u "fall"; u "инвестиц"; u "invest"; u "бирж"; u "exchange"; u "торговл";
   u "trading"].

Definition tech_context : list pystr := Eval vm_compute in
  [u "блокчейн"; u "blockchain"; u "технологи"; u "technology"; u "протокол";
   u "protocol"; u "сеть"; u "network"].

(** The loop [for keyword in kws: k = keyword.lower().strip();
    if k and k in text_lower: ...]. *)
Definition keyword_hit (text_lower : pystr) (keyword : pystr) : bool :=
  let keyword_lower := strip (lower keyword) in
  match keyword_lower with
  | [] => false
  | _ :: _ => contains text_lower keyword_lower
  end.

Definition is_relevant_news (text : option pystr) : bool :=
  match text with
  | None => false
  | Some [] => false
  | Some text =>
    let text_lower := lower text in
    if any_in ukraine_keywords text_lower then false
    else
      let has_political := any_in political_markers text_lower in
      if existsb (keyword_hit text_lower) strict_crypto_keywords then true
      else
        let has_strict_crypto := false in
        if has_political && negb has_strict_crypto then false
        else
          let found_general :=
            List.filter (keyword_hit text_lower) general_keywords in
          if (2 <=? List.length found_general)%nat then
            if has_political && negb has_strict_crypto then false else true
          else
            let has_general := any_in general_keywords text_lower in
            let has_financial := any_in financial_context text_lower in
            let has_tech := any_in tech_context text_lower in
            if has_general && (has_financial || has_tech) then
              if has_political && negb has_strict_crypto then false else true
            else false
  end.

End Relevance.
Export Relevance.

(* ===================================================================== *)
(** * The bot's world: memory, files, external calls                      *)
(* ===================================================================== *)

Module Bot.

(** In-memory fields of [TelegramChannelBot] that the scheduler reads or
    writes, with [processed_message_ids] of its [NewsParser]. *)
Record bot_state : Type := mkBot {
  last_post_time : option Z;
  posts_today : Z;
  posts_target : Z;
  reset_time : Z;
  last_price_post_morning : option Z;
  last_price_post_evening : option Z;
  published_posts_hashes : gset pystr;
  published_news_ids : gset Z;
  processed_message_ids : gset Z
}.

(** What [_save_state] dumps into [bot_state.json]. The time is stored
    through [isoformat] and read back through [fromisoformat], inverse to
    each other in the standard library. *)
Record state_json : Type := mkJson {
  j_last_post_time : option Z;
  j_published_posts_hashes : list pystr;
  j_published_news_ids : list Z
}.

Inductive file : Type :=
| Missing
| Unreadable
| Json (s : state_json).

(** The opaque quote of [PriceFetcher.get_ton_price]; its numbers only feed
    prompts. *)
Variant price_data : Type := ton_quote.

Variant generator_input : Type :=
| FromNews (news : list pystr)
| FromPrice (q : price_data).

(** Calls that leave the process. *)
Inductive call : Type :=
| NewsSource
| PriceSource
| ContentGenerator (i : generator_input)
| OpinionGenerator (content : pystr)
| ImageGenerator
| SendPhoto (photo caption : pystr)
| SendMessage (text : pystr).

Variant exn : Type := TelegramError | OtherException.

(** The lines of the scheduler's log that report a decision or a failure;
    the progress lines of the parser and of the generators are left out. *)
Inductive log_line : Type :=
| DuplicatePostSkipped
| UsedNewsSkipped (news_id : Z)
| PublishedWithImage
| PublishedWithoutImage
| PublishError (e : exn)
| PublishedAfterError
| FallbackError
| ManualDuplicateSkipped
| ManualPublished
| ManualPublishError
| TooEarly
| AllNewsUsed
| NewsChosen (news_id : Z)
| GenerationRaised
| GeneratedPostIrrelevant
| NewsPostPublished
| NoNews
| PostPublished
| PublishFailed
| GenerationFailed
| PriceUnavailable
| MorningPricePublished
| EveningPricePublished
| PricePublishFailed
| PriceGenerationFailed
| NewDay
| SaveStateFailed
| LoopError.

(** [channel] holds the posts that the Telegram channel has accepted,
    the oldest first. *)
#[projections(primitive)]
Record world : Type := mkWorld {
  bot : bot_state;
  bot_state_json : file;
  processed_ids_txt : list Z;
  calls : list call;
  logs : list log_line;
  channel : list pystr
}.

Definition with_bot (f : bot_state -> bot_state) (w : world) : world :=
  mkWorld (f (bot w)) (bot_state_json w) (processed_ids_txt w) (calls w) (logs w) (channel w).

Definition with_file (f : file) (w : world) : world :=
  mkWorld (bot w) f (processed_ids_txt w) (calls w) (logs w) (channel w).

Definition with_ids_txt (l : list Z) (w : world) : world :=
  mkWorld (bot w) (bot_state_json w) l (calls w) (logs w) (channel w).

Definition log_call (c : call) (w : world) : world :=
  mkWorld (bot w) (bot_state_json w) (processed_ids_txt w) (calls w ++ [c]) (logs w)
          (channel w).

Definition log_line_to (l : log_line) (w : world) : world :=
  mkWorld (bot w) (bot_state_json w) (processed_ids_txt w) (calls w) (logs w ++ [l])
          (channel w).

Definition accept_post (text : pystr) (w : world) : world :=
  mkWorld (bot w) (bot_state_json w) (processed_ids_txt w) (calls w) (logs w)
          (channel w ++ [text]).

Definition set_last_post_time (t : option Z) (b : bot_state) : bot_state :=
  mkBot t (posts_today b) (posts_target b) (reset_time b)
        (last_price_post_morning b) (last_price_post_evening b)
        (published_posts_hashes b) (published_news_ids b)
        (processed_message_ids b).

Definition set_posts_today (n : Z) (b : bot_state) : bot_state :=
  mkBot (last_post_time b) n (posts_target b) (reset_time b)
        (last_price_post_morning b) (last_price_post_evening b)
        (published_posts_hashes b) (published_news_ids b)
        (processed_message_ids b).

Definition new_day (target reset : Z) (b : bot_state) : bot_state :=
  mkBot (last_post_time b) 0 target reset
        (last_price_post_morning b) (last_price_post_evening b)
        (published_posts_hashes b) (published_news_ids b)
        (processed_message_ids b).

Definition set_last_price_post_morning (d : option Z) (b : bot_state) : bot_state :=
  mkBot (last_post_time b) (posts_today b) (posts_target b) (reset_time b)
        d (last_price_post_evening b)
        (published_posts_hashes b) (published_news_ids b)
        (processed_message_ids b).

Definition set_last_price_post_evening (d : option Z) (b : bot_state) : bot_state :=
  mkBot (last_post_time b) (posts_today b) (posts_target b) (reset_time b)
        (last_price_post_morning b) d
        (published_posts_hashes b) (published_news_ids b)
        (processed_message_ids b).

Definition add_post_hash (h : pystr) (b : bot_state) : bot_state :=
  mkBot (last_post_time b) (posts_today b) (posts_target b) (reset_time b)
        (last_price_post_morning b) (last_price_post_evening b)
        ({[h]} ∪ published_posts_hashes b) (published_news_ids b)
        (processed_message_ids b).

Definition add_news_id (i : Z) (b : bot_state) : bot_state :=
  mkBot (last_post_time b) (posts_today b) (posts_target b) (reset_time b)
        (last_price_post_morning b) (last_price_post_evening b)
        (published_posts_hashes b) ({[i]} ∪ published_news_ids b)
        (processed_message_ids b).

Definition add_processed_id (i : Z) (b : bot_state) : bot_state :=
  mkBot (last_post_time b) (posts_today b) (posts_target b) (reset_time b)
        (last_price_post_morning b) (last_price_post_evening b)
        (published_posts_hashes b) (published_news_ids b)
        ({[i]} ∪ processed_message_ids b).

(** ** Exceptions and the monad of the bot's methods *)

Inductive outcome (A : Type) : Type :=
| Ret (a : A)
| Raise (e : exn).
Arguments Ret {A} a.
Arguments Raise {A} e.

(** A method runs on a world and returns or raises; what it wrote before
    raising stays written. *)
Definition M (A : Type) : Type := world -> outcome A * world.

Definition ret {A} (a : A) : M A := fun w => (Ret a, w).

Definition bind {A B} (m : M A) (k : A -> M B) : M B :=
  fun w =>
    match m w with
    | (Ret a, w') => k a w'
    | (Raise e, w') => (Raise e, w')
    end.

#[export] Instance M_ret : MRet M := @ret.
#[export] Instance M_bind : MBind M := fun A B k m => bind m k.

(** [try: body / except Exception as e: handler(e)]. *)
Definition try_except {A} (body : M A) (handler : exn -> M A) : M A :=
  fun w =>
    match body w with
    | (Ret a, w') => (Ret a, w')
    | (Raise e, w') => handler e w'
    end.

Definition get_bot : M bot_state := fun w => (Ret (bot w), w).

Definition update_bot (f : bot_state -> bot_state) : M unit :=
  fun w => (Ret tt, with_bot f w).

(** An external call: logged, answered by the environment. *)
Definition external {A} (c : call) (answer : outcome A) : M A :=
  fun w => (answer, log_call c w).

(** [bot.send_photo] and [bot.send_message] to the channel: an external
    call that, when the Telegram API answers, puts the text on the
    channel. *)
Definition send (c : call) (text : pystr) (answer : outcome unit) : M unit :=
  fun w =>
    (answer,
     match answer with
     | Ret _ => accept_post text (log_call c w)
     | Raise _ => log_call c w
     end).

(** A computation that touches nothing: it returns or raises. *)
Definition lift {A} (o : outcome A) : M A := fun w => (o, w).

(** [logger.info], [logger.warning], [logger.error]. *)
Definition logger (l : log_line) : M unit :=
  fun w => (Ret tt, log_line_to l w).

(** Python truthiness of an [Optional[str]] and an [Optional[int]]. *)
Definition truthy_str (s : option pystr) : bool :=
  match s with
  | Some (_ :: _) => true
  | _ => false
  end.

Definition truthy_int (n : option Z) : bool :=
  match n with
  | Some n => negb (n =? 0)
  | None => false
  end.

End Bot.
Export Bot.

(* ===================================================================== *)
(** * Answers of the environment                                          *)
(* ===================================================================== *)

Module Env.

(** What happens to [open(...); json.dump(...)] in [_save_state]. *)
Variant disk_outcome : Type := WriteOk | WriteRefused | WriteTorn.

(** One message of [client.iter_messages]. *)
Record message : Type := mkMessage {
  m_id : Z;
  m_text : option pystr;
  m_date : Z
}.

(** The dict [{'id', 'text', 'date'}] built by [get_new_relevant_news]. *)
Record news_item : Type := mkItem {
  n_id : Z;
  n_text : pystr;
  n_date : Z
}.

(** The news channel at one poll: no client, or the messages it yields,
    whether the iteration then fails (flood wait or another error) and
    whether [processed_ids.txt] can be appended to. *)
Variant feed : Type :=
| NoClient
| Messages (ms : list message) (fails : bool) (ids_writable : bool).

(** One call of [publish_post]. *)
Record publish_env : Type := mkPublishEnv {
  p_prompt : outcome unit;
  p_image : outcome (option pystr);
  p_opinion : pystr;
  p_send : outcome unit;
  p_opinion_retry : pystr;
  p_fallback : outcome unit;
  p_now : Z;
  p_disk : disk_outcome
}.

(** One call of [publish_post_manual]. *)
Record manual_env : Type := mkManualEnv {
  a_opinion : pystr;
  a_send : outcome unit;
  a_now : Z;
  a_disk : disk_outcome
}.

(** One call of [check_and_publish_new_news] or [generate_and_publish]. *)
Record cycle_env : Type := mkCycleEnv {
  c_now : Z;
  c_feed : feed;
  c_generated : outcome (option pystr);
  c_publish : publish_env
}.

(** One call of [generate_and_publish_price]. *)
Record price_env : Type := mkPriceEnv {
  q_price : option price_data;
  q_generated : outcome (option pystr);
  q_publish : publish_env;
  q_msk_now : Z
}.

(** One pass of the body of [run_loop]. *)
Record tick_env : Type := mkTickEnv {
  t_cycle : cycle_env;
  t_msk_morning : Z;
  t_morning : price_env;
  t_msk_evening : Z;
  t_evening : price_env
}.

End Env.
Export Env.

(* ===================================================================== *)
(** * Time                                                                *)
(* ===================================================================== *)

Module Clock.

Definition second_us : Z := 1000000.
Definition minute_us : Z := 60 * second_us.
Definition hour_us : Z := 60 * minute_us.
Definition day_us : Z := 24 * hour_us.

(** [dt.replace(hour=0, minute=0, second=0, microsecond=0)]. *)
Definition midnight (dt : Z) : Z := dt - dt mod day_us.

Definition date_of (dt : Z) : Z := dt / day_us.
Definition hour_of (dt : Z) : Z := (dt mod day_us) / hour_us.
Definition minute_of (dt : Z) : Z := (dt mod hour_us) / minute_us.

(** The tolerance [0.1] minutes of [check_and_publish_new_news]. *)
Definition tolerance_us : Z := 6 * second_us.

End Clock.
Export Clock.

(* ===================================================================== *)
(** * NewsParser: polling the channel                                     *)
(* ===================================================================== *)

Module NewsParser.

(** [_load_processed_ids]: the lines of [processed_ids.txt] that are all
    digits. *)
Definition _load_processed_ids (lines : list Z) : gset Z :=
  list_to_set (List.filter (fun i => 0 <=? i) lines).

(** [_save_processed_id]: appends one line; a failure is only logged. *)
Definition _save_processed_id (writable : bool) (message_id : Z) : M unit :=
  fun w =>
    (Ret tt,
     if writable
     then with_ids_txt (processed_ids_txt w ++ [message_id]) w
     else w).

(** The service-message test of the scan. *)
Definition is_service (text : pystr) : bool :=
  startswith text (u "Download")
  || (startswith text (u "http://") && (List.length text <? 100)%nat)
  || (startswith text (u "https://") && (List.length text <? 100)%nat).

(** The body of [async for message in ...]. *)
Fixpoint scan (writable : bool) (ms : list message) (new_messages : list news_item)
  : M (list news_item) :=
  match ms with
  | [] => mret new_messages
  | message :: ms' =>
    b ← get_bot;
    if bool_decide (m_id message ∈ processed_message_ids b)
    then scan writable ms' new_messages
    else
      let text :=
        if truthy_str (m_text message)
        then strip <$> m_text message else None in
      match text with
      | Some ((_ :: _) as text) =>
        if is_service text then scan writable ms' new_messages
        else if is_relevant_news (Some text) then
          update_bot (add_processed_id (m_id message));;
          _save_processed_id writable (m_id message);;
          scan writable ms'
               (new_messages ++ [mkItem (m_id message) text (m_date message)])
        else scan writable ms' new_messages
      | _ => scan writable ms' new_messages
      end
  end.

(** [get_new_relevant_news(channel, limit)]; every exception is turned
    into an empty answer. *)
Definition get_new_relevant_news (f : feed) (limit : nat) : M (list news_item) :=
  match f with
  | NoClient => mret []
  | Messages ms fails writable =>
    external NewsSource (Ret tt);;
    new_messages ← scan writable (firstn limit ms) [];
    if fails then mret [] else mret new_messages
  end.

End NewsParser.

(* ===================================================================== *)
(** * TelegramChannelBot                                                  *)
(* ===================================================================== *)

Module TelegramChannelBot.

(** ** The duplicate guard *)

(** [_get_post_hash]; it raises [UnicodeEncodeError], an exception that
    is not a [TelegramError], when the text holds a surrogate. *)
Definition _get_post_hash (content : pystr) : outcome pystr :=
  let normalized := join (u " ") (split (lower (strip content))) in
  match utf8_encode normalized with
  | Some bytes => Ret (MD5.hexdigest bytes)
  | None => Raise OtherException
  end.

Definition _is_duplicate (content : pystr) (b : bot_state) : outcome bool :=
  match _get_post_hash content with
  | Ret post_hash => Ret (bool_decide (post_hash ∈ published_posts_hashes b))
  | Raise e => Raise e
  end.

(** ** The state file *)

Definition snapshot (b : bot_state) : state_json :=
  mkJson (last_post_time b)
         (elements (published_posts_hashes b))
         (elements (published_news_ids b)).

Definition _save_state (d : disk_outcome) : M unit :=
  match d with
  | WriteOk => fun w => (Ret tt, with_file (Json (snapshot (bot w))) w)
  | WriteRefused => logger SaveStateFailed
  | WriteTorn =>
    (fun w => (Ret tt, with_file Unreadable w));;
    logger SaveStateFailed
  end.

(** [_load_state]: the three attributes it sets, in the order
    [last_post_time], [_loaded_hashes], [_loaded_news_ids]. *)
Definition _load_state (f : file) : option Z * gset pystr * gset Z :=
  match f with
  | Json state =>
    (j_last_post_time state,
     list_to_set (j_published_posts_hashes state),
     list_to_set (j_published_news_ids state))
  | Missing | Unreadable => (None, ∅, ∅)
  end.

(** [__init__] at local time [now]. *)
Definition init (now : Z) (f : file) (lines : list Z) : bot_state :=
  let '(last, hashes, ids) := _load_state f in
  mkBot last 0 config.POSTS_PER_DAY (midnight now) None None hashes ids
        (NewsParser._load_processed_ids lines).

(** A process started at [now] on the files left on the disk. *)
Definition start (now : Z) (f : file) (lines : list Z) : world :=
  mkWorld (init now f lines) f lines [] [] [].

Definition _mark_as_published (d : disk_outcome) (content : pystr)
    (news_id : option Z) : M unit :=
  post_hash ← lift (_get_post_hash content);
  update_bot (add_post_hash post_hash);;
  (match news_id with
   | Some i => if truthy_int news_id then update_bot (add_news_id i) else mret tt
   | None => mret tt
   end);;
  _save_state d.

(** ** Publishing *)

(** [generate_image_prompt]: builds the prompt locally; it raises when the
    quote carries no number. *)
Definition generate_image_prompt (answer : outcome unit) : M unit :=
  fun w => (answer, w).

(** [_add_opinion_text]: asks DeepSeek for a closing line and never
    raises. *)
Definition _add_opinion_text (opinion content : pystr) : M pystr :=
  external (OpinionGenerator content) (Ret tt);;
  mret (content ++ opinion).

(** The lines that follow every successful send of [publish_post]. *)
Definition record_success (env : publish_env) (content : pystr)
    (is_price_post : bool) (news_id : option Z) : M bool :=
  (if negb is_price_post
   then update_bot (set_last_post_time (Some (p_now env))) else mret tt);;
  b ← get_bot;
  update_bot (set_posts_today (posts_today b + 1));;
  _mark_as_published (p_disk env) content news_id;;
  mret true.

(** The body of both [except] branches of [publish_post]; they differ in
    the [news_id] they hand to [_mark_as_published]. *)
Definition text_only_fallback (env : publish_env) (content : pystr)
    (is_price_post : bool) (news_id : option Z) : M bool :=
  try_except
    (content_with_opinion ← _add_opinion_text (p_opinion_retry env) content;
     send (SendMessage content_with_opinion) content_with_opinion
          (p_fallback env);;
     logger PublishedAfterError;;
     record_success env content is_price_post news_id)
    (fun _ => logger FallbackError;; mret false).

Definition publish_post (env : publish_env) (content : pystr)
    (price : option price_data) (is_price_post : bool) (news_id : option Z)
  : M bool :=
  b ← get_bot;
  duplicate ← lift (_is_duplicate content b);
  if duplicate : bool then
    logger DuplicatePostSkipped;; mret false
  else if truthy_int news_id
          && bool_decide (default 0 news_id ∈ published_news_ids b)
  then
    logger (UsedNewsSkipped (default 0 news_id));; mret false
  else
    try_except
      (generate_image_prompt (p_prompt env);;
       image_url ← external ImageGenerator (p_image env);
       content_with_opinion ← _add_opinion_text (p_opinion env) content;
       (match image_url with
        | Some ((_ :: _) as url) =>
          send (SendPhoto url content_with_opinion) content_with_opinion
               (p_send env);;
          logger PublishedWithImage
        | _ =>
          send (SendMessage content_with_opinion) content_with_opinion
               (p_send env);;
          logger PublishedWithoutImage
        end);;
       record_success env content is_price_post news_id)
      (fun e =>
         logger (PublishError e);;
         match e with
         | TelegramError =>
           text_only_fallback env content is_price_post news_id
         | OtherException =>
           text_only_fallback env content is_price_post None
         end).

Definition publish_post_manual (env : manual_env) (content : pystr)
    (image_url : option pystr) : M bool :=
  b ← get_bot;
  duplicate ← lift (_is_duplicate content b);
  if duplicate : bool then
    logger ManualDuplicateSkipped;; mret false
  else
    try_except
      (content_with_opinion ← _add_opinion_text (a_opinion env) content;
       (match image_url with
        | Some ((_ :: _) as url) =>
          send (SendPhoto url content_with_opinion) content_with_opinion
               (a_send env)
        | _ =>
          send (SendMessage content_with_opinion) content_with_opinion
               (a_send env)
        end);;
       logger ManualPublished;;
       update_bot (set_last_post_time (Some (a_now env)));;
       b ← get_bot;
       update_bot (set_posts_today (posts_today b + 1));;
       _mark_as_published (a_disk env) content None;;
       mret true)
      (fun _ => logger ManualPublishError;; mret false).

(** ** The scheduler *)

(** [should_publish_now]. The test
    [(now - last).total_seconds() / 3600 < 0.5] is the integer test below:
    both sides are exact at 1800 s and the division is monotone. *)
Definition should_publish_now (now : Z) : M bool :=
  b ← get_bot;
  (if reset_time b + day_us <=? now
   then update_bot (new_day config.POSTS_PER_DAY (midnight now));;
        logger NewDay
   else mret tt);;
  b ← get_bot;
  if posts_target b <=? posts_today b then mret false
  else
    match last_post_time b with
    | Some last =>
      if now - last <? config.MIN_HOURS_BETWEEN_POSTS_us
      then mret false else mret true
    | None => mret true
    end.

Definition get_new_relevant_news_items (f : feed) : M (list news_item) :=
  try_except (NewsParser.get_new_relevant_news f 100) (fun _ => mret []).

Definition get_fresh_news (f : feed) : M (list pystr) :=
  news_items ← get_new_relevant_news_items f;
  mret (n_text <$> news_items).

(** The interval test of [check_and_publish_new_news]:
    [time_since_last < min_interval_minutes - 0.1] in minutes. In double
    precision [30.0 - 0.1] and [1794 / 60] are the same number and elapsed
    times are whole microseconds, so the test is the integer test
    [now - last < 1794 s]. *)
Definition too_early (now last : Z) : bool :=
  now - last <? config.MIN_HOURS_BETWEEN_POSTS_us - tolerance_us.

Definition check_and_publish_new_news (env : cycle_env) : M bool :=
  b ← get_bot;
  let now := c_now env in
  if match last_post_time b with
     | Some last => too_early now last
     | None => false
     end
  then logger TooEarly;; mret false
  else
    news_items ← get_new_relevant_news_items (c_feed env);
    match news_items with
    | [] => mret false
    | _ :: _ =>
      b ← get_bot;
      let fresh_news_items :=
        List.filter
          (fun item => negb (bool_decide (n_id item ∈ published_news_ids b)))
          news_items in
      match fresh_news_items with
      | [] => logger AllNewsUsed;; mret false
      | latest_news :: _ =>
        logger (NewsChosen (n_id latest_news));;
        generated ←
          try_except
            (post_content ←
               external (ContentGenerator (FromNews [n_text latest_news]))
                        (c_generated env);
             mret (Some post_content))
            (fun _ => logger GenerationRaised;; mret None);
        match generated with
        | None => mret false
        | Some post_content =>
          match post_content with
          | Some ((_ :: _) as post_content) =>
            if negb (is_relevant_news (Some post_content)) then
              logger GeneratedPostIrrelevant;; mret false
            else
              success ← publish_post (c_publish env) post_content None false
                                     (Some (n_id latest_news));
              if success : bool then logger NewsPostPublished;; mret true
              else logger PublishFailed;; mret false
          | _ => logger GenerationFailed;; mret false
          end
        end
      end
    end.

(** [generate_and_publish], the path behind [should_publish_now]. *)
Definition generate_and_publish (env : cycle_env) : M bool :=
  ok ← should_publish_now (c_now env);
  if negb ok then mret false
  else
    news ← get_fresh_news (c_feed env);
    match news with
    | [] => logger NoNews;; mret false
    | _ :: _ =>
      post_content ← external (ContentGenerator (FromNews news)) (c_generated env);
      match post_content with
      | Some ((_ :: _) as post_content) =>
        success ← publish_post (c_publish env) post_content None false None;
        if success : bool then logger PostPublished;; mret true
        else logger PublishFailed;; mret false
      | _ => logger GenerationFailed;; mret false
      end
    end.

(** ** The price tracks; [msk_now] is the wall clock of UTC+3. *)

Definition should_post_price_morning (msk_now : Z) (b : bot_state) : bool :=
  let current_hour := hour_of msk_now in
  let current_minute := minute_of msk_now in
  let current_date := date_of msk_now in
  if (current_hour =? config.PRICE_POST_MORNING_HOUR) && (current_minute <=? 15)
  then negb (bool_decide (last_price_post_morning b = Some current_date))
  else false.

Definition should_post_price_evening (msk_now : Z) (b : bot_state) : bool :=
  let current_hour := hour_of msk_now in
  let current_minute := minute_of msk_now in
  let current_date := date_of msk_now in
  if (current_hour =? config.PRICE_POST_EVENING_HOUR) && (current_minute <=? 15)
  then negb (bool_decide (last_price_post_evening b = Some current_date))
  else false.

Definition generate_and_publish_price (env : price_env) (is_morning : bool)
  : M bool :=
  price ← external PriceSource (Ret (q_price env));
  match price with
  | None => logger PriceUnavailable;; mret false
  | Some q =>
    post_content ← external (ContentGenerator (FromPrice q)) (q_generated env);
    match post_content with
    | Some ((_ :: _) as post_content) =>
      success ← publish_post (q_publish env) post_content (Some q) true None;
      if success : bool then
        let msk_now := q_msk_now env in
        (if is_morning
         then update_bot (set_last_price_post_morning (Some (date_of msk_now)));;
              logger MorningPricePublished
         else update_bot (set_last_price_post_evening (Some (date_of msk_now)));;
              logger EveningPricePublished);;
        mret true
      else logger PricePublishFailed;; mret false
    | _ => logger PriceGenerationFailed;; mret false
    end
  end.

(** ** The driving loop *)

(** [if self.should_post_price_morning(): await
    self.generate_and_publish_price(is_morning=True)], and the same for
    the evening: one statement of [run_loop]. *)
Definition price_check (is_morning : bool) (env : tick_env) : M unit :=
  b ← get_bot;
  if is_morning then
    if should_post_price_morning (t_msk_morning env) b
    then generate_and_publish_price (t_morning env) true;; mret tt
    else mret tt
  else
    if should_post_price_evening (t_msk_evening env) b
    then generate_and_publish_price (t_evening env) false;; mret tt
    else mret tt.

(** The two price checks that [run_loop] makes at start and in every
    pass. *)
Definition price_checks (env : tick_env) : M unit :=
  price_check true env;;
  price_check false env.

(** The statements of [run_loop] before [while True]. *)
Definition run_loop_start (env : tick_env) : M unit :=
  price_checks env;;
  check_and_publish_new_news (t_cycle env);;
  mret tt.

(** One pass of the [try] block of the loop, after the sleep; an exception
    is logged and the loop goes on. *)
Definition tick (env : tick_env) : M unit :=
  try_except
    (check_and_publish_new_news (t_cycle env);;
     price_checks env)
    (fun _ => logger LoopError).

(** The loop over the passes that the environment drives. *)
Fixpoint run_ticks (envs : list tick_env) (w : world) : world :=
  match envs with
  | [] => w
  | env :: envs' => run_ticks envs' (snd (tick env w))
  end.

(** [run_loop]: the start, then the passes; an exception at the start
    ends the process. *)
Definition run_loop (start_env : tick_env) (envs : list tick_env) (w : world)
  : world :=
  match run_loop_start start_env w with
  | (Ret _, w') => run_ticks envs w'
  | (Raise _, w') => w'
  end.

End TelegramChannelBot.
Export TelegramChannelBot.

(* ===================================================================== *)
(** * Vocabulary of the statements                                        *)
(* ===================================================================== *)

Module Spec.

(** One elementary difference in letter case or whitespace between two
    texts: one character replaced by the same letter in another case (the
    capital sigma apart), leading or trailing whitespace removed, a run of
    internal whitespace replaced by another run. *)
Inductive case_ws_step : pystr -> pystr -> Prop :=
| step_case p c c' s :
    same_letter c c' -> case_ws_step (p ++ c :: s) (p ++ c' :: s)
| step_leading w s :
    forallb is_space w = true -> case_ws_step (w ++ s) s
| step_trailing w s :
    forallb is_space w = true -> case_ws_step (s ++ w) s
| step_internal p w w' s :
    w <> [] -> w' <> [] ->
    forallb is_space w = true -> forallb is_space w' = true ->
    case_ws_step (p ++ w ++ s) (p ++ w' ++ s).

(** Two texts differ only by letter case and whitespace. *)
Inductive same_modulo_case_ws : pystr -> pystr -> Prop :=
| same_refl t : same_modulo_case_ws t t
| same_step t t' : case_ws_step t t' -> same_modulo_case_ws t t'
| same_sym t t' : same_modulo_case_ws t t' -> same_modulo_case_ws t' t
| same_trans t1 t2 t3 :
    same_modulo_case_ws t1 t2 -> same_modulo_case_ws t2 t3 ->
    same_modulo_case_ws t1 t3.

(** The source id is given (truthy) and already consumed: the second test
    of [publish_post]. *)
Definition consumed (news_id : option Z) (b : bot_state) : bool :=
  truthy_int news_id && bool_decide (default 0 news_id ∈ published_news_ids b).

(** The memory that a successful send leaves: the timer (not for a price
    post), the counter, the hash and the source id that reached
    [_mark_as_published]. *)
Definition published (now : Z) (content : pystr) (is_price_post : bool)
    (news_id : option Z) (b : bot_state) : bot_state :=
  let b1 := if is_price_post then b else set_last_post_time (Some now) b in
  let b2 := set_posts_today (posts_today b1 + 1) b1 in
  let b3 :=
    match _get_post_hash content with
    | Ret post_hash => add_post_hash post_hash b2
    | Raise _ => b2
    end in
  match news_id with
  | Some i => if truthy_int news_id then add_news_id i b3 else b3
  | None => b3
  end.

(** A word: not empty, no whitespace. *)
Definition word (w : pystr) : Prop :=
  w <> [] /\ forallb (fun c => negb (is_space c)) w = true.

(** What the disk holds after [_save_state]. *)
Definition saved (d : disk_outcome) (b : bot_state) (f : file) : file :=
  match d with
  | WriteOk => Json (snapshot b)
  | WriteRefused => f
  | WriteTorn => Unreadable
  end.

(** The log lines that announce a price post. *)
Definition is_price_published (l : log_line) : bool :=
  match l with
  | MorningPricePublished | EveningPricePublished => true
  | _ => false
  end.

(** [l'] continues the log [l] without announcing a price post. *)
Definition quiet_logs (l l' : list log_line) : Prop :=
  exists ls, l' = l ++ ls /\ List.filter is_price_published ls = [].

(** The calls that the publish paths make: the opinion generator, the
    image generator and the channel. *)
Definition is_publisher_call (c : call) : bool :=
  match c with
  | OpinionGenerator _ | ImageGenerator | SendPhoto _ _ | SendMessage _ => true
  | _ => false
  end.

(** [l'] continues the call log [l] with calls of the publish paths. *)
Definition more_calls (l l' : list call) : Prop :=
  exists cs, l' = l ++ cs /\ forallb is_publisher_call cs = true.

(** What [_save_state] logs. *)
Definition save_log (d : disk_outcome) : list log_line :=
  match d with
  | WriteOk => []
  | WriteRefused | WriteTorn => [SaveStateFailed]
  end.

(** What a call of [publish_post] or [publish_post_manual] leaves when it
    returns [ok]: after [True] the memory of a successful send, with the
    source id [recorded], the disk after [_save_state] and one more post
    on the channel; after [False] memory, disk and channel as before. *)
Definition publish_result (now : Z) (d : disk_outcome) (content : pystr)
    (is_price_post : bool) (recorded : option Z) (ok : bool) (w w' : world)
  : Prop :=
  processed_ids_txt w' = processed_ids_txt w
  /\ more_calls (calls w) (calls w')
  /\ quiet_logs (logs w) (logs w')
  /\ if ok then
       bot w' = published now content is_price_post recorded (bot w)
       /\ bot_state_json w' = saved d (bot w') (bot_state_json w)
       /\ exists text, channel w' = channel w ++ [text]
     else bot w' = bot w /\ bot_state_json w' = bot_state_json w
          /\ channel w' = channel w.

(** [b'] is [b] but for the message ids that the parser has seen. *)
Definition same_but_processed (b b' : bot_state) : Prop :=
  b' = mkBot (last_post_time b) (posts_today b) (posts_target b)
             (reset_time b) (last_price_post_morning b)
             (last_price_post_evening b) (published_posts_hashes b)
             (published_news_ids b) (processed_message_ids b').

(** The ids of the messages that a poll can yield. *)
Definition feed_ids (f : feed) : list Z :=
  match f with
  | NoClient => []
  | Messages ms _ _ => m_id <$> ms
  end.

(** The text that the scan of [get_new_relevant_news] reads off a
    message. *)
Definition message_text (m : message) : option pystr :=
  if truthy_str (m_text m) then strip <$> m_text m else None.

(** A poll of the feed can yield [item]: a message of the feed has its
    id and, stripped, its text. *)
Definition polled (f : feed) (item : news_item) : Prop :=
  match f with
  | NoClient => False
  | Messages ms _ _ =>
    exists m,
      In m ms /\ message_text m = Some (n_text item) /\ m_id m = n_id item
  end.

(** The date a price track last posted. *)
Definition last_price_post (is_morning : bool) (b : bot_state) : option Z :=
  if is_morning then last_price_post_morning b else last_price_post_evening b.

Definition should_post_price (is_morning : bool) (msk_now : Z) (b : bot_state)
  : bool :=
  if is_morning then should_post_price_morning msk_now b
  else should_post_price_evening msk_now b.

(** The least time between two values of [last_post_time] that
    [check_and_publish_new_news] lets through. *)
Definition min_gap_us : Z := config.MIN_HOURS_BETWEEN_POSTS_us - tolerance_us.

(** The timer either stays or moves at least [min_gap_us] ahead. *)
Definition spaced (before after : option Z) : Prop :=
  after = before
  \/ exists t', after = Some t' /\ forall t, before = Some t -> t + min_gap_us <= t'.

(** The local clock does not go back between the interval check of a pass
    and the send. *)
Definition clock_ok (env : tick_env) : Prop :=
  c_now (t_cycle env) <= p_now (c_publish (t_cycle env)).

(** The successive values of [last_post_time] over the passes are
    [spaced]. *)
Fixpoint always_spaced (envs : list tick_env) (w : world) : Prop :=
  match envs with
  | [] => True
  | env :: envs' =>
    spaced (last_post_time (bot w)) (last_post_time (bot (snd (tick env w))))
    /\ always_spaced envs' (snd (tick env w))
  end.

Definition set_last_price_post (is_morning : bool) (d : option Z)
    (b : bot_state) : bot_state :=
  if is_morning then set_last_price_post_morning d b
  else set_last_price_post_evening d b.

(** ** The calls of a cycle *)

(** The calls [cs] of one [check_and_publish_new_news] that answered [r]
    on the memory [b]: at most one poll of the news source; then either
    nothing, and the answer is [False], or one call of the content
    generator on the text of an item that the poll can yield and whose
    id is not consumed; then calls of the publish paths, none unless the
    generated text is not a duplicate. *)
Definition guarded_calls (env : cycle_env) (b : bot_state)
    (r : outcome bool) (cs : list call) : Prop :=
  exists poll gen pub,
    cs = poll ++ gen ++ pub
    /\ (poll = [] \/ poll = [NewsSource])
    /\ ((gen = [] /\ pub = [] /\ r = Ret false)
        \/ exists item,
             gen = [ContentGenerator (FromNews [n_text item])]
             /\ polled (c_feed env) item
             /\ n_id item ∉ published_news_ids b)
    /\ forallb is_publisher_call pub = true
    /\ (pub <> [] ->
        exists content,
          c_generated env = Ret (Some content)
          /\ _is_duplicate content b = Ret false).

(** ** The statements that a run reaches *)

(** The statements of the body of [run_loop]. *)
Variant statement : Type :=
| CheckNews
| CheckPrice (is_morning : bool).

Definition run_statement (s : statement) (env : tick_env) : M unit :=
  match s with
  | CheckNews => check_and_publish_new_news (t_cycle env);; mret tt
  | CheckPrice is_morning => price_check is_morning env
  end.

(** The statements before [while True] and those of the [try] block. *)
Definition start_block : list statement :=
  [CheckPrice true; CheckPrice false; CheckNews].

Definition pass_block : list statement :=
  [CheckNews; CheckPrice true; CheckPrice false].

Fixpoint run_block (block : list statement) (env : tick_env) : M unit :=
  match block with
  | [] => mret tt
  | s :: block' => run_statement s env;; run_block block' env
  end.

(** A statement that a run reaches, with the answers of the environment
    for its pass and the world it starts on. *)
Record reached_statement : Type := mkReached {
  r_statement : statement;
  r_env : tick_env;
  r_world : world
}.

(** The world that a reached statement leaves. *)
Definition after (x : reached_statement) : world :=
  snd (run_statement (r_statement x) (r_env x) (r_world x)).

(** The posts that a reached statement puts on the channel. *)
Definition posts_of (x : reached_statement) : list pystr :=
  drop (List.length (channel (r_world x))) (channel (after x)).

(** The statements of a block that are reached from [w]: the block ends
    at the first statement that raises. *)
Fixpoint reached (block : list statement) (env : tick_env) (w : world)
  : list reached_statement :=
  match block with
  | [] => []
  | s :: block' =>
    mkReached s env w ::
    match run_statement s env w with
    | (Ret _, w') => reached block' env w'
    | (Raise _, _) => []
    end
  end.

Fixpoint reached_in_passes (envs : list tick_env) (w : world)
  : list reached_statement :=
  match envs with
  | [] => []
  | env :: envs' =>
    reached pass_block env w ++ reached_in_passes envs' (snd (tick env w))
  end.

(** The statements that [run_loop] reaches, in the order of the run. *)
Definition reached_in_run (start_env : tick_env) (envs : list tick_env)
    (w : world) : list reached_statement :=
  reached start_block start_env w
  ++ match run_loop_start start_env w with
     | (Ret _, w') => reached_in_passes envs w'
     | (Raise _, _) => []
     end.

(** ** The readings of the Moscow clock *)

(** The reading of [should_post_price_morning] or
    [should_post_price_evening] in a pass. *)
Definition check_time (is_morning : bool) (env : tick_env) : Z :=
  if is_morning then t_msk_morning env else t_msk_evening env.

(** The reading of [generate_and_publish_price] after the send. *)
Definition stamp_time (is_morning : bool) (env : tick_env) : Z :=
  q_msk_now (if is_morning then t_morning env else t_evening env).

(** The readings of a pass in the order of the program. *)
Definition clock_readings (env : tick_env) : list Z :=
  [check_time true env; stamp_time true env;
   check_time false env; stamp_time false env].

Fixpoint never_back (l : list Z) : bool :=
  match l with
  | a :: l' =>
    match l' with
    | b :: _ => (a <=? b) && never_back l'
    | [] => true
    end
  | [] => true
  end.

(** The Moscow date never goes back from one reading to the next, over
    the passes [envs]. *)
Definition dates_never_go_back (envs : list tick_env) : Prop :=
  never_back (date_of <$> flat_map clock_readings envs) = true.

(** The reached statement [x] is a check of the price track
    [is_morning] that put a post on the channel. *)
Definition delivered (is_morning : bool) (x : reached_statement) : Prop :=
  r_statement x = CheckPrice is_morning /\ posts_of x <> [].

(** The dates of the readings of a statement. *)
Definition statement_dates (s : statement) (env : tick_env) : list Z :=
  match s with
  | CheckNews => []
  | CheckPrice m => [date_of (check_time m env); date_of (stamp_time m env)]
  end.

Definition dates_of (x : reached_statement) : list Z :=
  statement_dates (r_statement x) (r_env x).

(** Each statement of [tr] starts on the memory and the channel that the
    one before it left, the first one on those of [w]. *)
Fixpoint chained (w : world) (tr : list reached_statement) : Prop :=
  match tr with
  | [] => True
  | x :: tr' =>
    bot (r_world x) = bot w /\ channel (r_world x) = channel w
    /\ chained (after x) tr'
  end.

(** The world that the last statement of [tr] leaves. *)
Fixpoint end_of (w : world) (tr : list reached_statement) : world :=
  match tr with
  | [] => w
  | x :: tr' => end_of (after x) tr'
  end.

End Spec.
Export Spec.

(* ===================================================================== *)
(** * Concrete runs                                                       *)
(* ===================================================================== *)

Module Scenario.

(** A memory with nothing published yet. *)
Definition memory (last : option Z) (today target : Z) : bot_state :=
  mkBot last today target 0 None None ∅ ∅ ∅.

Definition world_of (b : bot_state) : world := mkWorld b Missing [] [] [] [].

(** Every collaborator answers; the send happens at [now]. *)
Definition all_fine (now : Z) : publish_env :=
  mkPublishEnv (Ret tt) (Ret (Some (u "https://img.example/1.png")))
               (u " +") (Ret tt) (u " +") (Ret tt) now WriteOk.

(** The image generator raises an exception that is not a
    [TelegramError]; the text-only send goes through. *)
Definition image_crash (now : Z) : publish_env :=
  mkPublishEnv (Ret tt) (Raise OtherException)
               (u " +") (Ret tt) (u " +") (Ret tt) now WriteOk.

(** [send_photo] raises a [TelegramError]; the text-only send goes
    through. *)
Definition photo_refused (now : Z) : publish_env :=
  mkPublishEnv (Ret tt) (Ret (Some (u "https://img.example/1.png")))
               (u " +") (Raise TelegramError) (u " +") (Ret tt) now WriteOk.

(** The channel yields one message. *)
Definition one_item (id : Z) (text : pystr) : feed :=
  Messages [mkMessage id (Some text) 0] false true.

(** The channel yields two messages. *)
Definition two_messages (id1 : Z) (text1 : pystr) (id2 : Z) (text2 : pystr)
  : feed :=
  Messages [mkMessage id1 (Some text1) 0; mkMessage id2 (Some text2) 0]
           false true.

(** A poll at [now] that finds [f], with DeepSeek answering [generated]. *)
Definition cycle (now : Z) (f : feed) (generated : pystr) : cycle_env :=
  mkCycleEnv now f (Ret (Some generated)) (all_fine now).

(** A price post generated and sent at Moscow time [msk]. *)
Definition price (now msk : Z) (generated : pystr) : price_env :=
  mkPriceEnv (Some ton_quote) (Ret (Some generated)) (all_fine now) msk.

Definition manual (now : Z) : manual_env :=
  mkManualEnv (u " +") (Ret tt) now WriteOk.

(** 11:05 Moscow time on day [d]. *)
Definition morning_of (d : Z) : Z := d * day_us + 11 * hour_us + 5 * minute_us.

(** A pass on day [d] at 11:05 Moscow time where everything answers. *)
Definition morning_pass (d : Z) (now : Z) : tick_env :=
  mkTickEnv (mkCycleEnv now NoClient (Ret None) (all_fine now))
            (morning_of d) (price now (morning_of d) (u "тон по 5.10"))
            (morning_of d) (price now (morning_of d) (u "тон по 5.10")).

(** A pass on day [d] at 11:05 Moscow time where DeepSeek writes
    [text] for the price post. *)
Definition price_pass (d : Z) (now : Z) (text : pystr) : tick_env :=
  mkTickEnv (mkCycleEnv now NoClient (Ret None) (all_fine now))
            (morning_of d) (price now (morning_of d) text)
            (morning_of d) (price now (morning_of d) text).

(** A pass that reads [check] on the Moscow clock before the price
    checks and [stamp] after the send. *)
Definition skewed_pass (check stamp : Z) (now : Z) (text : pystr) : tick_env :=
  mkTickEnv (mkCycleEnv now NoClient (Ret None) (all_fine now))
            check (price now stamp text)
            check (price now stamp text).

(** A pass at local time [now] whose poll finds the message [id] and
    publishes a post made from it; no price post is due. *)
Definition news_pass (now id : Z) (text : pystr) : tick_env :=
  mkTickEnv (cycle now (one_item id text) text)
            0 (price now 0 (u "тон по 5.10"))
            0 (price now 0 (u "тон по 5.10")).

End Scenario.

(* ===================================================================== *)
(** * More string operations of Python                                    *)
(* ===================================================================== *)

Module PyStrMore.

(** [s.replace(old, new)] where [old] is one character. *)
Definition replace1 (old : N) (new : pystr) (s : pystr) : pystr :=
  flat_map (fun c => if (c =? old)%N then new else [c]) s.

(** [c in chars]. *)
Definition char_in (chars : pystr) (c : N) : bool := existsb (N.eqb c) chars.

(** [s.lstrip(chars)], [s.rstrip(chars)], [s.strip(chars)]. *)
Fixpoint lstrip_chars (chars : pystr) (s : pystr) : pystr :=
  match s with
  | [] => []
  | c :: s' => if char_in chars c then lstrip_chars chars s' else s
  end.

Definition rstrip_chars (chars : pystr) (s : pystr) : pystr :=
  rev (lstrip_chars chars (rev s)).

Definition strip_chars (chars : pystr) (s : pystr) : pystr :=
  rstrip_chars chars (lstrip_chars chars s).

(** [a == b] on strings. *)
Definition str_eqb (a b : pystr) : bool := bool_decide (a = b).

End PyStrMore.
Export PyStrMore.

(* ===================================================================== *)
(** * escape_markdown                                                     *)
(* ===================================================================== *)

Module Markdown.

Definition backslash : N := 92.

Definition escape_chars : pystr := Eval vm_compute in u "*_[]()~`>#+-=|{}".

Definition escape_markdown (text : pystr) : pystr :=
  match text with
  | [] => text
  | _ :: _ =>
    let result := replace1 backslash [backslash; backslash] text in
    fold_left (fun result char => replace1 char [backslash; char] result)
              escape_chars result
  end.

End Markdown.
Export Markdown.

(* ===================================================================== *)
(** * The reaction line of a post                                         *)
(* ===================================================================== *)

Module Opinion.

Definition negative_words : list pystr := Eval vm_compute in
  [u "скам"; u "лох"; u "пиздец"; u "хуй"; u "дерьмо"; u "говно"; u "упал";
   u "упала"; u "крах"; u "обман"; u "развод"; u "слил"; u "слила";
   u "проиграл"; u "проиграла"; u "плохо"; u "плохая"; u "плохой";
   u "плохое"; u "ужас"; u "кошмар"; u "провал"; u "провалился"; u "негатив";
   u "негативный"; u "негативная"; u "негативное"; u "зло"; u "злой";
   u "злая"; u "рофл"; u "мем"; u "прикол"; u "шутка"; u "смешно";
   u "смешной"; u "смешная"].

Definition positive_words : list pystr := Eval vm_compute in
  [u "вырос"; u "выросла"; u "выросли"; u "растет"; u "растут"; u "рост";
   u "закупился"; u "закупилась"; u "закупились"; u "покупка"; u "покупай";
   u "покупать"; u "хорошо"; u "хорошая"; u "хороший"; u "хорошее";
   u "отлично"; u "круто"; u "крутая"; u "крутой"; u "позитив";
   u "позитивный"; u "позитивная"; u "позитивное"; u "успех"; u "успешный";
   u "победа"; u "выиграл"; u "выиграла"; u "выиграли"; u "молодец";
   u "молодцы"].

Definition forbidden_words : list pystr := Eval vm_compute in
  [u "метамфетамин"; u "мефедрон"; u "амфетамин"; u "кокаин"; u "героин";
   u "лсд"; u "мдма"; u "экстази"; u "спайс"; u "соль"; u "кристалл";
   u "скорость"; u "фен"; u "амф"; u "меф"].

Definition emoji_chars : pystr := Eval vm_compute in u "🤡🔥😎😅😂😭😱🤔😤😡💀🎉🚀💰💸".

Definition clown : pystr := Eval vm_compute in u "🤡".
Definition fire : pystr := Eval vm_compute in u "🔥".

(** [sum(1 for word in words if word in s)]. *)
Definition count_in (words : list pystr) (s : pystr) : nat :=
  List.length (List.filter (contains s) words).

Definition _determine_post_tone (content : pystr) : pystr :=
  let content_lower := lower content in
  let negative_count := count_in negative_words content_lower in
  let positive_count := count_in positive_words content_lower in
  if (positive_count <=? negative_count)%nat then clown else fire.

(** The cleaning of DeepSeek's answer in [_generate_opinion_text], up to
    the cut at seven words. *)
Definition clean_reaction (content : pystr) : pystr :=
  let generated_text := strip content in
  let generated_text :=
    strip (strip_chars [39%N] (strip_chars [34%N] generated_text)) in
  let generated_text :=
    fold_left (fun text emoji_char => strip (replace1 emoji_char [] text))
              emoji_chars generated_text in
  let generated_text := strip (rstrip_chars (u ".,!?;:") generated_text) in
  let generated_text := strip (lstrip_chars (u "-–—•") generated_text) in
  let words := split generated_text in
  if (7 <? List.length words)%nat then join (u " ") (firstn 7 words)
  else generated_text.

(** The neutral reaction of a tone. *)
Definition neutral_reaction (emoji : pystr) : pystr :=
  if str_eqb emoji clown then u "крипта скам" else u "закупился".

(** [_generate_opinion_text] on DeepSeek's answer: [None] when the request
    failed or the answer could not be read, else the text of the first
    choice. *)
Definition _generate_opinion_text (answer : option pystr) (emoji : pystr)
  : option pystr :=
  match answer with
  | None => None
  | Some content =>
    let generated_text := clean_reaction content in
    let generated_lower := lower generated_text in
    let generated_text :=
      if any_in forbidden_words generated_lower then neutral_reaction emoji
      else generated_text in
    match generated_text with
    | [] => None
    | _ :: _ => Some ([10; 10]%N ++ emoji ++ u " - " ++ generated_text)
    end
  end.

(** What [_add_opinion_text] appends to the post. *)
Definition opinion_text (answer : option pystr) (content : pystr) : pystr :=
  let emoji := _determine_post_tone content in
  match _generate_opinion_text answer emoji with
  | Some opinion_text => opinion_text
  | None =>
    if str_eqb emoji clown then [10; 10]%N ++ u "🤡 - крипта скам"
    else [10; 10]%N ++ u "🔥 - закупился"
  end.

End Opinion.
Export Opinion.

(* ===================================================================== *)
(** * NanoBananaImageGenerator.generate_image_async                       *)
(* ===================================================================== *)

Module ImageGenerator.

(** The field [response] of a task status: missing, [null], an object
    with its two optional urls, or any other value (a string, a number, a
    list, a boolean). *)
Variant response_field : Type :=
| ResponseMissing
| ResponseNull
| ResponseObject (resultImageUrl originImageUrl : option pystr)
| ResponseOther.

(** A truthy value that [get_task_status] returns: the field [data] of
    the answer, a dict with its fields [successFlag] and [response], or a
    value that is not a dict. *)
Variant task_status : Type :=
| mkStatus (successFlag : option Z) (response : response_field)
| StatusNotDict.

(** [a or b] on two optional strings. *)
Definition or_else (a b : option pystr) : option pystr :=
  if truthy_str a then a else b.

Definition max_attempts : nat := 36.

(** The loop [for attempt in range(max_attempts)]: [replies attempt] is
    what [get_task_status] returns at that attempt ([None] when the call
    fails or returns a falsy value). The second component counts the
    calls of [get_task_status]. [status_data.get] and [response_data.get]
    raise [AttributeError] on a value that is not a dict. *)
Fixpoint wait_for_image (replies : nat -> option task_status)
    (attempt remaining : nat) : outcome (option pystr) * nat :=
  match remaining with
  | O => (Ret None, attempt)
  | S remaining' =>
    match replies attempt with
    | None => wait_for_image replies (S attempt) remaining'
    | Some StatusNotDict => (Raise OtherException, S attempt)
    | Some (mkStatus success_flag response_data) =>
      match success_flag with
      | Some 1 =>
        match response_data with
        | ResponseNull | ResponseOther => (Raise OtherException, S attempt)
        | ResponseMissing => (Ret None, S attempt)
        | ResponseObject resultImageUrl originImageUrl =>
          let image_url := or_else resultImageUrl originImageUrl in
          (Ret (if truthy_str image_url then image_url else None), S attempt)
        end
      | Some 2 | Some 3 => (Ret None, S attempt)
      | _ => wait_for_image replies (S attempt) remaining'
      end
    end
  end.

(** [generate_image_async]: [task] is the task id that [generate_image]
    obtained, if any. *)
Definition generate_image_async (task : option pystr)
    (replies : nat -> option task_status) : outcome (option pystr) * nat :=
  match task with
  | None => (Ret None, O)
  | Some _ => wait_for_image replies 0 max_attempts
  end.

(** A reply that ends the wait: success, one of the two failures, or a
    value that is not a dict. *)
Definition decisive (reply : option task_status) : bool :=
  match reply with
  | Some (mkStatus success_flag _) =>
    match success_flag with
    | Some 1 | Some 2 | Some 3 => true
    | _ => false
    end
  | Some StatusNotDict => true
  | None => false
  end.

(** What the wait returns on a decisive reply. *)
Definition verdict (reply : option task_status) : outcome (option pystr) :=
  match reply with
  | Some (mkStatus success_flag response_data) =>
    match success_flag, response_data with
    | Some 1, (ResponseNull | ResponseOther) => Raise OtherException
    | Some 1, ResponseObject r o =>
      Ret (if truthy_str (or_else r o) then or_else r o else None)
    | _, _ => Ret None
    end
  | Some StatusNotDict => Raise OtherException
  | None => Ret None
  end.

End ImageGenerator.
Export ImageGenerator.

(* ===================================================================== *)
(** * More of NewsParser and vocabulary of the further statements         *)
(* ===================================================================== *)

Module More.

(** [NewsParser.get_latest_news(channel, count)]. *)
Definition get_latest_news (f : feed) (count : nat) : M (list pystr) :=
  news ← NewsParser.get_new_relevant_news f (count * 2);
  mret (n_text <$> firstn count news).

(** The message passes the three filters of the scan: it has a text, is
    no service message and is relevant. *)
Definition accepted (m : message) : bool :=
  match message_text m with
  | Some ((_ :: _) as text) =>
    negb (NewsParser.is_service text) && is_relevant_news (Some text)
  | _ => false
  end.

(** One-pass escaping of the characters that satisfy [p]. *)
Definition escape_where (p : N -> bool) (text : pystr) : pystr :=
  flat_map (fun c => if p c then [backslash; c] else [c]) text.

(** The time of day of a clock reading, in microseconds. *)
Definition time_of_day (dt : Z) : Z := dt mod day_us.

(** The political markers that contain a strict crypto keyword. *)
Definition markers_with_keyword_inside : list pystr :=
  Eval vm_compute in
    List.filter (fun marker => existsb (contains marker) strict_crypto_keywords)
                political_markers.

(** What the memory keeps while the process runs: the counter does not go
    down, its day and its target stay, and the published hashes and
    source ids stay. *)
Definition memory_kept (b b' : bot_state) : Prop :=
  posts_today b <= posts_today b'
  /\ posts_target b' = posts_target b
  /\ reset_time b' = reset_time b
  /\ published_posts_hashes b ⊆ published_posts_hashes b'
  /\ published_news_ids b ⊆ published_news_ids b'.

(** The interval test of [check_and_publish_new_news] lets the poll run. *)
Definition poll_due (now : Z) (b : bot_state) : bool :=
  match last_post_time b with
  | Some last => negb (too_early now last)
  | None => true
  end.

(** The hour of a price track. *)
Definition price_hour (is_morning : bool) : Z :=
  if is_morning then config.PRICE_POST_MORNING_HOUR
  else config.PRICE_POST_EVENING_HOUR.

(** A channel that yields two relevant messages, the newest first. *)
Definition two_items : feed :=
  Messages [mkMessage 8 (Some (u "ETH up")) 0;
            mkMessage 7 (Some (u "BTC up")) 0] false true.

(** A url and a task id for the concrete runs. *)
Definition some_url : pystr := Eval vm_compute in u "https://img.example/1.png".
Definition some_task : pystr := Eval vm_compute in u "task".

End More.
Export More.
(* ===================================================================== *)
(** * Sanity checks of the embedding                                      *)
(* ===================================================================== *)

Example md5_empty : MD5.hexdigest [] = u "d41d8cd98f00b204e9800998ecf8427e".
Proof. vm_compute. reflexivity. Qed.

Example md5_abc :
  MD5.hexdigest <$> utf8_encode (u "abc")
  = Some (u "900150983cd24fb0d6963f7d28e17f72").
Proof. vm_compute. reflexivity. Qed.

Example md5_cyrillic :
  MD5.hexdigest <$> utf8_encode (u "тон по 5")
  = Some (u "e1f2b07c95bc6711958c26ba52fe21b9").
Proof. vm_compute. reflexivity. Qed.

Example split_example :
  split (u "  BTC  price
 up ") = [u "BTC"; u "price"; u "up"].
Proof. vm_compute. reflexivity. Qed.

Example lower_example : lower (u "ТОН по Btc") = u "тон по btc".
Proof. vm_compute. reflexivity. Qed.

(** The capital sigma at the end of a word, and inside one. *)
Example lower_final_sigma : lower (u "ΟΔΟΣ ΣΟΦΙΑ") = u "οδος σοφια".
Proof. vm_compute. reflexivity. Qed.

(** U+0130, the Kelvin sign and a letter of Latin Extended-A. *)
Example lower_other_letters :
  lower [0x130; 0x212A; 0x100]%N = [0x69; 0x307; 0x6B; 0x101]%N.
Proof. vm_compute. reflexivity. Qed.

Example lower_pairs_length : List.length lower_pairs = 1432%nat.
Proof. vm_compute. reflexivity. Qed.

(** A lone surrogate cannot be encoded. *)
Example encode_surrogate : utf8_encode [0x61; 0xD83D]%N = None.
Proof. vm_compute. reflexivity. Qed.

Example relevant_btc : is_relevant_news (Some (u "BTC price up 5%")) = true.
Proof. vm_compute. reflexivity. Qed.

Example irrelevant_senate :
  is_relevant_news (Some (u "Сенат проголосует по запрету")) = false.
Proof. vm_compute. reflexivity. Qed.

(** A text of the repository's own test, three blocks long once encoded. *)
Example post_hash_example :
  _get_post_hash
    (u "Optimism Foundation предложил использовать 50% выручки Superchain для выкупа токенов OP")
  = Ret (u "446caafedde6c157fb2ca562d2055fce").
Proof. vm_compute. reflexivity. Qed.
(* ===================================================================== *)
(** * Facts on strings                                                    *)
(* ===================================================================== *)

Module PyStrFacts.

Lemma is_space_spec (c : N) :
  is_space c = true <->
  ((9 <= c <= 13) \/ (28 <= c <= 32) \/ c = 0x85 \/ c = 0xA0 \/ c = 0x1680
   \/ (0x2000 <= c <= 0x200A) \/ c = 0x2028 \/ c = 0x2029 \/ c = 0x202F
   \/ c = 0x205F \/ c = 0x3000)%N.
Proof.
  unfold is_space.
  rewrite !orb_true_iff, !andb_true_iff, !N.leb_le, !N.eqb_eq. tauto.
Qed.

Lemma is_space_false (c : N) :
  ~ ((9 <= c <= 13) \/ (28 <= c <= 32) \/ c = 0x85 \/ c = 0xA0 \/ c = 0x1680
     \/ (0x2000 <= c <= 0x200A) \/ c = 0x2028 \/ c = 0x2029 \/ c = 0x202F
     \/ c = 0x205F \/ c = 0x3000)%N ->
  is_space c = false.
Proof.
  intros H. destruct (is_space c) eqn:E; [|reflexivity].
  apply is_space_spec in E. contradiction.
Qed.

Lemma is_space_In (c : N) : is_space c = true -> In c spaces.
Proof.
  intros H. apply is_space_spec in H. unfold spaces. cbn [In].
  destruct H as [H|[H|[H|[H|[H|[H|[H|[H|[H|[H|H]]]]]]]]]]; lia.
Qed.

(** A whitespace character is neither cased nor case-ignorable and has
    no lowercase of its own. *)
Lemma space_barrier (c : N) :
  is_space c = true ->
  is_case_ignorable c = false /\ is_cased c = false /\ stable c = true.
Proof.
  intros H. apply is_space_In in H.
  assert (Hall : forallb (fun c => negb (is_case_ignorable c)
                                   && negb (is_cased c) && stable c)
                         spaces = true) by (vm_compute; reflexivity).
  rewrite forallb_forall in Hall. specialize (Hall c H).
  apply andb_true_iff in Hall as [Hall Hs].
  apply andb_true_iff in Hall as [Hi Hc].
  apply negb_true_iff in Hi, Hc. auto.
Qed.

(** ** The lowercase table *)

Lemma lower_pairs_ok : forallb pair_ok lower_pairs = true.
Proof. vm_compute. reflexivity. Qed.

Lemma pair_ok_spec (p : N * N) :
  In p lower_pairs ->
  is_space (fst p) = false /\ is_space (snd p) = false
  /\ fst p <> 0x130%N /\ stable (snd p) = true
  /\ is_cased (fst p) = is_cased (snd p)
  /\ is_case_ignorable (fst p) = is_case_ignorable (snd p)
  /\ is_surrogate (fst p) = false /\ is_surrogate (snd p) = false.
Proof.
  intros Hin. pose proof lower_pairs_ok as H.
  rewrite forallb_forall in H. specialize (H p Hin). unfold pair_ok in H.
  rewrite !andb_true_iff, !negb_true_iff in H.
  destruct H as (((((((H1 & H2) & H3) & H4) & H5) & H6) & H7) & H8).
  apply N.eqb_neq in H3. apply Bool.eqb_prop in H5, H6. auto 10.
Qed.

Lemma simple_lower_spec (c : N) :
  (simple_lower c = c
   /\ List.find (fun p => (fst p =? c)%N) lower_pairs = None)
  \/ In (c, simple_lower c) lower_pairs.
Proof.
  unfold simple_lower.
  destruct (List.find (fun p => (fst p =? c)%N) lower_pairs) as [[k v]|] eqn:E.
  - right. apply List.find_some in E as [Hin Hk]. cbn in Hk.
    apply N.eqb_eq in Hk. subst k. exact Hin.
  - left. auto.
Qed.

Lemma stable_spec (c : N) :
  stable c = true <-> c <> 0x3A3%N /\ c <> 0x130%N /\ simple_lower c = c.
Proof.
  unfold stable. rewrite !andb_true_iff, !negb_true_iff, !N.eqb_neq, N.eqb_eq.
  tauto.
Qed.

Lemma simple_lower_sigma : simple_lower 0x3A3%N = 0x3C3%N.
Proof. vm_compute. reflexivity. Qed.

Lemma simple_lower_0130 : simple_lower 0x130%N = 0x130%N.
Proof. vm_compute. reflexivity. Qed.

(** The lowercase of a character is stable, but that of U+0130. *)
Lemma simple_lower_stable (c : N) :
  c <> 0x130%N -> stable (simple_lower c) = true.
Proof.
  intros Hc. destruct (simple_lower_spec c) as [[E Hnone]|Hin].
  - rewrite E. apply stable_spec. repeat split; [|exact Hc|exact E].
    intros ->. rewrite simple_lower_sigma in E. discriminate.
  - apply (pair_ok_spec _ Hin).
Qed.

Lemma simple_lower_idem (c : N) :
  simple_lower (simple_lower c) = simple_lower c.
Proof.
  destruct (N.eq_dec c 0x130%N) as [->|Hc]; [vm_compute; reflexivity|].
  apply stable_spec, simple_lower_stable, Hc.
Qed.

Lemma simple_lower_space (c : N) : is_space (simple_lower c) = is_space c.
Proof.
  destruct (simple_lower_spec c) as [[-> _]|Hin]; [reflexivity|].
  destruct (pair_ok_spec _ Hin) as (H1 & H2 & _). cbn in H1, H2. congruence.
Qed.

Lemma simple_lower_flags (c : N) :
  is_cased (simple_lower c) = is_cased c
  /\ is_case_ignorable (simple_lower c) = is_case_ignorable c.
Proof.
  destruct (simple_lower_spec c) as [[-> _]|Hin]; [auto|].
  destruct (pair_ok_spec _ Hin) as (_ & _ & _ & _ & H5 & H6 & _).
  cbn in H5, H6.
  auto.
Qed.

Lemma simple_lower_is_0130 (c : N) : simple_lower c = 0x130%N -> c = 0x130%N.
Proof.
  intros E. destruct (N.eq_dec c 0x130%N) as [|Hc]; [assumption|].
  pose proof (simple_lower_stable c Hc) as H. rewrite E in H.
  vm_compute in H. discriminate.
Qed.

Lemma stable_space (c : N) : is_space c = true -> stable c = true.
Proof. intros H. apply (space_barrier c H). Qed.

(** ** [str.lower] *)

Lemma lower_full_stable (c x : N) :
  In x (lower_full c) -> stable x = true.
Proof.
  unfold lower_full. destruct (N.eqb_spec c 0x130%N) as [->|Hc].
  - intros [<-|[<-|[]]]; vm_compute; reflexivity.
  - intros [<-|[]]. apply simple_lower_stable, Hc.
Qed.

Lemma lower_full_nonspace (c x : N) :
  is_space c = false -> In x (lower_full c) -> is_space x = false.
Proof.
  unfold lower_full. destruct (N.eqb_spec c 0x130%N) as [->|Hc].
  - intros _ [<-|[<-|[]]]; reflexivity.
  - intros Hs [<-|[]]. rewrite simple_lower_space. exact Hs.
Qed.

Lemma lower_full_of_stable (c : N) : stable c = true -> lower_full c = [c].
Proof.
  intros H. apply stable_spec in H as (_ & H130 & E).
  unfold lower_full. apply N.eqb_neq in H130. rewrite H130, E. reflexivity.
Qed.

(** One character of the text is one or two characters of the result. *)
Lemma do_lower_cons (before : pystr) (c : N) (s : pystr) :
  do_lower before (c :: s)
  = (if (c =? 0x3A3)%N then [handle_capital_sigma before s] else lower_full c)
    ++ do_lower (c :: before) s.
Proof. reflexivity. Qed.

Lemma sigma_stable before after :
  stable (handle_capital_sigma before after) = true.
Proof.
  unfold handle_capital_sigma.
  destruct (next_is_cased before && negb (next_is_cased after));
    vm_compute; reflexivity.
Qed.

Lemma do_lower_of_stable (s : pystr) : forall before,
  forallb stable s = true -> do_lower before s = s.
Proof.
  induction s as [|c s IH]; intros before H; [reflexivity|].
  cbn [forallb] in H. apply andb_true_iff in H as [Hc Hs].
  rewrite do_lower_cons, (IH _ Hs), (lower_full_of_stable c Hc).
  apply stable_spec in Hc as (Hsig & _). apply N.eqb_neq in Hsig.
  rewrite Hsig. reflexivity.
Qed.

Lemma do_lower_stable (s : pystr) : forall before,
  forallb stable (do_lower before s) = true.
Proof.
  induction s as [|c s IH]; intros before; [reflexivity|].
  rewrite do_lower_cons, forallb_app, IH, andb_true_r.
  destruct (c =? 0x3A3)%N.
  - cbn [forallb]. rewrite sigma_stable. reflexivity.
  - apply forallb_forall. intros x Hx. exact (lower_full_stable c x Hx).
Qed.

Lemma lower_idem (s : pystr) : lower (lower s) = lower s.
Proof. unfold lower. apply do_lower_of_stable, do_lower_stable. Qed.

Lemma do_lower_nil_iff (before s : pystr) : do_lower before s = [] <-> s = [].
Proof.
  split; [|intros ->; reflexivity].
  destruct s as [|c s]; [reflexivity|].
  rewrite do_lower_cons. unfold lower_full.
  destruct (c =? 0x3A3)%N; [discriminate|].
  destruct (c =? 0x130)%N; discriminate.
Qed.

Lemma do_lower_nonspace (s : pystr) : forall before,
  forallb (fun c => negb (is_space c)) s = true ->
  forallb (fun c => negb (is_space c)) (do_lower before s) = true.
Proof.
  induction s as [|c s IH]; intros before H; [reflexivity|].
  cbn [forallb] in H. apply andb_true_iff in H as [Hc Hs].
  apply negb_true_iff in Hc.
  rewrite do_lower_cons, forallb_app, (IH _ Hs), andb_true_r.
  destruct (c =? 0x3A3)%N.
  - cbn [forallb]. unfold handle_capital_sigma.
    destruct (next_is_cased before && negb (next_is_cased s)); reflexivity.
  - apply forallb_forall. intros x Hx.
    rewrite (lower_full_nonspace c x Hc Hx). reflexivity.
Qed.

(** ** The neighbours of a capital sigma *)

(** A character that is neither cased nor case-ignorable hides what
    follows it. *)
Lemma next_is_cased_barrier (p : pystr) (c : N) (x : pystr) :
  is_case_ignorable c = false -> is_cased c = false ->
  next_is_cased (p ++ c :: x) = next_is_cased p.
Proof.
  intros Hi Hc. induction p as [|a p IH]; cbn [app next_is_cased].
  - rewrite Hi. exact Hc.
  - destruct (is_case_ignorable a); [exact IH|reflexivity].
Qed.

Lemma do_lower_before (s : pystr) : forall before before',
  (forall p, next_is_cased (p ++ before) = next_is_cased (p ++ before')) ->
  do_lower before s = do_lower before' s.
Proof.
  induction s as [|c s IH]; intros before before' H; [reflexivity|].
  rewrite !do_lower_cons. f_equal.
  - unfold handle_capital_sigma. pose proof (H []) as H0.
    cbn [app] in H0. rewrite H0. reflexivity.
  - apply IH. intros p.
    change (p ++ c :: before) with (p ++ [c] ++ before).
    change (p ++ c :: before') with (p ++ [c] ++ before').
    rewrite !app_assoc. apply H.
Qed.

(** [str.lower] works on both sides of such a character separately. *)
Lemma do_lower_barrier (a : pystr) : forall before c b,
  is_case_ignorable c = false -> is_cased c = false -> stable c = true ->
  do_lower before (a ++ c :: b) = do_lower before a ++ c :: do_lower [] b.
Proof.
  induction a as [|x a IH]; intros before c b Hi Hc Hs.
  - cbn [app]. rewrite do_lower_cons, (lower_full_of_stable c Hs).
    pose proof Hs as Hs'. apply stable_spec in Hs' as (Hsig & _).
    apply N.eqb_neq in Hsig. rewrite Hsig. cbn [app do_lower]. f_equal.
    apply do_lower_before. intros p. rewrite app_nil_r.
    apply next_is_cased_barrier; assumption.
  - change ((x :: a) ++ c :: b) with (x :: (a ++ c :: b)).
    rewrite !do_lower_cons, (IH _ c b Hi Hc Hs), <- app_assoc.
    unfold handle_capital_sigma.
    rewrite (next_is_cased_barrier a c b Hi Hc). reflexivity.
Qed.

Lemma lower_space (a : pystr) (c : N) (b : pystr) :
  is_space c = true -> lower (a ++ c :: b) = lower a ++ c :: lower b.
Proof.
  intros H. destruct (space_barrier c H) as (Hi & Hc & Hs).
  apply do_lower_barrier; assumption.
Qed.

Lemma lower_spaces (w : pystr) : forallb is_space w = true -> lower w = w.
Proof.
  intros H. apply do_lower_of_stable. apply forallb_forall.
  intros c Hc. rewrite forallb_forall in H. apply stable_space, H, Hc.
Qed.

(** The text before an occurrence does not change the text from the
    occurrence on, but for the context it gives. *)
Lemma do_lower_app (a : pystr) : forall before l,
  exists a', do_lower before (a ++ l) = a' ++ do_lower (rev a ++ before) l.
Proof.
  induction a as [|x a IH]; intros before l.
  - exists []. reflexivity.
  - change ((x :: a) ++ l) with (x :: (a ++ l)). rewrite do_lower_cons.
    destruct (IH (x :: before) l) as (a' & ->).
    eexists. rewrite app_assoc. f_equal. cbn [rev]. rewrite <- app_assoc.
    reflexivity.
Qed.

Lemma do_lower_stable_prefix (k : pystr) : forall before b,
  forallb stable k = true ->
  do_lower before (k ++ b) = k ++ do_lower (rev k ++ before) b.
Proof.
  induction k as [|c k IH]; intros before b H; [reflexivity|].
  cbn [forallb] in H. apply andb_true_iff in H as [Hc Hk].
  change ((c :: k) ++ b) with (c :: (k ++ b)).
  rewrite do_lower_cons, (IH _ b Hk), (lower_full_of_stable c Hc).
  apply stable_spec in Hc as (Hsig & _). apply N.eqb_neq in Hsig.
  rewrite Hsig. cbn [rev app]. rewrite <- app_assoc. reflexivity.
Qed.

(** ** Letters that differ by case only *)

Lemma same_letter_flags (c c' : N) :
  simple_lower c = simple_lower c' ->
  is_cased c = is_cased c' /\ is_case_ignorable c = is_case_ignorable c'.
Proof.
  intros E. destruct (simple_lower_flags c) as [H1 H2].
  destruct (simple_lower_flags c') as [H3 H4].
  rewrite E in H1, H2. split; congruence.
Qed.

Lemma same_letter_lower_full (c c' : N) :
  simple_lower c = simple_lower c' -> lower_full c = lower_full c'.
Proof.
  intros E. unfold lower_full.
  destruct (N.eqb_spec c 0x130%N) as [->|Hc].
  - rewrite simple_lower_0130 in E. symmetry in E.
    apply simple_lower_is_0130 in E. subst c'. reflexivity.
  - destruct (N.eqb_spec c' 0x130%N) as [->|Hc'].
    + rewrite simple_lower_0130 in E. apply simple_lower_is_0130 in E.
      contradiction.
    + rewrite E. reflexivity.
Qed.

Lemma next_is_cased_same (l l' : pystr) :
  Forall2 (fun x y => simple_lower x = simple_lower y) l l' ->
  next_is_cased l = next_is_cased l'.
Proof.
  induction 1 as [|x y l l' E _ IH]; [reflexivity|].
  cbn [next_is_cased]. destruct (same_letter_flags x y E) as [-> ->].
  rewrite IH. reflexivity.
Qed.

(** Changing the case of letters other than the capital sigma does not
    change the lowercase text. *)
Lemma do_lower_same (s s' : pystr) :
  Forall2 (fun x y => x = y \/ same_letter x y) s s' ->
  forall before before',
    Forall2 (fun x y => simple_lower x = simple_lower y) before before' ->
    do_lower before s = do_lower before' s'.
Proof.
  induction 1 as [|x y s s' Hxy Hs IH]; intros before before' Hb;
    [reflexivity|].
  assert (Hlow : simple_lower x = simple_lower y)
    by (destruct Hxy as [->|(E & _)]; [reflexivity|exact E]).
  assert (Hafter : next_is_cased s = next_is_cased s').
  { apply next_is_cased_same. eapply Forall2_impl; [exact Hs|].
    intros a b [->|(E & _)]; [reflexivity|exact E]. }
  rewrite !do_lower_cons.
  rewrite (IH (x :: before) (y :: before')) by (constructor; assumption).
  f_equal. destruct Hxy as [->|(_ & Hx & Hy)].
  - unfold handle_capital_sigma.
    rewrite (next_is_cased_same _ _ Hb), Hafter. reflexivity.
  - apply N.eqb_neq in Hx, Hy. rewrite Hx, Hy.
    apply same_letter_lower_full, Hlow.
Qed.

Lemma lower_same_letter (p : pystr) (c c' : N) (s : pystr) :
  same_letter c c' -> lower (p ++ c :: s) = lower (p ++ c' :: s).
Proof.
  intros H. unfold lower. apply do_lower_same; [|constructor].
  apply Forall2_app; [|constructor; [right; exact H|]];
    apply Forall_Forall2_diag, Forall_forall; auto.
Qed.

(** ** Containment *)

Lemma startswith_spec (s p : pystr) :
  startswith s p = true <-> exists r, s = p ++ r.
Proof.
  revert s. induction p as [|a p IH]; intros s.
  - destruct s; cbn; split; eauto.
  - destruct s as [|b s]; cbn.
    + split; [discriminate|intros (r & H); discriminate].
    + rewrite andb_true_iff, IH, N.eqb_eq. split.
      * intros (-> & r & ->). eauto.
      * intros (r & H). injection H as -> ->. eauto.
Qed.

Lemma contains_spec (s kw : pystr) :
  contains s kw = true <-> exists a b, s = a ++ kw ++ b.
Proof.
  induction s as [|c s IH]; cbn [contains]; rewrite orb_true_iff, startswith_spec.
  - split.
    + intros [(r & H)|H]; [|discriminate]. exists [], r. exact H.
    + intros (a & b & H). left. destruct a; [|discriminate]. eauto.
  - rewrite IH. split.
    + intros [(r & H)|(a & b & ->)]; [exists [], r; exact H|].
      exists (c :: a), b. reflexivity.
    + intros (a & b & H). destruct a as [|c' a].
      * left. eauto.
      * right. injection H as -> ->. eauto.
Qed.

Lemma contains_trans (s p kw : pystr) :
  contains s p = true -> contains p kw = true -> contains s kw = true.
Proof.
  rewrite !contains_spec. intros (a & b & ->) (a' & b' & ->).
  exists (a ++ a'), (b' ++ b). rewrite <- !app_assoc. reflexivity.
Qed.

(** A lowercase keyword found in a text is found in its lowercase
    form. *)
Lemma contains_lower (s kw : pystr) :
  forallb stable kw = true ->
  contains s kw = true -> contains (lower s) kw = true.
Proof.
  intros Hk H. apply contains_spec in H as (a & b & ->).
  apply contains_spec. unfold lower.
  destruct (do_lower_app a [] (kw ++ b)) as (a' & ->).
  rewrite (do_lower_stable_prefix kw _ b Hk). eauto.
Qed.

Lemma any_in_true (kws : list pystr) (s kw : pystr) :
  In kw kws -> contains s kw = true -> any_in kws s = true.
Proof.
  intros Hin Hc. unfold any_in. apply existsb_exists. eauto.
Qed.

(** ** Splitting *)

Lemma split_all_space (w : pystr) : forallb is_space w = true -> split w = [].
Proof.
  induction w as [|c w IH]; simpl; [reflexivity|].
  intros [Hc Hw]%andb_true_iff. rewrite Hc. auto.
Qed.

Lemma split_app_space_l (w s : pystr) :
  forallb is_space w = true -> split (w ++ s) = split s.
Proof.
  induction w as [|c w IH]; simpl; [reflexivity|].
  intros [Hc Hw]%andb_true_iff. rewrite Hc. auto.
Qed.

Lemma split_head (c : N) (s : pystr) :
  is_space c = false -> exists w ws, split (c :: s) = w :: ws.
Proof.
  intros Hc. simpl. rewrite Hc.
  destruct s as [|c' s']; [eauto|].
  destruct (is_space c'); [eauto|].
  destruct (split (c' :: s')); eauto.
Qed.

(** A whitespace character between two texts separates their words. *)
Lemma split_middle (s1 s2 : pystr) (c : N) :
  is_space c = true -> split (s1 ++ c :: s2) = split s1 ++ split s2.
Proof.
  intros Hc. induction s1 as [|a s1 IH].
  - simpl. rewrite Hc. reflexivity.
  - change ((a :: s1) ++ c :: s2) with (a :: (s1 ++ c :: s2)).
    cbn [split]. destruct (is_space a) eqn:Ha; [exact IH|].
    destruct s1 as [|a' s1'].
    + cbn [app split]. rewrite Hc. reflexivity.
    + change ((a' :: s1') ++ c :: s2) with (a' :: (s1' ++ c :: s2)) in *.
      lazy beta match.
      destruct (is_space a') eqn:Ha'.
      * rewrite IH. reflexivity.
      * rewrite IH.
        destruct (split_head a' s1' Ha') as (w & ws & ->). reflexivity.
Qed.

Lemma split_app_space_r (s w : pystr) :
  forallb is_space w = true -> split (s ++ w) = split s.
Proof.
  intros Hw. destruct w as [|c w]; [by rewrite app_nil_r|].
  simpl in Hw. apply andb_true_iff in Hw as [Hc Hw].
  rewrite (split_middle s w c Hc), (split_all_space w Hw).
  apply app_nil_r.
Qed.

Lemma split_gap (p w s : pystr) :
  w <> [] -> forallb is_space w = true ->
  split (p ++ w ++ s) = split p ++ split s.
Proof.
  intros Hne Hw. destruct w as [|c w]; [congruence|].
  simpl in Hw. apply andb_true_iff in Hw as [Hc Hw].
  change (p ++ (c :: w) ++ s) with (p ++ c :: (w ++ s)).
  rewrite (split_middle p (w ++ s) c Hc), (split_app_space_l w s Hw).
  reflexivity.
Qed.

Lemma split_word (w : pystr) : word w -> split w = [w].
Proof.
  intros [Hne Hw]. induction w as [|c w IH]; [congruence|].
  cbn [forallb] in Hw. apply andb_true_iff in Hw as [Hc Hw].
  apply negb_true_iff in Hc. cbn [split]. rewrite Hc.
  destruct w as [|c' w']; [reflexivity|].
  pose proof Hw as Hw0. cbn [forallb] in Hw0.
  apply andb_true_iff in Hw0 as [Hc' _]. apply negb_true_iff in Hc'.
  rewrite Hc', IH by (congruence || exact Hw). reflexivity.
Qed.

Lemma split_words (s : pystr) : Forall word (split s).
Proof.
  induction s as [|c s IH]; [constructor|].
  cbn [split]. destruct (is_space c) eqn:Hc; [exact IH|].
  assert (Hone : word [c]).
  { split; [congruence|]. cbn. rewrite Hc. reflexivity. }
  destruct s as [|c' s']; [constructor; [exact Hone|constructor]|].
  destruct (is_space c') eqn:Hc'; [constructor; [exact Hone|exact IH]|].
  destruct (split (c' :: s')) as [|w ws];
    [constructor; [exact Hone|constructor]|].
  inversion IH as [|? ? [Hne Hw] Hws]; subst.
  constructor; [|exact Hws].
  split; [congruence|]. cbn. rewrite Hc, Hw. reflexivity.
Qed.

Lemma split_join (ws : list pystr) :
  Forall word ws -> split (join (u " ") ws) = ws.
Proof.
  induction 1 as [|w ws Hw Hws IH]; [reflexivity|].
  destruct ws as [|w2 ws'].
  - cbn [join]. apply split_word, Hw.
  - change (join (u " ") (w :: w2 :: ws'))
      with (w ++ 32%N :: join (u " ") (w2 :: ws')).
    rewrite split_middle by reflexivity.
    rewrite IH, (split_word w Hw). reflexivity.
Qed.

Lemma lower_word (w : pystr) : word w -> word (lower w).
Proof.
  intros [Hne Hw]. split.
  - intros E. apply do_lower_nil_iff in E. contradiction.
  - apply do_lower_nonspace, Hw.
Qed.

(** A text is a word followed by nothing or by a whitespace character. *)
Lemma first_word (c : N) (s : pystr) :
  is_space c = false ->
  exists w rest,
    c :: s = w ++ rest /\ word w
    /\ (rest = [] \/ exists c' r, rest = c' :: r /\ is_space c' = true).
Proof.
  revert c. induction s as [|c2 s IH]; intros c Hc.
  - exists [c], []. split; [reflexivity|]. split; [|left; reflexivity].
    split; [discriminate|]. cbn. rewrite Hc. reflexivity.
  - destruct (is_space c2) eqn:Hc2.
    + exists [c], (c2 :: s). split; [reflexivity|].
      split; [|right; eauto].
      split; [discriminate|]. cbn. rewrite Hc. reflexivity.
    + destruct (IH c2 Hc2) as (w & rest & E & [_ Hw] & Hrest).
      exists (c :: w), rest. split; [cbn; rewrite E; reflexivity|].
      split; [|exact Hrest].
      split; [discriminate|]. cbn. rewrite Hc, Hw. reflexivity.
Qed.

(** Lowercasing and splitting commute. *)
Lemma split_lower (s : pystr) : split (lower s) = List.map lower (split s).
Proof.
  remember (List.length s) as n eqn:Hn. revert s Hn.
  induction n as [n IH] using lt_wf_ind. intros s Hn.
  destruct s as [|c s]; [reflexivity|].
  destruct (is_space c) eqn:Hc.
  - pose proof (lower_space [] c s Hc) as E0.
    change (lower []) with (@nil N) in E0. cbn [app] in E0. rewrite E0.
    cbn [split]. rewrite Hc.
    apply (IH (List.length s)); [subst n; cbn; lia|reflexivity].
  - destruct (first_word c s Hc) as (w & rest & E & Hw & Hrest).
    rewrite E. destruct Hrest as [->|(c' & r & -> & Hc')].
    + rewrite app_nil_r, (split_word w Hw), (split_word _ (lower_word w Hw)).
      reflexivity.
    + rewrite (lower_space w c' r Hc'), !(split_middle _ _ c' Hc').
      rewrite (split_word w Hw), (split_word _ (lower_word w Hw)).
      cbn [List.map app]. f_equal.
      apply (IH (List.length r)); [|reflexivity].
      subst n. rewrite E, length_app. cbn. lia.
Qed.

(** ** Stripping *)

Lemma lstrip_decomp (s : pystr) :
  exists w, forallb is_space w = true /\ s = w ++ lstrip s.
Proof.
  induction s as [|c s (w & Hw & E)]; [by exists []|].
  simpl. destruct (is_space c) eqn:Hc.
  - exists (c :: w). simpl. rewrite Hc, Hw. split; [reflexivity|congruence].
  - by exists [].
Qed.

Lemma rstrip_decomp (s : pystr) :
  exists w, forallb is_space w = true /\ s = rstrip s ++ w.
Proof.
  unfold rstrip. destruct (lstrip_decomp (rev s)) as (w & Hw & E).
  exists (rev w). split.
  - rewrite forallb_forall in *. intros x Hx. apply Hw, in_rev, Hx.
  - rewrite <- (rev_involutive s), E at 1. apply rev_app_distr.
Qed.

Lemma strip_decomp (s : pystr) :
  exists w1 w2, forallb is_space w1 = true /\ forallb is_space w2 = true
                /\ s = w1 ++ strip s ++ w2.
Proof.
  destruct (lstrip_decomp s) as (w1 & H1 & E1).
  destruct (rstrip_decomp (lstrip s)) as (w2 & H2 & E2).
  exists w1, w2. repeat split; try assumption.
  unfold strip. congruence.
Qed.

Lemma split_strip (s : pystr) : split (strip s) = split s.
Proof.
  destruct (strip_decomp s) as (w1 & w2 & H1 & H2 & E).
  rewrite E at 2.
  rewrite (split_app_space_l w1 _ H1), (split_app_space_r _ w2 H2).
  reflexivity.
Qed.

(** ** Encoding *)

Lemma simple_lower_surrogate (c : N) :
  is_surrogate (simple_lower c) = is_surrogate c.
Proof.
  destruct (simple_lower_spec c) as [[-> _]|Hin]; [reflexivity|].
  destruct (pair_ok_spec _ Hin) as (_ & _ & _ & _ & _ & _ & H7 & H8).
  cbn in H7, H8. congruence.
Qed.

Lemma encodable_app (a b : pystr) :
  encodable (a ++ b) = encodable a && encodable b.
Proof. apply forallb_app. Qed.

(** Lowercasing neither makes nor removes a surrogate. *)
Lemma encodable_do_lower (s : pystr) : forall before,
  encodable (do_lower before s) = encodable s.
Proof.
  induction s as [|c s IH]; intros before; [reflexivity|].
  rewrite do_lower_cons, encodable_app, IH.
  change (encodable (c :: s)) with (negb (is_surrogate c) && encodable s).
  f_equal. destruct (N.eqb_spec c 0x3A3%N) as [->|_].
  - unfold handle_capital_sigma.
    destruct (next_is_cased before && negb (next_is_cased s)); reflexivity.
  - unfold lower_full. destruct (N.eqb_spec c 0x130%N) as [->|_];
      [reflexivity|].
    cbn. rewrite simple_lower_surrogate, andb_true_r. reflexivity.
Qed.

Lemma is_space_encodable (c : N) : is_space c = true -> is_surrogate c = false.
Proof.
  intros H. apply is_space_In in H.
  assert (Hall : forallb (fun c => negb (is_surrogate c)) spaces = true)
    by (vm_compute; reflexivity).
  rewrite forallb_forall in Hall. apply negb_true_iff, Hall, H.
Qed.

Lemma encodable_split (s : pystr) :
  forallb encodable (split s) = encodable s.
Proof.
  induction s as [|c s IH]; [reflexivity|].
  change (encodable (c :: s)) with (negb (is_surrogate c) && encodable s).
  cbn [split]. destruct (is_space c) eqn:Hc.
  { rewrite (is_space_encodable c Hc). exact IH. }
  destruct s as [|c' s'].
  { cbn. rewrite !andb_true_r. reflexivity. }
  destruct (is_space c') eqn:Hc'.
  { cbn [forallb]. rewrite IH. cbn. rewrite andb_true_r. reflexivity. }
  rewrite <- IH. destruct (split (c' :: s')) as [|w ws].
  - cbn. rewrite !andb_true_r. reflexivity.
  - cbn. rewrite andb_assoc. reflexivity.
Qed.

Lemma encodable_join (ws : list pystr) :
  encodable (join (u " ") ws) = forallb encodable ws.
Proof.
  induction ws as [|w ws IH]; [reflexivity|].
  destruct ws as [|w2 ws'].
  - cbn. rewrite andb_true_r. reflexivity.
  - change (join (u " ") (w :: w2 :: ws'))
      with (w ++ 32%N :: join (u " ") (w2 :: ws')).
    rewrite encodable_app.
    change (encodable (32%N :: join (u " ") (w2 :: ws')))
      with (encodable (join (u " ") (w2 :: ws'))).
    rewrite IH. reflexivity.
Qed.

Lemma utf8_encode_some (s : pystr) :
  (exists bytes, utf8_encode s = Some bytes)
  <-> forallb (fun c => negb (is_surrogate c)) s = true.
Proof.
  induction s as [|c s IH]; cbn [utf8_encode forallb].
  - split; eauto.
  - destruct (is_surrogate c); cbn [negb andb].
    + split; [intros (b & H); discriminate|discriminate].
    + rewrite <- IH. destruct (utf8_encode s); split; eauto;
        intros (b & H); discriminate.
Qed.

End PyStrFacts.
(* ===================================================================== *)
(** * The relevance classifier and the content hash                       *)
(* ===================================================================== *)

Module TextProofs.
Import PyStrFacts.

Lemma ukraine_keywords_stable (kw : pystr) :
  In kw ukraine_keywords -> forallb stable kw = true.
Proof.
  intros H. repeat (destruct H as [<-|H]; [vm_compute; reflexivity|]).
  destruct H.
Qed.

(** C8. A text that contains a term of the hard-exclusion list
    ([ukraine_keywords]), as written or in another letter case, is never
    relevant, whatever else it contains; neither is the empty text nor
    [None]. *)
Theorem is_relevant_news_hard_exclusion (text : option pystr) :
  (text = None \/ text = Some []
   \/ exists t kw, text = Some t /\ In kw ukraine_keywords
                   /\ (contains t kw = true \/ contains (lower t) kw = true)) ->
  is_relevant_news text = false.
Proof.
  intros [->|[->|(t & kw & -> & Hin & Hc)]]; try reflexivity.
  assert (Hl : contains (lower t) kw = true).
  { destruct Hc as [Hc|Hc]; [|exact Hc].
    apply contains_lower; [apply ukraine_keywords_stable, Hin|exact Hc]. }
  unfold is_relevant_news. destruct t as [|c t]; [reflexivity|].
  rewrite (any_in_true _ _ _ Hin Hl). reflexivity.
Qed.

Lemma is_relevant_news_hard_exclusion_witness :
  (Some (u "Bitcoin и Зеленский: BTC растёт") = None
   \/ Some (u "Bitcoin и Зеленский: BTC растёт") = Some []
   \/ exists t kw, Some (u "Bitcoin и Зеленский: BTC растёт") = Some t
                   /\ In kw ukraine_keywords
                   /\ (contains t kw = true \/ contains (lower t) kw = true))
  /\ is_relevant_news (Some (u "Bitcoin и Зеленский: BTC растёт")) = false.
Proof.
  assert (H : Some (u "Bitcoin и Зеленский: BTC растёт") = None
   \/ Some (u "Bitcoin и Зеленский: BTC растёт") = Some []
   \/ exists t kw, Some (u "Bitcoin и Зеленский: BTC растёт") = Some t
                   /\ In kw ukraine_keywords
                   /\ (contains t kw = true \/ contains (lower t) kw = true)).
  { right; right. exists (u "Bitcoin и Зеленский: BTC растёт"), (u "зеленск").
    split; [reflexivity|]. split; [vm_compute; tauto|].
    right. vm_compute. reflexivity. }
  split; [exact H|].
  exact (is_relevant_news_hard_exclusion _ H).
Defined.

(** ** The content hash *)

(** The words of the normalised text. *)
Lemma split_normalised (t : pystr) :
  split (lower (strip t)) = List.map lower (split t).
Proof. rewrite split_lower, split_strip. reflexivity. Qed.

Lemma _get_post_hash_words (t t' : pystr) :
  List.map lower (split t) = List.map lower (split t') ->
  _get_post_hash t = _get_post_hash t'.
Proof.
  intros H. unfold _get_post_hash. rewrite !split_normalised, H. reflexivity.
Qed.

Lemma case_ws_step_words (t t' : pystr) :
  case_ws_step t t' ->
  List.map lower (split t) = List.map lower (split t').
Proof.
  intros [p c c' s Hc|w s Hw|w s Hw|p w w' s Hn Hn' Hw Hw'].
  - rewrite <- !split_lower, (lower_same_letter p c c' s Hc). reflexivity.
  - rewrite split_app_space_l by exact Hw. reflexivity.
  - rewrite split_app_space_r by exact Hw. reflexivity.
  - rewrite !split_gap by assumption. reflexivity.
Qed.

Lemma same_modulo_case_ws_words (t t' : pystr) :
  same_modulo_case_ws t t' ->
  List.map lower (split t) = List.map lower (split t').
Proof.
  induction 1 as [t|t t' Hs|t t' _ IH|t1 t2 t3 _ IH1 _ IH2].
  - reflexivity.
  - apply case_ws_step_words, Hs.
  - symmetry. exact IH.
  - etransitivity; eassumption.
Qed.

(** The hash exists exactly for the texts without a surrogate. *)
Lemma _get_post_hash_returns (t : pystr) :
  if encodable t then exists post_hash, _get_post_hash t = Ret post_hash
  else _get_post_hash t = Raise OtherException.
Proof.
  unfold _get_post_hash.
  assert (E : encodable (join (u " ") (split (lower (strip t)))) = encodable t).
  { rewrite encodable_join, split_normalised, <- (encodable_split t).
    induction (split t) as [|w ws IHws]; [reflexivity|].
    cbn [List.map forallb]. rewrite IHws. f_equal.
    apply encodable_do_lower. }
  destruct (utf8_encode (join (u " ") (split (lower (strip t))))) as [bytes|]
    eqn:Hb.
  - assert (Ht : encodable t = true).
    { rewrite <- E. apply utf8_encode_some. eauto. }
    rewrite Ht. eauto.
  - destruct (encodable t); [|reflexivity].
    apply utf8_encode_some in E as (bytes & Hs). congruence.
Qed.

Lemma _mark_as_published_hash d t news_id w post_hash :
  _get_post_hash t = Ret post_hash ->
  fst (_mark_as_published d t news_id w) = Ret tt
  /\ post_hash
     ∈ published_posts_hashes (bot (snd (_mark_as_published d t news_id w))).
Proof.
  intros Hh. unfold _mark_as_published.
  cbv beta iota zeta delta [mbind M_bind mret M_ret bind ret lift update_bot
                            with_bot].
  rewrite Hh. cbn [bot bot_state_json processed_ids_txt calls logs channel].
  assert (Hin : forall b, post_hash
                  ∈ published_posts_hashes (add_post_hash post_hash b)).
  { intros b. cbn. apply elem_of_union_l, elem_of_singleton. reflexivity. }
  destruct news_id as [i|]; [destruct (truthy_int (Some i))|];
    destruct d;
    cbv beta iota zeta delta
      [_save_state mbind M_bind mret M_ret bind ret update_bot with_bot
       with_file logger log_line_to];
    cbn [bot bot_state_json processed_ids_txt calls logs channel fst snd
         add_news_id published_posts_hashes];
    (split; [reflexivity|]); apply Hin.
Qed.

(** C5, where it fails. The two spellings of a Greek word differ only by
    letter case, character by character, but [str.lower] turns the capital
    sigma at the end of the word into the final sigma: the two texts have
    different hashes, and once the first is marked as published the second
    is not a duplicate. *)
Lemma capital_sigma_is_not_case_invariant :
  let t := u "ΟΔΟΣ" in
  let t' := u "οδοσ" in
  List.map simple_lower t = List.map simple_lower t'
  /\ lower t = u "οδος" /\ lower t' = u "οδοσ"
  /\ _get_post_hash t = Ret (u "1eba365d4aae2732227333b18249e967")
  /\ _get_post_hash t' = Ret (u "44c5dcc09344a5bbe1f3bfb81cb1c418")
  /\ fst (_mark_as_published WriteOk t None (start 0 Missing [])) = Ret tt
  /\ _is_duplicate t'
       (bot (snd (_mark_as_published WriteOk t None (start 0 Missing []))))
     = Ret false.
Proof. vm_compute. repeat split; reflexivity. Qed.

(** C5, amended. When [t'] differs from [t] only by whitespace and by the
    case of letters other than the capital sigma, the two have the same
    content hash, or neither has one: if [t] holds no surrogate,
    [_mark_as_published] on [t] returns (with any source id, whatever the
    disk does) and [_is_duplicate] then answers [True] on [t'], and if it
    holds one, [_mark_as_published] raises and changes nothing. The hash
    of a text is that of its trimmed, of its lowercased and of its
    whitespace-collapsed form. *)
Theorem duplicate_modulo_case_and_whitespace (t t' : pystr) :
  same_modulo_case_ws t t' ->
  _get_post_hash t' = _get_post_hash t
  /\ (forall d news_id w,
        if encodable t then
          fst (_mark_as_published d t news_id w) = Ret tt
          /\ _is_duplicate t'
               (bot (snd (_mark_as_published d t news_id w))) = Ret true
        else _mark_as_published d t news_id w = (Raise OtherException, w))
  /\ _get_post_hash (strip t) = _get_post_hash t
  /\ _get_post_hash (lower t) = _get_post_hash t
  /\ _get_post_hash (join (u " ") (split t)) = _get_post_hash t.
Proof.
  intros Hsame.
  assert (Hh : _get_post_hash t' = _get_post_hash t).
  { apply _get_post_hash_words. symmetry.
    apply same_modulo_case_ws_words, Hsame. }
  split; [exact Hh|]. split; [|split; [|split]].
  - intros d news_id w. pose proof (_get_post_hash_returns t) as Hret.
    destruct (encodable t).
    + destruct Hret as (post_hash & Hp).
      destruct (_mark_as_published_hash d t news_id w post_hash Hp)
        as [Hfst Hin].
      split; [exact Hfst|]. unfold _is_duplicate. rewrite Hh, Hp.
      f_equal. apply bool_decide_eq_true. exact Hin.
    + unfold _mark_as_published.
      cbv beta iota zeta delta [mbind M_bind bind lift].
      rewrite Hret. reflexivity.
  - apply _get_post_hash_words. rewrite split_strip. reflexivity.
  - apply _get_post_hash_words.
    rewrite split_lower, List.map_map.
    apply List.map_ext, lower_idem.
  - apply _get_post_hash_words.
    rewrite (split_join _ (split_words t)). reflexivity.
Qed.

Lemma duplicate_modulo_case_and_whitespace_witness :
  same_modulo_case_ws (u "BTC price up 5%") (u "btc   PRICE up 5% ")
  /\ encodable (u "BTC price up 5%") = true
  /\ _is_duplicate (u "btc   PRICE up 5% ")
       (bot (snd (_mark_as_published WriteOk (u "BTC price up 5%") (Some 1)
                                     (start 0 Missing [])))) = Ret true.
Proof.
  assert (L : forall c c', simple_lower c = simple_lower c' ->
                           c <> 0x3A3%N -> c' <> 0x3A3%N -> same_letter c c')
    by (intros c c' H1 H2 H3; exact (conj H1 (conj H2 H3))).
  assert (H : same_modulo_case_ws (u "BTC price up 5%") (u "btc   PRICE up 5% ")).
  { apply same_trans with (u "BTC PRICE up 5%").
    { apply same_trans with (u "BTC Price up 5%").
      - apply same_sym, same_step.
        apply (step_case (u "BTC ") 80 112 (u "rice up 5%")).
        apply L; [reflexivity|discriminate|discriminate].
      - apply same_trans with (u "BTC PRice up 5%").
        + apply same_step.
          apply (step_case (u "BTC P") 114 82 (u "ice up 5%")).
          apply L; [reflexivity|discriminate|discriminate].
        + apply same_trans with (u "BTC PRIce up 5%").
          * apply same_step.
            apply (step_case (u "BTC PR") 105 73 (u "ce up 5%")).
            apply L; [reflexivity|discriminate|discriminate].
          * apply same_trans with (u "BTC PRICe up 5%").
            -- apply same_step.
               apply (step_case (u "BTC PRI") 99 67 (u "e up 5%")).
               apply L; [reflexivity|discriminate|discriminate].
            -- apply same_step.
               apply (step_case (u "BTC PRIC") 101 69 (u " up 5%")).
               apply L; [reflexivity|discriminate|discriminate]. }
    apply same_trans with (u "btc PRICE up 5%").
    { apply same_trans with (u "bTC PRICE up 5%").
      - apply same_step.
        apply (step_case [] 66 98 (u "TC PRICE up 5%")).
        apply L; [reflexivity|discriminate|discriminate].
      - apply same_trans with (u "btC PRICE up 5%").
        + apply same_step.
          apply (step_case (u "b") 84 116 (u "C PRICE up 5%")).
          apply L; [reflexivity|discriminate|discriminate].
        + apply same_step.
          apply (step_case (u "bt") 67 99 (u " PRICE up 5%")).
          apply L; [reflexivity|discriminate|discriminate]. }
    apply same_trans with (u "btc   PRICE up 5%").
    - apply same_step.
      exact (step_internal (u "btc") (u " ") (u "   ") (u "PRICE up 5%")
               ltac:(discriminate) ltac:(discriminate) eq_refl eq_refl).
    - apply same_sym, same_step.
      exact (step_trailing (u " ") (u "btc   PRICE up 5%") eq_refl). }
  split; [exact H|]. split; [reflexivity|].
  pose proof (proj1 (proj2 (duplicate_modulo_case_and_whitespace _ _ H))
                WriteOk (Some 1) (start 0 Missing [])) as Hd.
  change (encodable (u "BTC price up 5%")) with true in Hd.
  exact (proj2 Hd).
Defined.

End TextProofs.
(* ===================================================================== *)
(** * The publish paths                                                   *)
(* ===================================================================== *)

Module PublishProofs.

(** Symbolic execution of a method on a world. *)
Ltac run :=
  cbv beta iota zeta delta
    [publish_post publish_post_manual text_only_fallback record_success
     _mark_as_published _save_state _add_opinion_text generate_image_prompt
     mbind M_bind mret M_ret bind ret try_except external send lift logger
     update_bot get_bot with_bot with_file log_call log_line_to accept_post
     bot bot_state_json processed_ids_txt calls logs channel fst snd].

Lemma quiet_logs_refl l : quiet_logs l l.
Proof. exists []. split; [symmetry; apply app_nil_r|reflexivity]. Qed.

Lemma quiet_logs_trans l1 l2 l3 :
  quiet_logs l1 l2 -> quiet_logs l2 l3 -> quiet_logs l1 l3.
Proof.
  intros (a & -> & Ha) (b & -> & Hb). exists (a ++ b).
  split; [symmetry; apply app_assoc|].
  rewrite List.filter_app, Ha, Hb. reflexivity.
Qed.

Lemma quiet_logs_app l l' ls :
  List.filter is_price_published ls = [] ->
  quiet_logs l l' -> quiet_logs l (l' ++ ls).
Proof.
  intros H Hq. apply (quiet_logs_trans _ _ _ Hq). exists ls. auto.
Qed.

Lemma save_log_quiet d : List.filter is_price_published (save_log d) = [].
Proof. destruct d; reflexivity. Qed.

Lemma more_calls_refl l : more_calls l l.
Proof. exists []. split; [symmetry; apply app_nil_r|reflexivity]. Qed.

Lemma more_calls_trans l1 l2 l3 :
  more_calls l1 l2 -> more_calls l2 l3 -> more_calls l1 l3.
Proof.
  intros (a & -> & Ha) (b & -> & Hb). exists (a ++ b).
  split; [symmetry; apply app_assoc|]. rewrite forallb_app, Ha, Hb.
  reflexivity.
Qed.

Lemma more_calls_app l l' cs :
  forallb is_publisher_call cs = true ->
  more_calls l l' -> more_calls l (l' ++ cs).
Proof. intros Hcs H. apply (more_calls_trans _ _ _ H). exists cs. auto. Qed.

(** Splits a conjunction into its parts. *)
Ltac parts := repeat match goal with |- _ /\ _ => split end.

(** Closes the goals on the two logs after symbolic execution. *)
Ltac quiet :=
  repeat first
    [ reflexivity | apply quiet_logs_refl | apply more_calls_refl | eassumption
    | apply quiet_logs_app; [first [apply save_log_quiet | reflexivity]|]
    | apply more_calls_app; [reflexivity|]
    | eapply quiet_logs_trans; [|eassumption]
    | eapply more_calls_trans; [|eassumption] ].

(** The duplicate test returns exactly when the hash exists. *)
Lemma _is_duplicate_spec content b :
  match _get_post_hash content with
  | Ret post_hash =>
    _is_duplicate content b
    = Ret (bool_decide (post_hash ∈ published_posts_hashes b))
  | Raise e => _is_duplicate content b = Raise e
  end.
Proof. unfold _is_duplicate. destruct (_get_post_hash content); reflexivity. Qed.

Lemma _is_duplicate_hash content b duplicate :
  _is_duplicate content b = Ret duplicate ->
  exists post_hash,
    _get_post_hash content = Ret post_hash
    /\ duplicate = bool_decide (post_hash ∈ published_posts_hashes b).
Proof.
  unfold _is_duplicate. destruct (_get_post_hash content) as [h|e];
    [|discriminate].
  intros [= <-]. eauto.
Qed.

Lemma record_success_spec env content is_price_post news_id w post_hash :
  _get_post_hash content = Ret post_hash ->
  exists w',
    record_success env content is_price_post news_id w = (Ret true, w')
    /\ bot w' = published (p_now env) content is_price_post news_id (bot w)
    /\ bot_state_json w' = saved (p_disk env) (bot w') (bot_state_json w)
    /\ processed_ids_txt w' = processed_ids_txt w
    /\ calls w' = calls w
    /\ logs w' = logs w ++ save_log (p_disk env)
    /\ channel w' = channel w.
Proof.
  intros Hh. unfold published, record_success, _mark_as_published.
  rewrite !Hh.
  destruct is_price_post, news_id as [i|]; try destruct (truthy_int (Some i)) eqn:Hi;
    destruct (p_disk env) eqn:Hd; run; rewrite ?Hi, ?Hd; run;
    eexists; (split; [reflexivity|]);
    cbn [bot bot_state_json processed_ids_txt calls logs channel saved save_log];
    parts; try reflexivity; symmetry; apply app_nil_r.
Qed.

Lemma publish_result_from w0 now d content is_price_post recorded ok w w' :
  bot w0 = bot w -> bot_state_json w0 = bot_state_json w ->
  processed_ids_txt w0 = processed_ids_txt w ->
  channel w0 = channel w ->
  more_calls (calls w) (calls w0) -> quiet_logs (logs w) (logs w0) ->
  publish_result now d content is_price_post recorded ok w0 w' ->
  publish_result now d content is_price_post recorded ok w w'.
Proof.
  intros Hb Hf Hp Hch Hc Hl (Hp' & Hc' & Hl' & H).
  unfold publish_result. rewrite <- Hb, <- Hf, <- Hp, <- Hch.
  parts; try assumption; quiet.
Qed.

Lemma text_only_fallback_spec env content is_price_post news_id w post_hash :
  _get_post_hash content = Ret post_hash ->
  exists ok w',
    text_only_fallback env content is_price_post news_id w = (Ret ok, w')
    /\ publish_result (p_now env) (p_disk env) content is_price_post news_id
                      ok w w'.
Proof.
  intros Hh. unfold text_only_fallback.
  cbv beta iota zeta delta
    [mbind M_bind mret M_ret bind ret try_except external send logger
     _add_opinion_text log_call log_line_to accept_post
     bot bot_state_json processed_ids_txt calls logs channel fst snd].
  destruct (p_fallback env) as [[]|e].
  - match goal with
    | |- context [record_success env content is_price_post news_id ?w1] =>
      destruct (record_success_spec env content is_price_post news_id w1
                                    post_hash Hh)
        as (w' & -> & Hb & Hf & Hp & Hc & Hl & Hch)
    end.
    exists true, w'. cbn in *. split; [reflexivity|].
    unfold publish_result. rewrite Hp, Hc, Hl, Hch.
    parts; try assumption; quiet. eauto.
  - exists false. eexists. split; [reflexivity|].
    unfold publish_result. cbn. parts; quiet.
Qed.

(** The two guards of [publish_post]: a published hash or a consumed
    source id ends the call with a warning and nothing else. *)
Lemma publish_post_refused env content price is_price_post news_id w :
  _is_duplicate content (bot w) = Ret true
  \/ (_is_duplicate content (bot w) = Ret false
      /\ consumed news_id (bot w) = true) ->
  exists line,
    publish_post env content price is_price_post news_id w
    = (Ret false, log_line_to line w)
    /\ (line = DuplicatePostSkipped
        \/ line = UsedNewsSkipped (default 0 news_id)).
Proof.
  unfold publish_post, consumed.
  cbv beta iota zeta delta [mbind M_bind bind get_bot lift].
  intros [->|[-> ->]].
  - exists DuplicatePostSkipped. split; [reflexivity|auto].
  - exists (UsedNewsSkipped (default 0 news_id)). split; [reflexivity|auto].
Qed.

(** [publish_post] raises only when the text cannot be hashed, and then
    at once. When it returns [True] neither guard fired and the source id
    recorded is the one it was given or, after an exception other than
    [TelegramError], none. *)
Lemma publish_post_spec env content price is_price_post news_id w :
  match _is_duplicate content (bot w) with
  | Raise e =>
    publish_post env content price is_price_post news_id w = (Raise e, w)
  | Ret duplicate =>
    exists ok w' recorded,
      publish_post env content price is_price_post news_id w = (Ret ok, w')
      /\ (recorded = news_id \/ recorded = None)
      /\ publish_result (p_now env) (p_disk env) content is_price_post
                        recorded ok w w'
      /\ (ok = true -> duplicate = false /\ consumed news_id (bot w) = false)
  end.
Proof.
  destruct (_is_duplicate content (bot w)) as [duplicate|e] eqn:Hdup.
  2:{ unfold publish_post.
      cbv beta iota zeta delta [mbind M_bind bind get_bot lift].
      rewrite Hdup. reflexivity. }
  destruct (_is_duplicate_hash _ _ _ Hdup) as (post_hash & Hh & _).
  unfold publish_post, consumed.
  cbv beta iota zeta delta [mbind M_bind bind get_bot lift].
  rewrite Hdup. destruct duplicate.
  { run. exists false. eexists. exists None. split; [reflexivity|].
    split; [auto|]. split; [|discriminate].
    unfold publish_result. cbn. parts; quiet. }
  destruct (truthy_int news_id && _) eqn:Hused.
  { run. exists false. eexists. exists None. split; [reflexivity|].
    split; [auto|]. split; [|discriminate].
    unfold publish_result. cbn. parts; quiet. }
  cbv beta iota zeta delta
    [mbind M_bind mret M_ret bind ret try_except external send logger
     _add_opinion_text generate_image_prompt log_call log_line_to accept_post
     bot bot_state_json processed_ids_txt calls logs channel fst snd].
  assert (Hexn : forall e w0,
    bot w0 = bot w -> bot_state_json w0 = bot_state_json w ->
    processed_ids_txt w0 = processed_ids_txt w ->
    channel w0 = channel w ->
    more_calls (calls w) (calls w0) -> quiet_logs (logs w) (logs w0) ->
    exists ok w' recorded,
      match e with
      | TelegramError => text_only_fallback env content is_price_post news_id
      | OtherException => text_only_fallback env content is_price_post None
      end w0 = (Ret ok, w')
      /\ (recorded = news_id \/ recorded = None)
      /\ publish_result (p_now env) (p_disk env) content is_price_post
                        recorded ok w w'
      /\ (ok = true -> false = false /\ false = false)).
  { intros e w0 Hb Hf Hp Hch Hc Hl.
    destruct e;
      [destruct (text_only_fallback_spec env content is_price_post news_id w0
                                         post_hash Hh)
        as (ok & w' & -> & H); exists ok, w', news_id
      |destruct (text_only_fallback_spec env content is_price_post None w0
                                         post_hash Hh)
        as (ok & w' & -> & H); exists ok, w', None];
      (split; [reflexivity|]); (split; [auto|]); (split; [|auto]);
      eapply publish_result_from; eassumption. }
  destruct (p_prompt env) as [[]|e].
  2:{ apply Hexn; cbn; quiet. }
  destruct (p_image env) as [image_url|e].
  2:{ apply Hexn; cbn; quiet. }
  destruct image_url as [[|c url]|]; destruct (p_send env) as [[]|e];
    cbn [bot bot_state_json processed_ids_txt calls logs channel fst snd];
    try (apply Hexn; cbn; quiet);
    match goal with
    | |- context [record_success env content is_price_post news_id ?w1] =>
      destruct (record_success_spec env content is_price_post news_id w1
                                    post_hash Hh)
        as (w' & -> & Hb' & Hf' & Hp' & Hc' & Hl' & Hch')
    end;
    exists true, w', news_id; cbn in *; (split; [reflexivity|]);
    (split; [auto|]); (split; [|auto]);
    unfold publish_result; rewrite Hp', Hc', Hl', Hch';
    parts; try assumption; quiet; eauto.
Qed.

(** [publish_post_manual] raises only when the text cannot be hashed,
    and then at once. *)
Lemma publish_post_manual_spec env content image_url w :
  match _is_duplicate content (bot w) with
  | Raise e => publish_post_manual env content image_url w = (Raise e, w)
  | Ret duplicate =>
    exists ok w',
      publish_post_manual env content image_url w = (Ret ok, w')
      /\ publish_result (a_now env) (a_disk env) content false None ok w w'
      /\ ok = negb duplicate
              && match a_send env with Ret _ => true | Raise _ => false end
  end.
Proof.
  destruct (_is_duplicate content (bot w)) as [duplicate|e] eqn:Hdup.
  2:{ unfold publish_post_manual.
      cbv beta iota zeta delta [mbind M_bind bind get_bot lift].
      rewrite Hdup. reflexivity. }
  destruct (_is_duplicate_hash _ _ _ Hdup) as (post_hash & Hh & _).
  unfold publish_post_manual.
  cbv beta iota zeta delta [mbind M_bind bind get_bot lift].
  rewrite Hdup. destruct duplicate.
  { run. exists false. eexists. split; [reflexivity|]. split; [|reflexivity].
    unfold publish_result. cbn. parts; quiet. }
  unfold _mark_as_published. rewrite Hh.
  destruct image_url as [[|c url]|]; destruct (a_send env) as [[]|e];
    destruct (a_disk env) eqn:Hd; run; rewrite ?Hd; run;
    eexists; eexists; (split; [reflexivity|]); (split; [|reflexivity]);
    unfold publish_result, published; rewrite ?Hh;
    cbn [bot bot_state_json processed_ids_txt calls logs channel saved];
    parts; quiet; eauto.
Qed.

(** What is known once [publish_post] has returned. *)
Lemma publish_post_returned env content price is_price_post news_id w ok w' :
  publish_post env content price is_price_post news_id w = (Ret ok, w') ->
  exists duplicate recorded,
    _is_duplicate content (bot w) = Ret duplicate
    /\ (recorded = news_id \/ recorded = None)
    /\ publish_result (p_now env) (p_disk env) content is_price_post
                      recorded ok w w'
    /\ (ok = true -> duplicate = false /\ consumed news_id (bot w) = false).
Proof.
  intros Hrun.
  pose proof (publish_post_spec env content price is_price_post news_id w)
    as Hspec.
  destruct (_is_duplicate content (bot w)) as [duplicate|e];
    [|congruence].
  destruct Hspec as (ok2 & w2 & recorded & E & Hrec & Hres & Hguards).
  rewrite Hrun in E. injection E as <- <-.
  exists duplicate, recorded. auto.
Qed.

Lemma publish_post_manual_returned env content image_url w ok w' :
  publish_post_manual env content image_url w = (Ret ok, w') ->
  exists duplicate,
    _is_duplicate content (bot w) = Ret duplicate
    /\ publish_result (a_now env) (a_disk env) content false None ok w w'
    /\ ok = negb duplicate
            && match a_send env with Ret _ => true | Raise _ => false end.
Proof.
  intros Hrun.
  pose proof (publish_post_manual_spec env content image_url w) as Hspec.
  destruct (_is_duplicate content (bot w)) as [duplicate|e];
    [|congruence].
  destruct Hspec as (ok2 & w2 & E & Hres & Hok).
  rewrite Hrun in E. injection E as <- <-.
  exists duplicate. auto.
Qed.

End PublishProofs.
(* ===================================================================== *)
(** * The scheduler                                                       *)
(* ===================================================================== *)

Module SchedulerProofs.
Import PublishProofs.

Lemma published_fields now content is_price_post recorded b :
  let b' := published now content is_price_post recorded b in
  last_post_time b' = (if is_price_post then last_post_time b else Some now)
  /\ posts_today b' = posts_today b + 1
  /\ posts_target b' = posts_target b
  /\ reset_time b' = reset_time b
  /\ last_price_post_morning b' = last_price_post_morning b
  /\ last_price_post_evening b' = last_price_post_evening b
  /\ processed_message_ids b' = processed_message_ids b
  /\ published_posts_hashes b' =
     match _get_post_hash content with
     | Ret post_hash => {[post_hash]} ∪ published_posts_hashes b
     | Raise _ => published_posts_hashes b
     end
  /\ published_news_ids b' =
     (if truthy_int recorded then {[default 0 recorded]} ∪ published_news_ids b
      else published_news_ids b).
Proof.
  unfold published.
  destruct (_get_post_hash content); destruct is_price_post, recorded as [i|];
    try destruct (truthy_int (Some i)) eqn:Hi; cbn;
    repeat split; reflexivity.
Qed.

Lemma filter_none {A} (f : A -> bool) (l : list A) :
  (forall x, In x l -> f x = false) -> List.filter f l = [].
Proof.
  induction l as [|a l IH]; intros H; [reflexivity|].
  cbn. rewrite (H a (or_introl eq_refl)). apply IH.
  intros x Hx. apply H. right. exact Hx.
Qed.

Lemma same_but_processed_refl b : same_but_processed b b.
Proof. destruct b. reflexivity. Qed.

Lemma same_but_processed_trans b1 b2 b3 :
  same_but_processed b1 b2 -> same_but_processed b2 b3 ->
  same_but_processed b1 b3.
Proof. unfold same_but_processed. intros -> ->. reflexivity. Qed.

Lemma same_but_processed_add i b : same_but_processed b (add_processed_id i b).
Proof. reflexivity. Qed.

Lemma _is_duplicate_same_but_processed content b b' :
  same_but_processed b b' -> _is_duplicate content b' = _is_duplicate content b.
Proof. unfold same_but_processed. intros ->. reflexivity. Qed.

(** ** Polling *)

Lemma scan_spec writable ms : forall acc w,
  exists items w',
    NewsParser.scan writable ms acc w = (Ret items, w')
    /\ same_but_processed (bot w) (bot w')
    /\ bot_state_json w' = bot_state_json w
    /\ calls w' = calls w /\ logs w' = logs w /\ channel w' = channel w
    /\ forall item, In item items ->
         In item acc
         \/ exists m,
              In m ms /\ message_text m = Some (n_text item)
              /\ m_id m = n_id item.
Proof.
  induction ms as [|m ms IH]; intros acc w.
  - exists acc, w. cbn. parts; auto using same_but_processed_refl.
  - cbn [NewsParser.scan].
    cbv beta iota zeta delta [mbind M_bind bind get_bot].
    assert (Hskip : exists items w',
      NewsParser.scan writable ms acc w = (Ret items, w')
      /\ same_but_processed (bot w) (bot w')
      /\ bot_state_json w' = bot_state_json w
      /\ calls w' = calls w /\ logs w' = logs w /\ channel w' = channel w
      /\ forall item, In item items ->
           In item acc
           \/ exists m0,
                In m0 (m :: ms) /\ message_text m0 = Some (n_text item)
                /\ m_id m0 = n_id item).
    { destruct (IH acc w) as (items & w' & E & H1 & H2 & H3 & H4 & H5 & H6).
      exists items, w'. parts; try assumption.
      intros item Hi. destruct (H6 item Hi) as [Ha|(m0 & Hm0 & Ht)];
        [left; exact Ha|right; exists m0; split; [right; exact Hm0|exact Ht]]. }
    destruct (bool_decide _); [exact Hskip|].
    fold (message_text m).
    destruct (message_text m) as [[|c text]|] eqn:Htext; try exact Hskip.
    destruct (NewsParser.is_service (c :: text)); [exact Hskip|].
    destruct (is_relevant_news (Some (c :: text))); [|exact Hskip].
    destruct writable;
      cbv beta iota zeta delta
        [mbind M_bind bind update_bot NewsParser._save_processed_id with_bot
         with_ids_txt];
      cbn [bot bot_state_json processed_ids_txt calls logs channel];
      match goal with
      | |- context [NewsParser.scan _ ms ?acc1 ?w1] =>
        destruct (IH acc1 w1) as (items & w' & -> & H1 & H2 & H3 & H4 & H5 & H6)
      end;
      exists items, w'; (split; [reflexivity|]);
      cbn [bot bot_state_json processed_ids_txt calls logs channel] in *;
      (split; [eapply same_but_processed_trans;
               [apply same_but_processed_add|exact H1]|]);
      parts; try assumption;
      intros item Hi;
      (destruct (H6 item Hi) as [Ha|(m0 & Hm0 & Ht)];
       [apply in_app_or in Ha as [Ha|[<-|[]]];
        [left; exact Ha
        |right; exists m; cbn [n_text n_id];
         split; [left; reflexivity|split; [exact Htext|reflexivity]]]
       |right; exists m0; split; [right; exact Hm0|exact Ht]]).
Qed.

Lemma polled_feed_id f item : polled f item -> In (n_id item) (feed_ids f).
Proof.
  destruct f as [|ms fails writable]; [intros []|].
  intros (m & Hm & _ & <-). cbn [feed_ids].
  apply list_elem_of_In, list_elem_of_fmap. exists m.
  split; [reflexivity|apply list_elem_of_In, Hm].
Qed.

Lemma get_new_relevant_news_items_spec f w :
  exists items w',
    get_new_relevant_news_items f w = (Ret items, w')
    /\ same_but_processed (bot w) (bot w')
    /\ bot_state_json w' = bot_state_json w
    /\ (calls w' = calls w \/ calls w' = calls w ++ [NewsSource])
    /\ logs w' = logs w /\ channel w' = channel w
    /\ forall item, In item items -> polled f item.
Proof.
  unfold get_new_relevant_news_items, NewsParser.get_new_relevant_news.
  destruct f as [|ms fails writable].
  - exists [], w. cbn. parts; auto using same_but_processed_refl;
      intros _ [].
  - cbv beta iota zeta delta
      [mbind M_bind mret M_ret bind ret try_except external log_call].
    match goal with
    | |- context [NewsParser.scan writable ?l ?acc1 ?w1] =>
      destruct (scan_spec writable l acc1 w1)
        as (items & w' & -> & H1 & H2 & H3 & H4 & H5 & H6)
    end.
    cbn [bot bot_state_json processed_ids_txt calls logs channel] in *.
    assert (Hids : forall item, In item items ->
                                polled (Messages ms fails writable) item).
    { intros item Hi. destruct (H6 item Hi) as [[]|(m & Hm & Ht)].
      exists m. split; [|exact Ht].
      apply list_elem_of_In. apply list_elem_of_In in Hm.
      eapply subseteq_take, Hm. }
    destruct fails; [exists [], w'|exists items, w'];
      (split; [reflexivity|]); parts; auto; intros _ [].
Qed.

(** ** The cycle track *)

(** [check_and_publish_new_news] raises only when the generated text
    cannot be hashed. After [True] the interval test had passed, the
    memory is that of one successful send of a post made from a polled
    item whose id was not consumed and the channel has one more post;
    otherwise only the ids seen by the parser may have changed. *)
Lemma check_and_publish_new_news_spec env w :
  exists r w',
    check_and_publish_new_news env w = (r, w')
    /\ quiet_logs (logs w) (logs w')
    /\ (exists cs, calls w' = calls w ++ cs /\ guarded_calls env (bot w) r cs)
    /\ match r with
       | Ret true =>
         match last_post_time (bot w) with
         | Some last => too_early (c_now env) last = false
         | None => True
         end
         /\ (exists b1 content i recorded,
               same_but_processed (bot w) b1
               /\ In i (feed_ids (c_feed env))
               /\ (i ∉ published_news_ids (bot w))
               /\ (recorded = Some i \/ recorded = None)
               /\ bot w' = published (p_now (c_publish env)) content false
                                     recorded b1)
         /\ exists text, channel w' = channel w ++ [text]
       | _ =>
         same_but_processed (bot w) (bot w')
         /\ bot_state_json w' = bot_state_json w
         /\ channel w' = channel w
       end.
Proof.
  pose (Post := fun (r : outcome bool) (w' : world) =>
    quiet_logs (logs w) (logs w')
    /\ (exists cs, calls w' = calls w ++ cs /\ guarded_calls env (bot w) r cs)
    /\ match r with
       | Ret true =>
         match last_post_time (bot w) with
         | Some last => too_early (c_now env) last = false
         | None => True
         end
         /\ (exists b1 content i recorded,
               same_but_processed (bot w) b1
               /\ In i (feed_ids (c_feed env))
               /\ (i ∉ published_news_ids (bot w))
               /\ (recorded = Some i \/ recorded = None)
               /\ bot w' = published (p_now (c_publish env)) content false
                                     recorded b1)
         /\ exists text, channel w' = channel w ++ [text]
       | _ =>
         same_but_processed (bot w) (bot w')
         /\ bot_state_json w' = bot_state_json w
         /\ channel w' = channel w
       end).
  enough (H : exists r w',
            check_and_publish_new_news env w = (r, w') /\ Post r w')
    by exact H.
  unfold check_and_publish_new_news.
  cbv beta iota zeta delta
    [mbind M_bind mret M_ret bind ret get_bot logger log_line_to];
  cbn [bot bot_state_json processed_ids_txt calls logs channel].
  assert (Hearly_exit : forall b1 w2 poll,
    same_but_processed (bot w) b1 -> bot w2 = b1 ->
    bot_state_json w2 = bot_state_json w -> channel w2 = channel w ->
    quiet_logs (logs w) (logs w2) ->
    calls w2 = calls w ++ poll -> poll = [] \/ poll = [NewsSource] ->
    Post (Ret false) w2).
  { intros b1 w2 poll Hb1 Hb Hf Hch Hl Hc Hpoll. unfold Post.
    split; [exact Hl|]. split.
    - exists poll. split; [exact Hc|]. exists poll, [], [].
      rewrite !app_nil_r. split; [reflexivity|]. split; [exact Hpoll|].
      split; [left; auto|]. split; [reflexivity|]. intros []. reflexivity.
    - rewrite Hb. auto. }
  destruct (match last_post_time (bot w) with
            | Some last => too_early (c_now env) last
            | None => false
            end) eqn:Hearly.
  { eexists. eexists. split; [reflexivity|].
    apply (Hearly_exit (bot w) _ []); cbn; quiet;
      auto using same_but_processed_refl, app_nil_r. }
  assert (Hgate : match last_post_time (bot w) with
                  | Some last => too_early (c_now env) last = false
                  | None => True
                  end) by (destruct (last_post_time (bot w)); auto).
  clear Hearly.
  destruct (get_new_relevant_news_items_spec (c_feed env) w)
    as (items & w1 & -> & Hb1 & Hf1 & Hc1 & Hl1 & Hch1 & Hids).
  assert (Hpoll : exists poll,
    calls w1 = calls w ++ poll /\ (poll = [] \/ poll = [NewsSource])).
  { destruct Hc1 as [Hc1|Hc1]; [exists []|exists [NewsSource]];
      rewrite Hc1, ?app_nil_r; auto. }
  destruct Hpoll as (poll & Hc1' & Hpoll). clear Hc1.
  assert (Hq1 : quiet_logs (logs w) (logs w1)) by (rewrite Hl1; quiet).
  destruct items as [|it items].
  { eexists. exists w1. split; [reflexivity|].
    apply (Hearly_exit (bot w1) _ poll); auto. }
  destruct (List.filter _ (it :: items)) as [|latest rest] eqn:Hfresh.
  { eexists. eexists. split; [reflexivity|].
    apply (Hearly_exit (bot w1) _ poll); cbn; quiet; auto. }
  assert (Hlatest : In latest (it :: items)
                    /\ n_id latest ∉ published_news_ids (bot w)).
  { assert (Hin : In latest (List.filter
       (fun item => negb (bool_decide (n_id item ∈ published_news_ids (bot w1))))
       (it :: items))) by (rewrite Hfresh; left; reflexivity).
    apply List.filter_In in Hin as [Hin Hf].
    split; [exact Hin|].
    apply negb_true_iff, bool_decide_eq_false in Hf.
    rewrite Hb1 in Hf. exact Hf. }
  destruct Hlatest as [Hin Hfreshid]. apply Hids in Hin. clear Hfresh.
  pose proof (polled_feed_id _ _ Hin) as Hfeed.
  cbv beta iota zeta delta
    [mbind M_bind mret M_ret bind ret try_except external log_call];
  cbn [bot bot_state_json processed_ids_txt calls logs channel].
  assert (Hlate_exit : forall r w2 pub,
    r <> Ret true ->
    bot w2 = bot w1 -> bot_state_json w2 = bot_state_json w1 ->
    channel w2 = channel w1 ->
    quiet_logs (logs w) (logs w2) ->
    calls w2 = (calls w1 ++ [ContentGenerator (FromNews [n_text latest])])
               ++ pub ->
    forallb is_publisher_call pub = true ->
    (pub <> [] ->
     exists content,
       c_generated env = Ret (Some content)
       /\ _is_duplicate content (bot w) = Ret false) ->
    Post r w2).
  { intros r w2 pub Hr Hb Hf Hch Hl Hc Hpub Hdup. unfold Post.
    split; [exact Hl|]. split.
    - exists (poll ++ [ContentGenerator (FromNews [n_text latest])] ++ pub).
      split; [rewrite Hc, Hc1', <- !app_assoc; reflexivity|].
      exists poll, [ContentGenerator (FromNews [n_text latest])], pub.
      split; [reflexivity|]. split; [exact Hpoll|].
      split; [right; exists latest; auto|]. split; assumption.
    - assert (same_but_processed (bot w) (bot w2)
              /\ bot_state_json w2 = bot_state_json w
              /\ channel w2 = channel w) as Hsame
        by (rewrite Hb, Hf, Hch; auto).
      destruct r as [[]|e]; [congruence|exact Hsame|exact Hsame]. }
  assert (Hgen_exit : forall r w2,
    r <> Ret true ->
    bot w2 = bot w1 -> bot_state_json w2 = bot_state_json w1 ->
    channel w2 = channel w1 ->
    quiet_logs (logs w) (logs w2) ->
    calls w2 = calls w1 ++ [ContentGenerator (FromNews [n_text latest])] ->
    Post r w2).
  { intros r w2 Hr Hb Hf Hch Hl Hc.
    apply (Hlate_exit r w2 []); rewrite ?app_nil_r; auto. congruence. }
  destruct (c_generated env) as [[[|c content]|]|e] eqn:Hgen;
    try (eexists; eexists; (split; [reflexivity|]);
         apply Hgen_exit; cbn; quiet; discriminate).
  destruct (is_relevant_news (Some (c :: content))); cbn [negb];
    try (eexists; eexists; (split; [reflexivity|]);
         apply Hgen_exit; cbn; quiet; discriminate).
  match goal with
  | |- context [publish_post ?e ?c ?p ?i ?n ?w2] =>
    assert (Hw2 : bot w2 = bot w1 /\ bot_state_json w2 = bot_state_json w1
                  /\ channel w2 = channel w1
                  /\ calls w2
                     = calls w1 ++ [ContentGenerator (FromNews [n_text latest])]
                  /\ quiet_logs (logs w) (logs w2))
      by (cbn; parts; quiet);
    pose proof (publish_post_spec e c p i n w2) as Hspec;
    pose proof (publish_post_refused e c p i n w2) as Href;
    set (v2 := w2) in *; clearbody v2
  end.
  destruct Hw2 as (Hb2 & Hf2 & Hch2 & Hc2 & Hl2).
  assert (Hdup_w : _is_duplicate (c :: content) (bot v2)
                   = _is_duplicate (c :: content) (bot w))
    by (rewrite Hb2; apply _is_duplicate_same_but_processed, Hb1).
  destruct (_is_duplicate (c :: content) (bot v2)) as [[]|e] eqn:Hdup.
  - destruct (Href (or_introl eq_refl)) as (line & -> & Hline).
    eexists. eexists. split; [reflexivity|].
    apply Hgen_exit; cbn; auto; try discriminate.
    destruct Hline as [-> | ->]; quiet.
  - destruct Hspec
      as (ok & w' & recorded & -> & Hrec & (Hp & Hc & Hl & Hres) & Hguards).
    destruct Hc as (pub & Hc & Hpub).
    assert (Hcontent : pub <> [] ->
      exists content0,
        c_generated env = Ret (Some content0)
        /\ _is_duplicate content0 (bot w) = Ret false)
      by (intros _; exists (c :: content); split; [exact Hgen|congruence]).
    destruct ok.
    + destruct Hres as (Hb & Hf & text & Hch).
      eexists. eexists. split; [reflexivity|]. unfold Post. cbn.
      split; [quiet|]. split.
      * exists (poll ++ [ContentGenerator (FromNews [n_text latest])] ++ pub).
        split; [rewrite Hc, Hc2, Hc1', <- !app_assoc; reflexivity|].
        exists poll, [ContentGenerator (FromNews [n_text latest])], pub.
        split; [reflexivity|]. split; [exact Hpoll|].
        split; [right; exists latest; auto|]. split; assumption.
      * split; [exact Hgate|]. split.
        -- exists (bot w1), (c :: content), (n_id latest), recorded.
           rewrite Hb, Hb2. parts; (assumption || reflexivity).
        -- exists text. rewrite Hch, Hch2, Hch1. reflexivity.
    + destruct Hres as (Hb & Hf & Hch).
      eexists. eexists. split; [reflexivity|].
      apply (Hlate_exit _ _ pub); cbn; try congruence; quiet.
      intros _. exists (c :: content). split; [reflexivity|congruence].
  - rewrite Hspec. eexists. eexists. split; [reflexivity|].
    apply Hgen_exit; cbn; auto; discriminate.
Qed.

(** The cycle track of a pass moves the timer by [min_gap_us] at least,
    keeps the dates of the price tracks and only adds to the channel. *)
Lemma check_and_publish_new_news_step env w :
  exists r w',
    check_and_publish_new_news env w = (r, w')
    /\ (c_now env <= p_now (c_publish env) ->
        spaced (last_post_time (bot w)) (last_post_time (bot w')))
    /\ (forall m, last_price_post m (bot w') = last_price_post m (bot w))
    /\ exists posts, channel w' = channel w ++ posts.
Proof.
  destruct (check_and_publish_new_news_spec env w) as (r & w' & E & _ & _ & H).
  exists r, w'. split; [exact E|].
  assert (Hsame : same_but_processed (bot w) (bot w')
                  /\ bot_state_json w' = bot_state_json w
                  /\ channel w' = channel w ->
    (c_now env <= p_now (c_publish env) ->
     spaced (last_post_time (bot w)) (last_post_time (bot w')))
    /\ (forall m, last_price_post m (bot w') = last_price_post m (bot w))
    /\ exists posts, channel w' = channel w ++ posts).
  { intros (Hb & _ & Hch). split; [|split].
    - intros _. left. rewrite Hb. reflexivity.
    - intros m. rewrite Hb. destruct m; reflexivity.
    - exists []. rewrite Hch, app_nil_r. reflexivity. }
  destruct r as [[]|e]; [|exact (Hsame H)|exact (Hsame H)].
  destruct H as (Hgate & (b1 & content & i & recorded & Hb1 & _ & _ & _ & Hb)
                 & text & Hch).
  pose proof (published_fields (p_now (c_publish env)) content false recorded b1)
    as (Hlast & _ & _ & _ & Hm & He & _).
  cbv zeta in Hlast, Hm, He. rewrite <- Hb in Hlast, Hm, He.
  assert (Hm1 : last_price_post_morning b1 = last_price_post_morning (bot w))
    by (rewrite Hb1; reflexivity).
  assert (He1 : last_price_post_evening b1 = last_price_post_evening (bot w))
    by (rewrite Hb1; reflexivity).
  split; [|split].
  - intros Hclock. right. exists (p_now (c_publish env)).
    split; [exact Hlast|]. intros t Ht. rewrite Ht in Hgate.
    unfold too_early, min_gap_us in *. lia.
  - intros m. destruct m; cbn; congruence.
  - exists [text]. exact Hch.
Qed.

(** ** The price tracks *)

(** [generate_and_publish_price] returns [True] exactly when it has put
    one post on the channel, and then the date of the track is that of
    the clock after the send; otherwise memory, state file and channel
    are as before. *)
Lemma generate_and_publish_price_spec env is_morning w :
  exists r w',
    generate_and_publish_price env is_morning w = (r, w')
    /\ ((r = Ret true
         /\ (exists content,
               bot w' = set_last_price_post is_morning
                          (Some (date_of (q_msk_now env)))
                          (published (p_now (q_publish env)) content true None
                                     (bot w)))
         /\ exists text, channel w' = channel w ++ [text])
        \/ (r <> Ret true
            /\ bot w' = bot w /\ bot_state_json w' = bot_state_json w
            /\ channel w' = channel w)).
Proof.
  unfold generate_and_publish_price.
  cbv beta iota zeta delta
    [mbind M_bind mret M_ret bind ret external logger log_call log_line_to
     update_bot with_bot];
  cbn [bot bot_state_json processed_ids_txt calls logs channel].
  destruct (q_price env) as [q|];
    [|eexists; eexists; (split; [reflexivity|]); right; cbn;
      parts; (discriminate || reflexivity)].
  destruct (q_generated env) as [[[|c content]|]|e];
    try (eexists; eexists; (split; [reflexivity|]); right; cbn;
         parts; (discriminate || reflexivity)).
  match goal with
  | |- context [publish_post ?e ?c ?p ?i ?n ?w2] =>
    assert (Hw2 : bot w2 = bot w /\ bot_state_json w2 = bot_state_json w
                  /\ channel w2 = channel w) by (cbn; auto);
    pose proof (publish_post_spec e c p i n w2) as Hspec;
    set (v2 := w2) in *; clearbody v2
  end.
  destruct Hw2 as (Hb2 & Hf2 & Hch2).
  destruct (_is_duplicate (c :: content) (bot v2)) as [duplicate|e].
  2:{ rewrite Hspec. eexists. eexists. split; [reflexivity|]. right.
      parts; (discriminate || assumption). }
  destruct Hspec
    as (ok & w' & recorded & -> & Hrec & (Hp & Hc & Hl & Hres) & Hguards).
  assert (recorded = None) as -> by (destruct Hrec; assumption).
  destruct ok.
  - destruct Hres as (Hb & Hf & text & Hch).
    destruct is_morning;
      (eexists; eexists; (split; [reflexivity|]); left; (split; [reflexivity|]);
       cbn; rewrite Hb, Hb2, Hch, Hch2; split; eauto).
  - destruct Hres as (Hb & Hf & Hch).
    eexists; eexists; (split; [reflexivity|]); right; cbn;
      parts; (discriminate || congruence).
Qed.

Lemma should_post_price_same_day m msk b :
  last_price_post m b = Some (date_of msk) -> should_post_price m msk b = false.
Proof.
  destruct m; cbn; intros H;
    unfold should_post_price_morning, should_post_price_evening;
    rewrite H, bool_decide_eq_true_2 by reflexivity;
    match goal with |- (if ?c then _ else _) = _ => destruct c end; reflexivity.
Qed.

(** One price check keeps the cycle timer and the date of the other
    track; it either leaves the channel and the date of its track as they
    were or was due, put one post on the channel and set the date of its
    track to the date of the clock after the send. *)
Lemma price_check_spec m env w :
  exists r w',
    price_check m env w = (r, w')
    /\ last_post_time (bot w') = last_post_time (bot w)
    /\ last_price_post (negb m) (bot w') = last_price_post (negb m) (bot w)
    /\ ((channel w' = channel w
         /\ last_price_post m (bot w') = last_price_post m (bot w))
        \/ ((exists text, channel w' = channel w ++ [text])
            /\ should_post_price m (check_time m env) (bot w) = true
            /\ last_price_post m (bot w')
               = Some (date_of (stamp_time m env)))).
Proof.
  assert (Hgen : forall penv,
    exists r w',
      (generate_and_publish_price penv m ≫= (fun _ => mret tt)) w = (r, w')
      /\ last_post_time (bot w') = last_post_time (bot w)
      /\ last_price_post (negb m) (bot w') = last_price_post (negb m) (bot w)
      /\ ((channel w' = channel w
           /\ last_price_post m (bot w') = last_price_post m (bot w))
          \/ ((exists text, channel w' = channel w ++ [text])
              /\ last_price_post m (bot w')
                 = Some (date_of (q_msk_now penv))))).
  { intros penv.
    cbv beta iota zeta delta [mbind M_bind mret M_ret bind ret].
    destruct (generate_and_publish_price_spec penv m w)
      as (r & w' & -> & [(-> & (content & Hb) & Hch)|(Hr & Hb & _ & Hch)]).
    - pose proof (published_fields (p_now (q_publish penv)) content true None
                                   (bot w))
        as (Hlast & _ & _ & _ & Hm & He & _).
      cbv zeta in Hlast, Hm, He.
      eexists. eexists. split; [reflexivity|]. rewrite Hb.
      split; [destruct m; exact Hlast|].
      split; [destruct m; cbn; assumption|].
      right. split; [exact Hch|]. destruct m; reflexivity.
    - destruct r as [a|e]; eexists; eexists; (split; [reflexivity|]);
        rewrite Hb; auto. }
  unfold price_check.
  cbv beta iota zeta delta [mbind M_bind bind get_bot].
  destruct m; cbn [check_time stamp_time should_post_price].
  - destruct (should_post_price_morning (t_msk_morning env) (bot w)) eqn:Hdue.
    2:{ exists (Ret tt), w. parts; auto. }
    destruct (Hgen (t_morning env)) as (r & w' & E & H1 & H2 & [H3|[H3 H4]]);
      exists r, w'; parts; auto.
  - destruct (should_post_price_evening (t_msk_evening env) (bot w)) eqn:Hdue.
    2:{ exists (Ret tt), w. parts; auto. }
    destruct (Hgen (t_evening env)) as (r & w' & E & H1 & H2 & [H3|[H3 H4]]);
      exists r, w'; parts; auto.
Qed.

(** ** The statements of the loop *)

Lemma statement_track s m : s = CheckPrice m \/ s <> CheckPrice m.
Proof.
  destruct s as [|m']; [right; discriminate|].
  destruct m, m'; auto; right; discriminate.
Qed.

(** What any statement of the loop does to the channel, the timer and
    the dates of the price tracks. *)
Lemma run_statement_spec s env w :
  exists posts,
    channel (snd (run_statement s env w)) = channel w ++ posts
    /\ (s <> CheckNews ->
        last_post_time (bot (snd (run_statement s env w)))
        = last_post_time (bot w))
    /\ forall m,
        (s <> CheckPrice m ->
         last_price_post m (bot (snd (run_statement s env w)))
         = last_price_post m (bot w))
        /\ (s = CheckPrice m ->
            (posts = []
             /\ last_price_post m (bot (snd (run_statement s env w)))
                = last_price_post m (bot w))
            \/ ((exists text, posts = [text])
                /\ should_post_price m (check_time m env) (bot w) = true
                /\ last_price_post m (bot (snd (run_statement s env w)))
                   = Some (date_of (stamp_time m env)))).
Proof.
  destruct s as [|m0]; cbn [run_statement].
  - cbv beta iota zeta delta [mbind M_bind mret M_ret bind ret].
    destruct (check_and_publish_new_news_step (t_cycle env) w)
      as (r & w' & -> & _ & Hdates & posts & Hch).
    exists posts.
    assert (Hsnd : snd (match r with
                        | Ret _ => (Ret tt, w')
                        | Raise e => (@Raise unit e, w')
                        end) = w') by (destruct r; reflexivity).
    rewrite Hsnd. split; [exact Hch|]. split; [congruence|].
    intros m. split; [intros _; apply Hdates|discriminate].
  - destruct (price_check_spec m0 env w) as (r & w' & -> & Hlast & Hother & H).
    cbn [snd].
    assert (Hposts : exists posts,
      channel w' = channel w ++ posts
      /\ ((posts = []
           /\ last_price_post m0 (bot w') = last_price_post m0 (bot w))
          \/ ((exists text, posts = [text])
              /\ should_post_price m0 (check_time m0 env) (bot w) = true
              /\ last_price_post m0 (bot w')
                 = Some (date_of (stamp_time m0 env))))).
    { destruct H as [[Hch Hd]|((text & Hch) & Hdue & Hd)].
      - exists []. rewrite app_nil_r. auto.
      - exists [text]. split; [exact Hch|]. right. eauto. }
    destruct Hposts as (posts & Hch & Hposts).
    exists posts. split; [exact Hch|]. split; [intros _; exact Hlast|].
    intros m. split.
    + intros Hm. assert (m = negb m0) as ->
        by (destruct m, m0; try reflexivity; exfalso; apply Hm; reflexivity).
      exact Hother.
    + intros [= <-]. exact Hposts.
Qed.

Lemma posts_of_spec x posts :
  channel (after x) = channel (r_world x) ++ posts -> posts_of x = posts.
Proof. unfold posts_of. intros ->. apply drop_app_length. Qed.

Lemma after_channel x : channel (after x) = channel (r_world x) ++ posts_of x.
Proof.
  destruct (run_statement_spec (r_statement x) (r_env x) (r_world x))
    as (posts & Hch & _).
  fold (after x) in Hch. rewrite (posts_of_spec x posts Hch). exact Hch.
Qed.

(** ** Blocks and passes *)

Lemma tick_block env w :
  tick env w
  = try_except (run_block pass_block env) (fun _ => logger LoopError) w.
Proof.
  unfold tick, price_checks, pass_block, run_block, run_statement.
  cbv beta iota zeta delta [try_except mbind M_bind mret M_ret bind ret].
  destruct (check_and_publish_new_news (t_cycle env) w) as [[ok|e] w1];
    [|reflexivity].
  destruct (price_check true env w1) as [[[]|e] w2]; [|reflexivity].
  destruct (price_check false env w2) as [[[]|e] w3]; reflexivity.
Qed.

Lemma run_loop_start_block env w :
  run_loop_start env w = run_block start_block env w.
Proof.
  unfold run_loop_start, price_checks, start_block, run_block, run_statement.
  cbv beta iota zeta delta [mbind M_bind mret M_ret bind ret].
  destruct (price_check true env w) as [[[]|e] w1]; [|reflexivity].
  destruct (price_check false env w1) as [[[]|e] w2]; [|reflexivity].
  destruct (check_and_publish_new_news (t_cycle env) w2) as [[ok|e] w3];
    reflexivity.
Qed.

Lemma chained_same w w' tr :
  bot w' = bot w -> channel w' = channel w -> chained w tr -> chained w' tr.
Proof. destruct tr as [|x tr]; cbn; [auto|]. intros -> ->. auto. Qed.

Lemma end_of_same w w' tr :
  bot w' = bot w -> channel w' = channel w ->
  bot (end_of w' tr) = bot (end_of w tr)
  /\ channel (end_of w' tr) = channel (end_of w tr).
Proof. destruct tr as [|x tr]; cbn; auto. Qed.

Lemma chained_app tr1 : forall w tr2,
  chained w (tr1 ++ tr2) <-> chained w tr1 /\ chained (end_of w tr1) tr2.
Proof.
  induction tr1 as [|x tr1 IH]; intros w tr2; cbn; [tauto|].
  rewrite IH. tauto.
Qed.

Lemma end_of_app tr1 : forall w tr2,
  end_of w (tr1 ++ tr2) = end_of (end_of w tr1) tr2.
Proof. induction tr1 as [|x tr1 IH]; intros w tr2; cbn; auto. Qed.

(** The statements reached in a block are chained, the block ends in the
    world that the last of them leaves, and their readings are among
    those of the block. *)
Lemma reached_block env block : forall w,
  chained w (reached block env w)
  /\ snd (run_block block env w) = end_of w (reached block env w)
  /\ flat_map dates_of (reached block env w)
     `sublist_of` flat_map (fun s => statement_dates s env) block.
Proof.
  induction block as [|s block IH]; intros w.
  - cbn. auto.
  - cbn [reached run_block chained end_of flat_map].
    cbv beta iota zeta delta [mbind M_bind bind].
    unfold after at 1 2. unfold dates_of at 1.
    cbn [r_statement r_env r_world].
    destruct (run_statement s env w) as [[[]|e] w'] eqn:E; cbn [snd fst].
    + destruct (IH w') as (H1 & H2 & H3).
      split; [auto|]. split; [exact H2|].
      apply sublist_app; [reflexivity|exact H3].
    + cbn. split; [auto|]. split; [reflexivity|].
      rewrite app_nil_r. apply sublist_inserts_r. reflexivity.
Qed.

Lemma pass_dates env :
  flat_map (fun s => statement_dates s env) pass_block
  = date_of <$> clock_readings env.
Proof. reflexivity. Qed.

Lemma start_dates env :
  flat_map (fun s => statement_dates s env) start_block
  = date_of <$> clock_readings env.
Proof. reflexivity. Qed.

Lemma tick_end env w :
  bot (snd (tick env w)) = bot (end_of w (reached pass_block env w))
  /\ channel (snd (tick env w)) = channel (end_of w (reached pass_block env w)).
Proof.
  rewrite tick_block. unfold try_except.
  destruct (reached_block env pass_block w) as (_ & <- & _).
  destruct (run_block pass_block env w) as [[[]|e] w']; cbn; auto.
Qed.

Lemma reached_in_passes_spec envs : forall w,
  chained w (reached_in_passes envs w)
  /\ bot (run_ticks envs w) = bot (end_of w (reached_in_passes envs w))
  /\ channel (run_ticks envs w)
     = channel (end_of w (reached_in_passes envs w))
  /\ flat_map dates_of (reached_in_passes envs w)
     `sublist_of` (date_of <$> flat_map clock_readings envs).
Proof.
  induction envs as [|env envs IH]; intros w.
  - cbn. auto.
  - cbn [reached_in_passes run_ticks flat_map].
    destruct (IH (snd (tick env w))) as (H1 & H2 & H3 & H4).
    destruct (reached_block env pass_block w) as (B1 & B2 & B3).
    destruct (tick_end env w) as (T1 & T2).
    destruct (end_of_same (snd (tick env w))
                (end_of w (reached pass_block env w))
                (reached_in_passes envs (snd (tick env w)))) as (E1 & E2);
      auto.
    rewrite chained_app, end_of_app, flat_map_app, fmap_app.
    split; [split; [exact B1|]|].
    { eapply chained_same; [| |exact H1]; auto. }
    split; [congruence|]. split; [congruence|].
    apply sublist_app; [|exact H4]. rewrite <- pass_dates. exact B3.
Qed.

Lemma reached_in_run_spec start_env envs w :
  chained w (reached_in_run start_env envs w)
  /\ bot (run_loop start_env envs w)
     = bot (end_of w (reached_in_run start_env envs w))
  /\ channel (run_loop start_env envs w)
     = channel (end_of w (reached_in_run start_env envs w))
  /\ flat_map dates_of (reached_in_run start_env envs w)
     `sublist_of` (date_of <$> flat_map clock_readings (start_env :: envs)).
Proof.
  unfold reached_in_run, run_loop.
  destruct (reached_block start_env start_block w) as (B1 & B2 & B3).
  rewrite run_loop_start_block.
  rewrite chained_app, end_of_app, flat_map_app. cbn [flat_map].
  rewrite fmap_app, <- start_dates.
  destruct (run_block start_block start_env w) as [[[]|e] w'];
    cbn [snd] in B2; subst w'.
  - destruct (reached_in_passes_spec envs
                (end_of w (reached start_block start_env w)))
      as (H1 & H2 & H3 & H4).
    split; [auto|]. split; [exact H2|]. split; [exact H3|].
    apply sublist_app; assumption.
  - cbn [chained end_of flat_map].
    split; [auto|]. split; [reflexivity|]. split; [reflexivity|].
    rewrite app_nil_r. apply sublist_inserts_r. exact B3.
Qed.

(** The channel after the statements of [tr] holds the posts of each of
    them, in order. *)
Lemma channel_of_trace tr : forall w,
  chained w tr -> channel (end_of w tr) = channel w ++ flat_map posts_of tr.
Proof.
  induction tr as [|x tr IH]; intros w; cbn.
  - intros _. symmetry. apply app_nil_r.
  - intros (_ & Hch & Hrest). rewrite (IH _ Hrest), after_channel, Hch.
    symmetry. apply app_assoc.
Qed.

(** ** Dates that never go back *)

Lemma never_back_sorted l : never_back l = true -> StronglySorted Z.le l.
Proof.
  induction l as [|a l IH]; intros H; [constructor|].
  destruct l as [|b l]; [repeat constructor|].
  cbn [never_back] in H. apply andb_true_iff in H as [Hab Hl].
  specialize (IH Hl). constructor; [exact IH|].
  apply StronglySorted_inv in IH as [_ Hb].
  constructor; [lia|].
  eapply Forall_impl; [exact Hb|]. cbn. intros; lia.
Qed.

Lemma sorted_sublist (l1 l2 : list Z) :
  l1 `sublist_of` l2 -> StronglySorted Z.le l2 -> StronglySorted Z.le l1.
Proof.
  induction 1 as [|a l1 l2 Hsub IH|a l1 l2 Hsub IH]; intros Hs.
  - constructor.
  - apply StronglySorted_inv in Hs as [Hs Ha].
    constructor; [auto|]. rewrite Forall_forall in Ha |- *.
    intros b Hb. apply Ha. eapply elem_of_sublist; eassumption.
  - apply StronglySorted_inv in Hs as [Hs _]. auto.
Qed.

Lemma sorted_app_inv (l1 l2 : list Z) :
  StronglySorted Z.le (l1 ++ l2) ->
  StronglySorted Z.le l1 /\ StronglySorted Z.le l2
  /\ forall a b, In a l1 -> In b l2 -> a <= b.
Proof.
  induction l1 as [|x l1 IH]; cbn; intros Hs.
  - split; [constructor|]. split; [exact Hs|]. intros a b [].
  - apply StronglySorted_inv in Hs as [Hs Hx].
    destruct (IH Hs) as (H1 & H2 & H3).
    apply Forall_app in Hx as [Hx1 Hx2].
    split; [constructor; assumption|]. split; [exact H2|].
    intros a b [<-|Ha] Hb; [|auto].
    rewrite Forall_forall in Hx2. apply Hx2, list_elem_of_In, Hb.
Qed.

(** A track whose date is [d], not later than any reading to come, puts
    a post on the channel only at a check of a later date. *)
Lemma deliveries_after m tr : forall w d,
  chained w tr -> StronglySorted Z.le (flat_map dates_of tr) ->
  last_price_post m (bot w) = Some d ->
  (forall t, In t (flat_map dates_of tr) -> d <= t) ->
  forall y, In y tr -> delivered m y -> d < date_of (check_time m (r_env y)).
Proof.
  induction tr as [|x tr IH]; intros w d Hchain Hsorted Hlast Hle y Hy Hdel;
    [destruct Hy|].
  destruct Hchain as (Hb & Hch & Hchain). cbn [flat_map] in Hsorted, Hle.
  destruct (sorted_app_inv _ _ Hsorted) as (Hsx & Hstr & Hcross).
  destruct (run_statement_spec (r_statement x) (r_env x) (r_world x))
    as (posts & Hposts & _ & Htrack).
  fold (after x) in Hposts, Htrack.
  apply posts_of_spec in Hposts. specialize (Htrack m) as [Hother Hmine].
  rewrite Hb, Hlast in Hother, Hmine.
  destruct (statement_track (r_statement x) m) as [Hs|Hs].
  - assert (Hdx : dates_of x = [date_of (check_time m (r_env x));
                                date_of (stamp_time m (r_env x))])
      by (unfold dates_of; rewrite Hs; reflexivity).
    rewrite Hdx in Hle, Hcross.
    destruct (Hmine Hs) as [[Hnone Hkeep]|((text & Hone) & Hdue & Hset)].
    + destruct Hy as [<-|Hy].
      * destruct Hdel as [_ Hdel]. congruence.
      * apply (IH (after x) d); auto.
        intros t Ht. apply Hle, in_or_app. right. exact Ht.
    + assert (Hlt : d < date_of (check_time m (r_env x))).
      { assert (d <= date_of (check_time m (r_env x)))
          by (apply Hle; left; reflexivity).
        assert (d <> date_of (check_time m (r_env x))).
        { intros ->.
          rewrite (should_post_price_same_day m (check_time m (r_env x))
                                              (bot w)) in Hdue;
            [discriminate|exact Hlast]. }
        lia. }
      destruct Hy as [<-|Hy]; [exact Hlt|].
      assert (Hstamp : d <= date_of (stamp_time m (r_env x)))
        by (apply Hle; right; left; reflexivity).
      assert (date_of (stamp_time m (r_env x))
              < date_of (check_time m (r_env y))); [|lia].
      apply (IH (after x) _ Hchain Hstr Hset); auto.
      intros t Ht. apply Hcross; [right; left; reflexivity|exact Ht].
  - destruct Hy as [<-|Hy].
    + destruct Hdel as [Hdel _]. congruence.
    + apply (IH (after x) d); auto.
      intros t Ht. apply Hle, in_or_app. right. exact Ht.
Qed.

Lemma delivered_dates m x :
  delivered m x ->
  dates_of x = [date_of (check_time m (r_env x));
                date_of (stamp_time m (r_env x))].
Proof. intros [Hs _]. unfold dates_of. rewrite Hs. reflexivity. Qed.

Lemma delivered_sets_date m x :
  delivered m x ->
  last_price_post m (bot (after x)) = Some (date_of (stamp_time m (r_env x))).
Proof.
  intros [Hs Hposts].
  destruct (run_statement_spec (r_statement x) (r_env x) (r_world x))
    as (posts & Hch & _ & Htrack).
  fold (after x) in Hch, Htrack. apply posts_of_spec in Hch.
  destruct (proj2 (Htrack m) Hs) as [[Hnone _]|(_ & _ & Hset)];
    [congruence|exact Hset].
Qed.

Lemma sorted_pair a b :
  StronglySorted Z.le [a; b] -> a <= b.
Proof.
  intros H. apply StronglySorted_inv in H as [_ H].
  apply Forall_cons in H as [H _]. exact H.
Qed.

(** Two posts of one price track: the first one is stamped with a date
    earlier than the date at which the second one was found due. *)
Lemma deliveries_increase m w before x between y later :
  chained w (before ++ x :: between ++ y :: later) ->
  StronglySorted Z.le
    (flat_map dates_of (before ++ x :: between ++ y :: later)) ->
  delivered m x -> delivered m y ->
  date_of (check_time m (r_env x)) <= date_of (stamp_time m (r_env x))
  /\ date_of (stamp_time m (r_env x)) < date_of (check_time m (r_env y))
  /\ date_of (check_time m (r_env y)) <= date_of (stamp_time m (r_env y)).
Proof.
  intros Hchain Hsorted Hx Hy.
  apply chained_app in Hchain as [_ Hchain].
  destruct Hchain as (_ & _ & Hchain).
  rewrite flat_map_app in Hsorted. cbn [flat_map] in Hsorted.
  apply sorted_app_inv in Hsorted as (_ & Hsorted & _).
  apply sorted_app_inv in Hsorted as (Hsx & Hrest & Hcross).
  rewrite (delivered_dates m x Hx) in Hsx, Hcross.
  split; [apply sorted_pair, Hsx|]. split.
  - apply (deliveries_after m (between ++ y :: later) (after x));
      auto using delivered_sets_date.
    + intros t Ht. apply Hcross; [right; left; reflexivity|exact Ht].
    + apply in_or_app. right. left. reflexivity.
  - rewrite flat_map_app in Hrest. cbn [flat_map] in Hrest.
    apply sorted_app_inv in Hrest as (_ & Hrest & _).
    apply sorted_app_inv in Hrest as (Hsy & _).
    rewrite (delivered_dates m y Hy) in Hsy. apply sorted_pair, Hsy.
Qed.

(** ** The passes of the loop *)

Lemma tick_step env w :
  clock_ok env ->
  spaced (last_post_time (bot w)) (last_post_time (bot (snd (tick env w)))).
Proof.
  intros Hclock. unfold tick, price_checks.
  cbv beta iota zeta delta [mbind M_bind bind try_except logger log_line_to].
  destruct (check_and_publish_new_news_step (t_cycle env) w)
    as (r & w1 & -> & Hsp & _).
  specialize (Hsp Hclock).
  destruct r as [ok|e]; [|exact Hsp].
  destruct (price_check_spec true env w1) as (r2 & w2 & -> & Hl2 & _).
  destruct r2 as [[]|e]; cbn [snd bot]; [|rewrite Hl2; exact Hsp].
  destruct (price_check_spec false env w2) as (r3 & w3 & -> & Hl3 & _).
  destruct r3 as [[]|e]; cbn [snd bot]; rewrite Hl3, Hl2; exact Hsp.
Qed.

Lemma run_ticks_spaced envs : forall w,
  Forall clock_ok envs -> always_spaced envs w.
Proof.
  induction envs as [|env envs IH]; intros w Hall; [exact I|].
  apply Forall_cons in Hall as [Hc Hall].
  cbn [always_spaced]. split; [|apply IH, Hall].
  apply tick_step, Hc.
Qed.

End SchedulerProofs.

(* ===================================================================== *)
(** * Claims on the publish paths                                         *)
(* ===================================================================== *)

Module PublishClaims.
Import PublishProofs SchedulerProofs.

(** C9. Every successful [publish_post] adds one to [posts_today], price
    post or not, and sets [last_post_time] only when the post is not a
    price post. So a price post counts against the quota that
    [should_publish_now] tests: if it was the last one allowed today,
    [should_publish_now] answered [True] before it at any time of the day
    at which the interval has elapsed, and answers [False] after it, the
    timer being unchanged. *)
Theorem publish_post_counts_every_post
    env content price is_price_post news_id w w' :
  publish_post env content price is_price_post news_id w = (Ret true, w') ->
  posts_today (bot w') = posts_today (bot w) + 1
  /\ last_post_time (bot w') =
     (if is_price_post then last_post_time (bot w) else Some (p_now env))
  /\ (is_price_post = true ->
      forall now,
        now < reset_time (bot w) + day_us ->
        posts_today (bot w) + 1 = posts_target (bot w) ->
        match last_post_time (bot w) with
        | Some last => config.MIN_HOURS_BETWEEN_POSTS_us <= now - last
        | None => True
        end ->
        should_publish_now now w = (Ret true, w)
        /\ should_publish_now now w' = (Ret false, w')).
Proof.
  intros Hrun.
  destruct (publish_post_returned _ _ _ _ _ _ _ _ Hrun)
    as (duplicate & recorded & _ & _ & (_ & _ & _ & Hres) & _).
  destruct Hres as [Hb _].
  pose proof (published_fields (p_now env) content is_price_post recorded (bot w))
    as (Hl & Ht & Hg & Hr & _).
  cbv zeta in Hl, Ht, Hg, Hr. rewrite <- Hb in Hl, Ht, Hg, Hr.
  split; [exact Ht|]. split; [exact Hl|].
  intros -> now Hday Hquota Hgap.
  assert (Hrun_now : forall v : world,
    reset_time (bot v) = reset_time (bot w) ->
    should_publish_now now v =
    (Ret (negb (posts_target (bot v) <=? posts_today (bot v))
          && match last_post_time (bot v) with
             | Some last => negb (now - last <? config.MIN_HOURS_BETWEEN_POSTS_us)
             | None => true
             end), v)).
  { intros v Hv. unfold should_publish_now.
    cbv beta iota zeta delta [mbind M_bind mret M_ret bind ret get_bot].
    rewrite Hv.
    assert ((reset_time (bot w) + day_us <=? now) = false) as -> by lia.
    cbv beta iota zeta delta [mbind M_bind mret M_ret bind ret get_bot].
    destruct (posts_target (bot v) <=? posts_today (bot v)); [reflexivity|].
    destruct (last_post_time (bot v)) as [last|]; [|reflexivity].
    destruct (now - last <? config.MIN_HOURS_BETWEEN_POSTS_us); reflexivity. }
  rewrite (Hrun_now w eq_refl), (Hrun_now w' Hr), Hg, Ht, Hl.
  assert ((posts_target (bot w) <=? posts_today (bot w)) = false) as -> by lia.
  assert ((posts_target (bot w) <=? posts_today (bot w) + 1) = true) as -> by lia.
  split; [|reflexivity].
  destruct (last_post_time (bot w)) as [last|]; [|reflexivity].
  assert ((now - last <? config.MIN_HOURS_BETWEEN_POSTS_us) = false) as -> by lia.
  reflexivity.
Qed.

Lemma publish_post_counts_every_post_witness :
  let w := Scenario.world_of (Scenario.memory None 998 999) in
  let w' := snd (publish_post (Scenario.all_fine 5) (u "тон по 5.10")
                              (Some ton_quote) true None w) in
  publish_post (Scenario.all_fine 5) (u "тон по 5.10") (Some ton_quote) true
               None w = (Ret true, w')
  /\ posts_today (bot w') = 998 + 1
  /\ last_post_time (bot w') = None
  /\ should_publish_now 7 w = (Ret true, w)
  /\ should_publish_now 7 w' = (Ret false, w').
Proof.
  intros w w'.
  assert (H : publish_post (Scenario.all_fine 5) (u "тон по 5.10")
                (Some ton_quote) true None w = (Ret true, w'))
    by (vm_compute; reflexivity).
  destruct (publish_post_counts_every_post _ _ _ _ _ _ _ H) as (H1 & H2 & H3).
  split; [exact H|]. split; [exact H1|]. split; [exact H2|].
  apply (H3 eq_refl 7); [reflexivity|reflexivity|exact I].
Defined.

(** C1, as the code runs it. A post made from news item 7 is sent through
    the text-only fallback after an exception that is not a
    [TelegramError]: [publish_post] returns [True] but 7 is not put into
    [published_news_ids], and a later [publish_post] for item 7 with
    another text is sent as well. After a [TelegramError] the same
    fallback does record 7 and the later call is refused. *)
Theorem news_id_lost_after_other_exception :
  let w0 := start 0 Missing [] in
  let w1 := snd (publish_post (Scenario.image_crash 10) (u "btc up") None
                              false (Some 7) w0) in
  let w2 := snd (publish_post (Scenario.all_fine 20) (u "btc down") None
                              false (Some 7) w1) in
  let v1 := snd (publish_post (Scenario.photo_refused 10) (u "btc up") None
                              false (Some 7) w0) in
  publish_post (Scenario.image_crash 10) (u "btc up") None false (Some 7) w0
  = (Ret true, w1)
  /\ elements (published_news_ids (bot w1)) = []
  /\ publish_post (Scenario.all_fine 20) (u "btc down") None false (Some 7) w1
     = (Ret true, w2)
  /\ List.length (List.filter (fun c => match c with
                                        | SendMessage _ | SendPhoto _ _ => true
                                        | _ => false
                                        end) (calls w2)) = 2%nat
  /\ publish_post (Scenario.photo_refused 10) (u "btc up") None false (Some 7) w0
     = (Ret true, v1)
  /\ elements (published_news_ids (bot v1)) = [7]
  /\ fst (publish_post (Scenario.all_fine 20) (u "btc down") None false
                       (Some 7) v1) = Ret false.
Proof. vm_compute. repeat split; reflexivity. Qed.

(** C4, where it fails: "btc up" is published; a poll finds the unseen
    item 5 and DeepSeek answers a text with the same hash. The attempt is
    refused as a duplicate only after the news source and the content
    generator were called and after item 5 was marked as seen. *)
Lemma duplicate_found_after_generation :
  let w0 := snd (publish_post (Scenario.all_fine 0) (u "btc up") None false
                              None (start 0 Missing [])) in
  let env := Scenario.cycle (1800 * second_us)
                            (Scenario.one_item 5 (u "BTC is up")) (u "BTC  up") in
  let w1 := snd (check_and_publish_new_news env w0) in
  fst (check_and_publish_new_news env w0) = Ret false
  /\ logs w1 = logs w0 ++ [NewsChosen 5; DuplicatePostSkipped; PublishFailed]
  /\ calls w1 = calls w0 ++ [NewsSource;
                             ContentGenerator (FromNews [u "BTC is up"])]
  /\ elements (processed_message_ids (bot w0)) = []
  /\ elements (processed_message_ids (bot w1)) = [5]
  /\ processed_ids_txt w1 = [5].
Proof. vm_compute. repeat split; reflexivity. Qed.

(** C4, amended. [publish_post] tests the content hash and then the
    source id before the image generator, the opinion generator and the
    channel are called: a call with a published hash, or with a hash not
    published and a consumed (non-zero) source id, returns [False] and
    only adds a warning to the log; a call with a text that cannot be
    hashed raises at once and changes nothing. Whatever the poll yields,
    [check_and_publish_new_news] polls the news source at most once, calls
    the content generator at most once and only on an item whose id is
    not consumed, and calls the publish paths only after the content
    generator, when the generated text is not a duplicate; unless it
    answers [True], only the ids seen by the parser have changed. *)
Theorem guards_precede_external_calls :
  (forall env content price is_price_post news_id w,
     match _is_duplicate content (bot w) with
     | Ret true =>
       publish_post env content price is_price_post news_id w
       = (Ret false, log_line_to DuplicatePostSkipped w)
     | Ret false =>
       consumed news_id (bot w) = true ->
       publish_post env content price is_price_post news_id w
       = (Ret false, log_line_to (UsedNewsSkipped (default 0 news_id)) w)
     | Raise e =>
       publish_post env content price is_price_post news_id w = (Raise e, w)
     end)
  /\ (forall env w,
       exists r w' cs,
         check_and_publish_new_news env w = (r, w')
         /\ calls w' = calls w ++ cs
         /\ guarded_calls env (bot w) r cs
         /\ (r <> Ret true ->
             same_but_processed (bot w) (bot w')
             /\ bot_state_json w' = bot_state_json w
             /\ channel w' = channel w)).
Proof.
  split.
  - intros env content price is_price_post news_id w.
    unfold publish_post, consumed.
    cbv beta iota zeta delta [mbind M_bind mret M_ret bind ret get_bot logger lift].
    destruct (_is_duplicate content (bot w)) as [[]|e]; try reflexivity.
    intros ->. reflexivity.
  - intros env w.
    destruct (check_and_publish_new_news_spec env w)
      as (r & w' & E & _ & (cs & Hc & Hcs) & H).
    exists r, w', cs. split; [exact E|]. split; [exact Hc|].
    split; [exact Hcs|]. intros Hr.
    destruct r as [[]|e]; [congruence|exact H|exact H].
Qed.

Lemma guards_precede_external_calls_witness :
  let w0 := snd (publish_post (Scenario.all_fine 0) (u "btc up") None false
                              (Some 5) (start 0 Missing [])) in
  let env := Scenario.cycle (1800 * second_us)
                            (Scenario.two_messages 5 (u "BTC up") 6 (u "ETH up"))
                            (u "eth up") in
  consumed (Some 5) (bot w0) = true
  /\ publish_post (Scenario.all_fine 9) (u "eth up") None false (Some 5) w0
     = (Ret false, log_line_to (UsedNewsSkipped 5) w0)
  /\ publish_post (Scenario.all_fine 9) (u " BTC up") None false (Some 6) w0
     = (Ret false, log_line_to DuplicatePostSkipped w0)
  /\ publish_post (Scenario.all_fine 9) [0xD83D%N] None false (Some 5) w0
     = (Raise OtherException, w0)
  /\ (exists r w' cs,
        check_and_publish_new_news env w0 = (r, w')
        /\ calls w' = calls w0 ++ cs
        /\ guarded_calls env (bot w0) r cs
        /\ (r <> Ret true ->
            same_but_processed (bot w0) (bot w')
            /\ bot_state_json w' = bot_state_json w0
            /\ channel w' = channel w0))
  /\ fst (check_and_publish_new_news env w0) = Ret true
  /\ calls (snd (check_and_publish_new_news env w0))
     = calls w0 ++ [NewsSource; ContentGenerator (FromNews [u "ETH up"]);
                    ImageGenerator; OpinionGenerator (u "eth up");
                    SendPhoto (u "https://img.example/1.png") (u "eth up +")].
Proof.
  intros w0 env.
  assert (Hconsumed : consumed (Some 5) (bot w0) = true)
    by (vm_compute; reflexivity).
  pose proof (proj1 guards_precede_external_calls (Scenario.all_fine 9)
                (u "eth up") None false (Some 5) w0) as H1.
  pose proof (proj1 guards_precede_external_calls (Scenario.all_fine 9)
                (u " BTC up") None false (Some 6) w0) as H2.
  pose proof (proj1 guards_precede_external_calls (Scenario.all_fine 9)
                [0xD83D%N] None false (Some 5) w0) as H3.
  assert (E1 : _is_duplicate (u "eth up") (bot w0) = Ret false)
    by (vm_compute; reflexivity).
  assert (E2 : _is_duplicate (u " BTC up") (bot w0) = Ret true)
    by (vm_compute; reflexivity).
  assert (E3 : _is_duplicate [0xD83D%N] (bot w0) = Raise OtherException)
    by (vm_compute; reflexivity).
  rewrite E1 in H1. rewrite E2 in H2. rewrite E3 in H3.
  split; [exact Hconsumed|]. split; [exact (H1 Hconsumed)|].
  split; [exact H2|]. split; [exact H3|].
  split; [exact (proj2 guards_precede_external_calls env w0)|].
  split; vm_compute; reflexivity.
Defined.

(** C10, where it fails: a manual post is sent at time 0; a poll 1795
    seconds later, before the 1800 seconds of the minimum interval are
    over, publishes. *)
Lemma manual_publish_delays_less_than_interval :
  let w1 := snd (publish_post_manual (Scenario.manual 0) (u "ton news") None
                                     (start 0 Missing [])) in
  let env := Scenario.cycle (1795 * second_us)
                            (Scenario.one_item 5 (u "BTC up")) (u "btc up") in
  fst (publish_post_manual (Scenario.manual 0) (u "ton news") None
                           (start 0 Missing [])) = Ret true
  /\ last_post_time (bot w1) = Some 0
  /\ c_now env - 0 < config.MIN_HOURS_BETWEEN_POSTS_us
  /\ fst (check_and_publish_new_news env w1) = Ret true.
Proof. vm_compute. repeat split; reflexivity. Qed.

(** C10, amended. [publish_post_manual] returns [True] exactly when the
    content hash is not published and the send goes through: it tests
    no source id, no interval and no quota. On success it sets
    [last_post_time] to the current time, adds one to [posts_today] and
    consumes no source id; [check_and_publish_new_news] then answers
    [False] without any call until the minimum interval less the 0.1
    minute of tolerance has elapsed. *)
Theorem manual_publish_guard_and_delay env content image_url w ok w' :
  publish_post_manual env content image_url w = (Ret ok, w') ->
  (exists duplicate,
     _is_duplicate content (bot w) = Ret duplicate
     /\ ok = negb duplicate
             && match a_send env with Ret _ => true | Raise _ => false end)
  /\ (ok = true ->
      last_post_time (bot w') = Some (a_now env)
      /\ posts_today (bot w') = posts_today (bot w) + 1
      /\ published_news_ids (bot w') = published_news_ids (bot w)
      /\ forall cenv,
          c_now cenv - a_now env < min_gap_us ->
          check_and_publish_new_news cenv w' = (Ret false, log_line_to TooEarly w')).
Proof.
  intros Hrun.
  destruct (publish_post_manual_returned _ _ _ _ _ _ Hrun)
    as (duplicate & Hdup & (_ & _ & _ & Hres) & Hok).
  split; [exists duplicate; auto|]. intros ->. destruct Hres as [Hb _].
  pose proof (published_fields (a_now env) content false None (bot w))
    as (Hl & Ht & _ & _ & _ & _ & _ & _ & Hi).
  cbv zeta in Hl, Ht, Hi. rewrite <- Hb in Hl, Ht, Hi. cbn in Hi.
  split; [exact Hl|]. split; [exact Ht|]. split; [exact Hi|].
  intros cenv Hnow. unfold check_and_publish_new_news.
  cbv beta iota zeta delta [mbind M_bind mret M_ret bind ret get_bot logger].
  rewrite Hl. unfold too_early, min_gap_us in *.
  assert ((c_now cenv - a_now env
           <? config.MIN_HOURS_BETWEEN_POSTS_us - tolerance_us) = true) as ->
    by lia.
  reflexivity.
Qed.

Lemma manual_publish_guard_and_delay_witness :
  let w := start 0 Missing [] in
  let w' := snd (publish_post_manual (Scenario.manual 0) (u "ton news") None w) in
  let env := Scenario.cycle (1793 * second_us)
                            (Scenario.one_item 5 (u "BTC up")) (u "btc up") in
  publish_post_manual (Scenario.manual 0) (u "ton news") None w = (Ret true, w')
  /\ last_post_time (bot w') = Some 0
  /\ posts_today (bot w') = 0 + 1
  /\ check_and_publish_new_news env w' = (Ret false, log_line_to TooEarly w').
Proof.
  intros w w' env.
  assert (H : publish_post_manual (Scenario.manual 0) (u "ton news") None w
              = (Ret true, w')) by (vm_compute; reflexivity).
  destruct (manual_publish_guard_and_delay _ _ _ _ _ _ H) as (_ & Hok).
  destruct (Hok eq_refl) as (Hl & Ht & _ & Hcheck).
  split; [exact H|]. split; [exact Hl|]. split; [exact Ht|].
  apply Hcheck. vm_compute. reflexivity.
Defined.

(** C3, where it fails: the morning price post of day 3 is sent and the
    state saved; a process restarted the same day on that file has
    forgotten the date of the morning price post and the counter. *)
Lemma restart_forgets_prices_and_counter :
  let msk := Scenario.morning_of 3 in
  let w1 := snd (generate_and_publish_price
                   (Scenario.price msk msk (u "тон по 5.10")) true
                   (start msk Missing [])) in
  let restarted := init (msk + minute_us) (bot_state_json w1)
                        (processed_ids_txt w1) in
  fst (generate_and_publish_price
         (Scenario.price msk msk (u "тон по 5.10")) true (start msk Missing []))
  = Ret true
  /\ bot_state_json w1 = Json (snapshot (bot w1))
  /\ last_price_post_morning (bot w1) = Some 3
  /\ posts_today (bot w1) = 1
  /\ last_price_post_morning restarted = None
  /\ posts_today restarted = 0
  /\ should_post_price_morning (msk + minute_us) restarted = true.
Proof. vm_compute. repeat split; reflexivity. Qed.

(** C3, amended. The state file written after a successful publish holds
    the last cycle post time, the published content hashes and the
    published source ids, and a process started on it has these three as
    they were; [posts_today] and the two price-post dates are not in the
    file and start from [0] and [None]. *)
Theorem state_file_restores env content price is_price_post news_id w w' now :
  publish_post env content price is_price_post news_id w = (Ret true, w') ->
  p_disk env = WriteOk ->
  bot_state_json w' = Json (snapshot (bot w'))
  /\ let b := init now (bot_state_json w') (processed_ids_txt w') in
     last_post_time b = last_post_time (bot w')
     /\ published_posts_hashes b = published_posts_hashes (bot w')
     /\ published_news_ids b = published_news_ids (bot w')
     /\ posts_today b = 0
     /\ last_price_post_morning b = None
     /\ last_price_post_evening b = None.
Proof.
  intros Hrun Hdisk.
  destruct (publish_post_returned _ _ _ _ _ _ _ _ Hrun)
    as (duplicate & recorded & _ & _ & (_ & _ & _ & Hres) & _).
  destruct Hres as (_ & Hf & _).
  rewrite Hdisk in Hf. cbn in Hf. split; [exact Hf|].
  rewrite Hf. cbn.
  repeat split; try reflexivity; apply list_to_set_elements_L.
Qed.

Lemma state_file_restores_witness :
  let w := start 0 Missing [] in
  let w' := snd (publish_post (Scenario.all_fine 40) (u "btc up") None false
                              (Some 7) w) in
  let b := init 50 (bot_state_json w') (processed_ids_txt w') in
  publish_post (Scenario.all_fine 40) (u "btc up") None false (Some 7) w
  = (Ret true, w')
  /\ p_disk (Scenario.all_fine 40) = WriteOk
  /\ last_post_time b = last_post_time (bot w')
  /\ published_posts_hashes b = published_posts_hashes (bot w')
  /\ published_news_ids b = published_news_ids (bot w').
Proof.
  intros w w' b.
  assert (H : publish_post (Scenario.all_fine 40) (u "btc up") None false
                (Some 7) w = (Ret true, w')) by (vm_compute; reflexivity).
  destruct (state_file_restores _ _ _ _ _ _ _ 50 H eq_refl)
    as (_ & H1 & H2 & H3 & _).
  split; [exact H|]. split; [reflexivity|].
  split; [exact H1|]. split; [exact H2|exact H3].
Defined.

End PublishClaims.

(* ===================================================================== *)
(** * Claims on the scheduler                                             *)
(* ===================================================================== *)

Module SchedulerClaims.
Import PublishProofs SchedulerProofs.

(** [should_publish_now] always returns: [True] when the quota of the day
    is not used up, the counter being reset first if a day has passed,
    and the minimum interval has elapsed. It calls nothing and keeps the
    timer. *)
Lemma should_publish_now_spec now w :
  exists w1,
    should_publish_now now w
    = (Ret (((reset_time (bot w) + day_us <=? now)
             || (posts_today (bot w) <? posts_target (bot w)))
            && match last_post_time (bot w) with
               | Some last => negb (now - last <? config.MIN_HOURS_BETWEEN_POSTS_us)
               | None => true
               end), w1)
    /\ calls w1 = calls w
    /\ last_post_time (bot w1) = last_post_time (bot w).
Proof.
  unfold should_publish_now.
  cbv beta iota zeta delta
    [mbind M_bind mret M_ret bind ret get_bot update_bot with_bot logger
     log_line_to].
  destruct (reset_time (bot w) + day_us <=? now) eqn:Hreset;
    cbn [bot bot_state_json processed_ids_txt calls logs channel new_day
         posts_target posts_today last_post_time orb andb].
  - destruct (last_post_time (bot w)) as [last|] eqn:Hl;
      [destruct (now - last <? config.MIN_HOURS_BETWEEN_POSTS_us)|];
      eexists; (split; [reflexivity|]); (split; [reflexivity|]); exact Hl.
  - destruct (posts_target (bot w) <=? posts_today (bot w)) eqn:Hq.
    + assert ((posts_today (bot w) <? posts_target (bot w)) = false) as ->
        by lia.
      eexists; (split; [reflexivity|]); split; reflexivity.
    + assert ((posts_today (bot w) <? posts_target (bot w)) = true) as ->
        by lia.
      destruct (last_post_time (bot w)) as [last|] eqn:Hl;
        [destruct (now - last <? config.MIN_HOURS_BETWEEN_POSTS_us)|];
        eexists; (split; [reflexivity|]); (split; [reflexivity|]); exact Hl.
Qed.

(** When [should_publish_now] answers [False], [generate_and_publish]
    returns [False] and calls nothing. *)
Lemma generate_and_publish_gate env w :
  exists w1,
    should_publish_now (c_now env) w = (fst (should_publish_now (c_now env) w), w1)
    /\ (fst (should_publish_now (c_now env) w) = Ret false ->
        generate_and_publish env w = (Ret false, w1)
        /\ calls w1 = calls w
        /\ last_post_time (bot w1) = last_post_time (bot w))
    /\ (forall w', generate_and_publish env w = (Ret true, w') ->
        fst (should_publish_now (c_now env) w) = Ret true).
Proof.
  destruct (should_publish_now_spec (c_now env) w) as (w1 & E & Hc & Hl).
  exists w1. rewrite E. cbn [fst]. split; [reflexivity|].
  unfold generate_and_publish.
  cbv beta iota zeta delta [mbind M_bind mret M_ret bind ret].
  rewrite E.
  match goal with |- context [Ret ?b] => destruct b end; cbn [negb].
  - split; [discriminate|]. reflexivity.
  - split; [auto|]. intros w' H. discriminate.
Qed.

(** C2, where it fails: a first news post is sent at time 0; a poll 1795
    seconds later, less than the 1800 seconds of
    [MIN_HOURS_BETWEEN_POSTS], sends a second one. *)
Lemma poll_publishes_within_minimum_interval :
  let env1 := Scenario.cycle 0 (Scenario.one_item 5 (u "BTC up")) (u "btc up") in
  let env2 := Scenario.cycle (1795 * second_us)
                             (Scenario.one_item 6 (u "ETH up")) (u "eth up") in
  let w1 := snd (check_and_publish_new_news env1 (start 0 Missing [])) in
  let w2 := snd (check_and_publish_new_news env2 w1) in
  fst (check_and_publish_new_news env1 (start 0 Missing [])) = Ret true
  /\ last_post_time (bot w1) = Some 0
  /\ fst (check_and_publish_new_news env2 w1) = Ret true
  /\ last_post_time (bot w2) = Some (1795 * second_us)
  /\ 1795 * second_us - 0 < config.MIN_HOURS_BETWEEN_POSTS_us.
Proof. vm_compute. repeat split; reflexivity. Qed.

(** C2, amended. With a last post at [last]:
    [check_and_publish_new_news], the path of the driving loop, returns
    [False], having only logged that it is too early, whenever less than
    the minimum interval minus the tolerance of 0.1 minute (1794 s) has
    elapsed; [generate_and_publish], the path behind
    [should_publish_now], returns [False] without any call whenever less
    than the minimum interval has elapsed. Over any sequence of passes of
    the loop in which the clock does not go back between the check and
    the send, two successive values of [last_post_time] are at least
    1794 s apart. *)
Theorem minimum_interval_between_cycle_posts env w last :
  last_post_time (bot w) = Some last ->
  (c_now env - last < min_gap_us ->
   check_and_publish_new_news env w = (Ret false, log_line_to TooEarly w))
  /\ (c_now env - last < config.MIN_HOURS_BETWEEN_POSTS_us ->
      exists w1,
        generate_and_publish env w = (Ret false, w1)
        /\ calls w1 = calls w
        /\ last_post_time (bot w1) = Some last)
  /\ (forall envs, Forall clock_ok envs -> always_spaced envs w).
Proof.
  intros Hlast. split; [|split].
  - intros Hnow. unfold check_and_publish_new_news.
    cbv beta iota zeta delta [mbind M_bind mret M_ret bind ret get_bot logger].
    rewrite Hlast. unfold too_early, min_gap_us in *.
    assert ((c_now env - last
             <? config.MIN_HOURS_BETWEEN_POSTS_us - tolerance_us) = true) as ->
      by lia.
    reflexivity.
  - intros Hnow.
    destruct (generate_and_publish_gate env w) as (w1 & _ & Hfalse & _).
    destruct (should_publish_now_spec (c_now env) w) as (w2 & E & _).
    rewrite Hlast in E.
    assert ((c_now env - last <? config.MIN_HOURS_BETWEEN_POSTS_us) = true)
      as Hlt by lia.
    rewrite Hlt, andb_false_r in E.
    rewrite E in Hfalse. destruct (Hfalse eq_refl) as (Hg & Hc & Hl).
    exists w1. rewrite <- Hlast. auto.
  - intros envs. apply run_ticks_spaced.
Qed.

Lemma minimum_interval_between_cycle_posts_witness :
  let w := Scenario.world_of (Scenario.memory (Some 0) 1 999) in
  let env := Scenario.cycle (1793 * second_us)
                            (Scenario.one_item 6 (u "ETH up")) (u "eth up") in
  last_post_time (bot w) = Some 0
  /\ c_now env - 0 < min_gap_us
  /\ check_and_publish_new_news env w = (Ret false, log_line_to TooEarly w)
  /\ (exists w1, generate_and_publish env w = (Ret false, w1)
                 /\ calls w1 = calls w /\ last_post_time (bot w1) = Some 0)
  /\ always_spaced [Scenario.news_pass (1794 * second_us) 6 (u "ETH up");
                     Scenario.news_pass (1795 * second_us) 7 (u "SOL up")] w
  /\ last_post_time
       (bot (run_ticks [Scenario.news_pass (1794 * second_us) 6 (u "ETH up");
                        Scenario.news_pass (1795 * second_us) 7 (u "SOL up")] w))
     = Some (1794 * second_us).
Proof.
  intros w env.
  destruct (minimum_interval_between_cycle_posts env w 0 eq_refl)
    as (Hpoll & Hgen & Hrun).
  split; [reflexivity|]. split; [reflexivity|].
  split; [apply Hpoll; reflexivity|].
  split; [apply Hgen; reflexivity|].
  split; [|vm_compute; reflexivity].
  apply Hrun. repeat constructor; unfold clock_ok; cbn; lia.
Defined.




(** C7. Every post on the channel after a run of the loop, start and
    passes, was put there by one of the statements that the run reached.
    A price check puts at most one post on the channel; if it puts one,
    the track was due, its date is set to the Moscow date read after the
    send and the test of the track answers [False] at every time of that
    date; if it puts none, the date of the track stays. So, in a run
    in which the Moscow date never goes back from one reading of the
    clock to the next, of two posts of the same track the first one is
    stamped with an earlier date than the date at which the second one
    was found due: no two posts of a track fall on the same day, however
    many passes there are. *)
Theorem price_track_posts_once_a_day start_env envs w :
  dates_never_go_back (start_env :: envs) ->
  let tr := reached_in_run start_env envs w in
  channel (run_loop start_env envs w) = channel w ++ flat_map posts_of tr
  /\ (forall m env w0,
        let w1 := snd (price_check m env w0) in
        (channel w1 = channel w0
         /\ last_price_post m (bot w1) = last_price_post m (bot w0))
        \/ ((exists text, channel w1 = channel w0 ++ [text])
            /\ should_post_price m (check_time m env) (bot w0) = true
            /\ last_price_post m (bot w1) = Some (date_of (stamp_time m env))
            /\ forall msk,
                date_of msk = date_of (stamp_time m env) ->
                should_post_price m msk (bot w1) = false))
  /\ (forall m before x between y later,
        tr = before ++ x :: between ++ y :: later ->
        delivered m x -> delivered m y ->
        date_of (check_time m (r_env x)) <= date_of (stamp_time m (r_env x))
        /\ date_of (stamp_time m (r_env x)) < date_of (check_time m (r_env y))
        /\ date_of (check_time m (r_env y))
           <= date_of (stamp_time m (r_env y))).
Proof.
  intros Hclock tr.
  destruct (reached_in_run_spec start_env envs w) as (Hchain & _ & Hch & Hsub).
  fold tr in Hchain, Hch, Hsub.
  assert (Hsorted : StronglySorted Z.le (flat_map dates_of tr))
    by (eapply sorted_sublist; [exact Hsub|apply never_back_sorted, Hclock]).
  split; [|split].
  - rewrite Hch. apply channel_of_trace, Hchain.
  - intros m env w0.
    destruct (price_check_spec m env w0)
      as (r & w1 & E & _ & _ & [H|(Hpost & Hdue & Hset)]);
      rewrite E; cbn [snd]; [left; exact H|right].
    split; [exact Hpost|]. split; [exact Hdue|]. split; [exact Hset|].
    intros msk Hmsk. apply should_post_price_same_day. congruence.
  - intros m before x between y later Htr.
    rewrite Htr in Hchain, Hsorted.
    apply (deliveries_increase m w before x between y later); assumption.
Qed.

Lemma price_track_posts_once_a_day_witness :
  let w := start 0 Missing [] in
  let start_env := Scenario.price_pass 3 0 (u "ton 5.00") in
  let passes := [Scenario.price_pass 3 1 (u "ton 5.10");
                 Scenario.price_pass 3 2 (u "ton 5.20");
                 Scenario.price_pass 4 3 (u "ton 5.30")] in
  dates_never_go_back (start_env :: passes)
  /\ channel (run_loop start_env passes w) = [u "ton 5.00 +"; u "ton 5.30 +"]
  /\ channel (run_loop start_env passes w)
     = channel w ++ flat_map posts_of (reached_in_run start_env passes w)
  /\ last_price_post true (bot (run_loop start_env passes w)) = Some 4.
Proof.
  intros w start_env passes.
  assert (Hclock : dates_never_go_back (start_env :: passes))
    by (vm_compute; reflexivity).
  split; [exact Hclock|]. split; [vm_compute; reflexivity|].
  split; [|vm_compute; reflexivity].
  exact (proj1 (price_track_posts_once_a_day start_env passes w Hclock)).
Defined.

(** The hypothesis on the clock is needed: the morning post of day 3
    is stamped with day 4 by a clock that has jumped ahead; the clock is
    set back, and a minute later the track is due again on day 3 and
    posts a second time. *)
Lemma price_track_needs_a_steady_clock :
  let w := start 0 Missing [] in
  let start_env :=
    Scenario.skewed_pass (Scenario.morning_of 3) (Scenario.morning_of 4) 0
                         (u "ton 5.00") in
  let passes :=
    [Scenario.skewed_pass (Scenario.morning_of 3 + minute_us)
                          (Scenario.morning_of 3 + minute_us) 1
                          (u "ton 5.10")] in
  never_back (date_of <$> flat_map clock_readings (start_env :: passes))
  = false
  /\ channel (run_loop start_env passes w) = [u "ton 5.00 +"; u "ton 5.10 +"].
Proof. vm_compute. split; reflexivity. Qed.

End SchedulerClaims.

(* ===================================================================== *)
(** * escape_markdown                                                     *)
(* ===================================================================== *)

Module MarkdownProofs.

Lemma replace1_flat_map old new (g : N -> pystr) s :
  replace1 old new (flat_map g s) = flat_map (fun x => replace1 old new (g x)) s.
Proof.
  unfold replace1. induction s as [|x s IH]; [reflexivity|].
  cbn [flat_map]. rewrite List.flat_map_app, IH. reflexivity.
Qed.

Lemma replace1_escape_where p ch t :
  p ch = false -> p backslash = true ->
  replace1 ch [backslash; ch] (escape_where p t)
  = escape_where (fun c => p c || (c =? ch)%N) t.
Proof.
  intros Hch Hb. unfold escape_where. rewrite replace1_flat_map.
  apply List.flat_map_ext. intros x. unfold replace1.
  assert (Hne : (backslash =? ch)%N = false).
  { apply N.eqb_neq. intros <-. congruence. }
  destruct (p x) eqn:Hx; cbn [flat_map orb app].
  - rewrite Hne. destruct (N.eqb_spec x ch) as [->|_]; [congruence|reflexivity].
  - destruct (N.eqb_spec x ch) as [->|_]; reflexivity.
Qed.

Lemma fold_escape_where chars : forall p t,
  NoDup chars ->
  (forall c, In c chars -> p c = false) -> p backslash = true ->
  fold_left (fun result char => replace1 char [backslash; char] result)
            chars (escape_where p t)
  = escape_where (fun c => p c || char_in chars c) t.
Proof.
  induction chars as [|ch chars IH]; intros p t Hnd Hp Hb.
  - cbn. unfold escape_where. apply List.flat_map_ext.
    intros x. rewrite orb_false_r. reflexivity.
  - apply NoDup_cons in Hnd as [Hnotin Hnd].
    cbn [fold_left].
    rewrite replace1_escape_where by auto using in_eq.
    rewrite IH.
    + unfold escape_where. apply List.flat_map_ext. intros x.
      unfold char_in. cbn [existsb]. rewrite orb_assoc. reflexivity.
    + exact Hnd.
    + intros c Hc. rewrite (Hp c (in_cons _ _ _ Hc)). cbn.
      apply N.eqb_neq. intros ->. apply Hnotin, list_elem_of_In, Hc.
    + rewrite Hb. reflexivity.
Qed.

Lemma escape_markdown_flat (text : pystr) :
  escape_markdown text
  = escape_where (char_in (backslash :: escape_chars)) text.
Proof.
  destruct text as [|c text]; [reflexivity|].
  unfold escape_markdown.
  assert (Hfirst : replace1 backslash [backslash; backslash] (c :: text)
                   = escape_where (fun x => (x =? backslash)%N) (c :: text)).
  { unfold replace1, escape_where. apply List.flat_map_ext. intros x.
    destruct (N.eqb_spec x backslash) as [->|_]; reflexivity. }
  rewrite Hfirst, fold_escape_where.
  - unfold escape_where. apply List.flat_map_ext. intros x. reflexivity.
  - apply (bool_decide_unpack _). vm_compute. exact I.
  - intros x Hx. apply N.eqb_neq. intros ->.
    revert Hx. vm_compute. intuition discriminate.
  - reflexivity.
Qed.

(** X1. [escape_markdown] puts exactly one backslash before every
    backslash and before each of the sixteen markup characters, and
    leaves the other characters as they are: the seventeen successive
    [replace] calls never escape a backslash that an earlier one
    inserted. *)
Theorem escape_markdown_one_pass (text : pystr) :
  escape_markdown text
  = flat_map (fun c => if char_in (backslash :: escape_chars) c
                       then [backslash; c] else [c]) text.
Proof.
  rewrite escape_markdown_flat. unfold escape_where. reflexivity.
Qed.

Lemma escape_where_inj p :
  p backslash = true ->
  forall t1 t2, escape_where p t1 = escape_where p t2 -> t1 = t2.
Proof.
  intros Hb. unfold escape_where.
  induction t1 as [|x1 t1 IH]; intros [|x2 t2]; cbn [flat_map].
  - reflexivity.
  - destruct (p x2); discriminate.
  - destruct (p x1); discriminate.
  - destruct (p x1) eqn:H1, (p x2) eqn:H2; cbn [app]; intros E.
    + injection E as -> E. f_equal. apply IH, E.
    + injection E as <- E. congruence.
    + injection E as -> E. congruence.
    + injection E as -> E. f_equal. apply IH, E.
Qed.

(** X2. [escape_markdown] loses nothing: two texts with the same escaped
    form are the same text. *)
Theorem escape_markdown_injective (t1 t2 : pystr) :
  escape_markdown t1 = escape_markdown t2 -> t1 = t2.
Proof.
  rewrite !escape_markdown_flat. apply escape_where_inj. reflexivity.
Qed.

Lemma escape_markdown_injective_witness :
  escape_markdown (u "a_b") = escape_markdown (u "a_b")
  /\ u "a_b" = u "a_b".
Proof.
  split; [reflexivity|].
  exact (escape_markdown_injective (u "a_b") (u "a_b") eq_refl).
Defined.

End MarkdownProofs.

(* ===================================================================== *)
(** * Waiting for the image                                               *)
(* ===================================================================== *)

Module ImageProofs.

Lemma wait_for_image_skip replies attempt remaining :
  decisive (replies attempt) = false ->
  wait_for_image replies attempt (S remaining)
  = wait_for_image replies (S attempt) remaining.
Proof.
  intros H. cbn [wait_for_image]. unfold decisive in H.
  destruct (replies attempt) as [[flag resp|]|]; [|discriminate|reflexivity].
  destruct flag as [[|[[]|[]| ]|]|]; try discriminate; reflexivity.
Qed.

Lemma wait_for_image_decided replies attempt remaining :
  decisive (replies attempt) = true ->
  wait_for_image replies attempt (S remaining)
  = (verdict (replies attempt), S attempt).
Proof.
  intros H. cbn [wait_for_image]. unfold decisive, verdict in *.
  destruct (replies attempt) as [[flag resp|]|];
    [|reflexivity|discriminate].
  destruct flag as [[|[[]|[]| ]|]|]; try discriminate;
    destruct resp; reflexivity.
Qed.

Lemma wait_for_image_first replies k : forall attempt remaining,
  (k < remaining)%nat ->
  (forall j, (j < k)%nat -> decisive (replies (attempt + j)%nat) = false) ->
  decisive (replies (attempt + k)%nat) = true ->
  wait_for_image replies attempt remaining
  = (verdict (replies (attempt + k)%nat), S (attempt + k)).
Proof.
  induction k as [|k IH]; intros attempt remaining Hlt Hbefore Hk;
    (destruct remaining as [|remaining]; [lia|]).
  - rewrite Nat.add_0_r in *. apply wait_for_image_decided, Hk.
  - rewrite wait_for_image_skip.
    + rewrite (IH (S attempt) remaining).
      * replace (S attempt + k)%nat with (attempt + S k)%nat by lia. reflexivity.
      * lia.
      * intros j Hj. replace (S attempt + j)%nat with (attempt + S j)%nat by lia.
        apply Hbefore. lia.
      * replace (S attempt + k)%nat with (attempt + S k)%nat by lia. exact Hk.
    + specialize (Hbefore 0%nat). rewrite Nat.add_0_r in Hbefore.
      apply Hbefore. lia.
Qed.

Lemma wait_for_image_timeout replies : forall remaining attempt,
  (forall j, (j < remaining)%nat -> decisive (replies (attempt + j)%nat) = false) ->
  wait_for_image replies attempt remaining = (Ret None, (attempt + remaining)%nat).
Proof.
  induction remaining as [|remaining IH]; intros attempt Hnone.
  - cbn. rewrite Nat.add_0_r. reflexivity.
  - rewrite wait_for_image_skip.
    + rewrite IH; [f_equal; lia|].
      intros j Hj. replace (S attempt + j)%nat with (attempt + S j)%nat by lia.
      apply Hnone. lia.
    + specialize (Hnone 0%nat). rewrite Nat.add_0_r in Hnone.
      apply Hnone. lia.
Qed.

(** Among the first [n] replies from [attempt] on there is a first
    decisive one, or none is decisive. *)
Lemma first_decisive replies n : forall attempt,
  (exists k, (k < n)%nat
             /\ (forall j, (j < k)%nat -> decisive (replies (attempt + j)%nat) = false)
             /\ decisive (replies (attempt + k)%nat) = true)
  \/ (forall j, (j < n)%nat -> decisive (replies (attempt + j)%nat) = false).
Proof.
  induction n as [|n IH]; intros attempt; [right; intros j Hj; lia|].
  destruct (decisive (replies attempt)) eqn:H0.
  - left. exists 0%nat. rewrite Nat.add_0_r.
    split; [lia|]. split; [intros j Hj; lia|exact H0].
  - destruct (IH (S attempt)) as [(k & Hk & Hbefore & Hdec)|Hnone].
    + left. exists (S k). split; [lia|]. split.
      * intros [|j] Hj; [rewrite Nat.add_0_r; exact H0|].
        replace (attempt + S j)%nat with (S attempt + j)%nat by lia.
        apply Hbefore. lia.
      * replace (attempt + S k)%nat with (S attempt + k)%nat by lia. exact Hdec.
    + right. intros [|j] Hj; [rewrite Nat.add_0_r; exact H0|].
      replace (attempt + S j)%nat with (S attempt + j)%nat by lia.
      apply Hnone. lia.
Qed.

(** X3. Once a task is started, the first reply of [get_task_status]
    that reports success or one of the two failures, or that is not a
    dict, if it comes within the 36 attempts, decides the result and ends
    the polling at once:
    replies that are missing, pending or of an unknown status before it
    are skipped, and no status is asked for after it. *)
Theorem generate_image_async_first_decisive_reply task_id replies k :
  (k < max_attempts)%nat ->
  (forall j, (j < k)%nat -> decisive (replies j) = false) ->
  decisive (replies k) = true ->
  generate_image_async (Some task_id) replies = (verdict (replies k), S k).
Proof.
  intros Hk Hbefore Hdec. unfold generate_image_async.
  exact (wait_for_image_first replies k 0 max_attempts Hk Hbefore Hdec).
Qed.

Lemma generate_image_async_first_decisive_reply_witness :
  let replies := fun j : nat =>
    if (j <? 3)%nat then Some (mkStatus (Some 0) ResponseMissing)
    else Some (mkStatus (Some 1)
                 (ResponseObject None (Some some_url))) in
  (3 < max_attempts)%nat
  /\ generate_image_async (Some some_task) replies
     = (Ret (Some some_url), 4%nat).
Proof.
  intros replies. split; [unfold max_attempts; lia|].
  apply (generate_image_async_first_decisive_reply some_task replies 3).
  - unfold max_attempts. lia.
  - intros [|[|[|j]]] Hj; (reflexivity || lia).
  - reflexivity.
Defined.

(** X4. [generate_image_async] asks for the status at most 36 times; when
    no task could be started it asks for none and returns [None], and
    when none of the 36 replies is decisive it returns [None] after
    exactly 36 of them. *)
Theorem generate_image_async_bounded task replies :
  (snd (generate_image_async task replies) <= max_attempts)%nat
  /\ (task = None -> generate_image_async task replies = (Ret None, 0%nat))
  /\ (task <> None ->
      (forall j, (j < max_attempts)%nat -> decisive (replies j) = false) ->
      generate_image_async task replies = (Ret None, max_attempts)).
Proof.
  split; [|split].
  - destruct task as [id|]; [|cbn; lia]. unfold generate_image_async.
    destruct (first_decisive replies max_attempts 0)
      as [(k & Hk & Hbefore & Hdec)|Hnone].
    + rewrite (wait_for_image_first replies k 0 max_attempts Hk Hbefore Hdec).
      cbn [snd]. lia.
    + rewrite (wait_for_image_timeout replies max_attempts 0 Hnone).
      cbn [snd]. lia.
  - intros ->. reflexivity.
  - intros Htask Hnone. destruct task as [id|]; [|congruence].
    exact (wait_for_image_timeout replies max_attempts 0 Hnone).
Qed.

Lemma generate_image_async_bounded_witness :
  generate_image_async (Some some_task)
    (fun _ => Some (mkStatus (Some 0) ResponseMissing))
  = (Ret None, 36%nat).
Proof.
  apply (generate_image_async_bounded (Some some_task)).
  - discriminate.
  - intros j _. reflexivity.
Defined.

(** X5. [generate_image_async] returns a url only if one of the 36
    replies reported success with that url, which is not empty and is
    [resultImageUrl] or, when that one is missing or empty,
    [originImageUrl]; and it raises only on a reply that is not a dict or
    that reports success with a response that is not a dict, [null]
    included. *)
Theorem generate_image_async_sound task replies :
  (forall url,
     fst (generate_image_async task replies) = Ret (Some url) ->
     url <> []
     /\ exists k r o,
         (k < max_attempts)%nat
         /\ replies k = Some (mkStatus (Some 1) (ResponseObject r o))
         /\ (r = Some url \/ (truthy_str r = false /\ o = Some url)))
  /\ (forall e,
        fst (generate_image_async task replies) = Raise e ->
        exists k,
          (k < max_attempts)%nat
          /\ (replies k = Some StatusNotDict
              \/ replies k = Some (mkStatus (Some 1) ResponseNull)
              \/ replies k = Some (mkStatus (Some 1) ResponseOther))).
Proof.
  assert (Hcases :
    generate_image_async task replies = (Ret None, 0%nat)
    \/ generate_image_async task replies = (Ret None, max_attempts)
    \/ exists k, (k < max_attempts)%nat /\ decisive (replies k) = true
                 /\ generate_image_async task replies
                    = (verdict (replies k), S k)).
  { destruct task as [id|]; [|left; reflexivity]. right.
    destruct (first_decisive replies max_attempts 0)
      as [(k & Hk & Hbefore & Hdec)|Hnone].
    - right. exists k. split; [exact Hk|]. split; [exact Hdec|].
      exact (wait_for_image_first replies k 0 max_attempts Hk Hbefore Hdec).
    - left. exact (wait_for_image_timeout replies max_attempts 0 Hnone). }
  split.
  - intros url Hurl.
    destruct Hcases as [E|[E|(k & Hk & Hdec & E)]];
      rewrite E in Hurl; cbn [fst] in Hurl; try discriminate.
    unfold verdict, decisive in *.
    destruct (replies k) as [[flag resp|]|] eqn:Hr; try discriminate.
    destruct flag as [[|[[]|[]| ]|]|]; try discriminate;
      destruct resp as [| |r o|]; try discriminate.
    unfold or_else in Hurl.
    destruct (truthy_str r) eqn:Hr1.
    + rewrite Hr1 in Hurl. injection Hurl as ->.
      split; [intros ->; discriminate|].
      exists k, (Some url), o. auto 10.
    + destruct (truthy_str o) eqn:Ho; [|discriminate].
      injection Hurl as ->.
      split; [intros ->; discriminate|].
      exists k, r, (Some url). auto 10.
  - intros e He.
    destruct Hcases as [E|[E|(k & Hk & Hdec & E)]];
      rewrite E in He; cbn [fst] in He; try discriminate.
    unfold verdict, decisive in *. exists k. split; [exact Hk|].
    destruct (replies k) as [[flag resp|]|] eqn:Hr; try discriminate; auto.
    destruct flag as [[|[[]|[]| ]|]|]; try discriminate;
      destruct resp as [| |r o|]; try discriminate; auto.
Qed.

Lemma generate_image_async_sound_witness :
  let replies := fun _ : nat =>
    Some (mkStatus (Some 1)
            (ResponseObject (Some []) (Some some_url))) in
  fst (generate_image_async (Some some_task) replies)
  = Ret (Some some_url)
  /\ some_url <> [].
Proof.
  intros replies.
  assert (H : fst (generate_image_async (Some some_task) replies)
              = Ret (Some some_url)) by reflexivity.
  split; [exact H|].
  exact (proj1 (proj1 (generate_image_async_sound _ replies) _ H)).
Defined.

End ImageProofs.

(* ===================================================================== *)
(** * The reaction line                                                   *)
(* ===================================================================== *)

Module OpinionProofs.
Import PyStrFacts TextProofs.

(** ** Stripping and splitting only remove characters *)

Lemma In_lstrip x s : In x (lstrip s) -> In x s.
Proof.
  induction s as [|c s IH]; cbn; [auto|].
  destruct (is_space c); cbn; auto.
Qed.

Lemma In_strip x s : In x (strip s) -> In x s.
Proof.
  unfold strip, rstrip. intros H.
  apply In_lstrip. apply in_rev. apply In_lstrip. apply in_rev in H. exact H.
Qed.

Lemma In_lstrip_chars chars x s : In x (lstrip_chars chars s) -> In x s.
Proof.
  induction s as [|c s IH]; cbn; [auto|].
  destruct (char_in chars c); cbn; auto.
Qed.

Lemma In_rstrip_chars chars x s : In x (rstrip_chars chars s) -> In x s.
Proof.
  unfold rstrip_chars. intros H. apply in_rev.
  apply (In_lstrip_chars chars). apply in_rev in H. exact H.
Qed.

Lemma In_strip_chars chars x s : In x (strip_chars chars s) -> In x s.
Proof.
  unfold strip_chars. intros H.
  apply (In_lstrip_chars chars), (In_rstrip_chars chars), H.
Qed.

Lemma In_replace1_nil e x s : In x (replace1 e [] s) -> In x s /\ x <> e.
Proof.
  unfold replace1. induction s as [|c s IH]; cbn; [tauto|].
  destruct (N.eqb_spec c e) as [->|Hne]; cbn.
  - intros H. destruct (IH H). auto.
  - intros [->|H]; [auto|]. destruct (IH H). auto.
Qed.

Lemma In_split x w s : In w (split s) -> In x w -> In x s.
Proof.
  revert w. induction s as [|c s IH]; intros w; [intros []|].
  cbn [split]. destruct (is_space c).
  { intros Hw Hx. right. eapply IH; eassumption. }
  destruct s as [|c' s'].
  { intros [<-|[]] Hx. exact Hx. }
  destruct (is_space c').
  { intros [<-|Hw] Hx; [destruct Hx as [->|[]]; left; reflexivity|].
    right. eapply IH; eassumption. }
  destruct (split (c' :: s')) as [|w0 ws] eqn:Hs.
  { intros [<-|[]] [->|[]]. left. reflexivity. }
  intros [<-|Hw] Hx.
  - destruct Hx as [->|Hx]; [left; reflexivity|].
    right. apply (IH w0); [left; reflexivity|exact Hx].
  - right. apply (IH w); [right; exact Hw|exact Hx].
Qed.

Lemma In_join x sep ws :
  In x (join sep ws) -> In x sep \/ exists w, In w ws /\ In x w.
Proof.
  induction ws as [|w ws IH]; [intros []|].
  destruct ws as [|w2 ws'].
  - cbn. intros H. right. exists w. auto.
  - change (join sep (w :: w2 :: ws')) with (w ++ sep ++ join sep (w2 :: ws')).
    intros H. apply in_app_or in H as [H|H]; [right; exists w; cbn; auto|].
    apply in_app_or in H as [H|H]; [left; exact H|].
    destruct (IH H) as [Hs|(w' & Hw' & Hx)]; [left; exact Hs|].
    right. exists w'. split; [right; exact Hw'|exact Hx].
Qed.

(** ** The tone *)

Lemma tone_cases content :
  _determine_post_tone content = clown \/ _determine_post_tone content = fire.
Proof.
  unfold _determine_post_tone.
  match goal with |- context [if ?c then _ else _] => destruct c end; auto.
Qed.




(** ** The cleaned reaction *)

Definition emoji_free (text : pystr) : Prop :=
  forall e, In e emoji_chars -> ~ In e text.

Lemma emoji_free_check text :
  forallb (fun e => negb (char_in text e)) emoji_chars = true -> emoji_free text.
Proof.
  intros H e He Hin. rewrite forallb_forall in H.
  specialize (H e He). apply negb_true_iff in H.
  unfold char_in in H. rewrite <- not_true_iff_false in H. apply H.
  apply existsb_exists. exists e. split; [exact Hin|apply N.eqb_refl].
Qed.

Lemma emoji_removed es : forall t,
  (forall x, In x (fold_left (fun text e => strip (replace1 e [] text)) es t) ->
             In x t)
  /\ (forall e, In e es ->
        ~ In e (fold_left (fun text e => strip (replace1 e [] text)) es t)).
Proof.
  induction es as [|e0 es IH]; intros t; cbn [fold_left].
  - split; [auto|intros e []].
  - destruct (IH (strip (replace1 e0 [] t))) as [Hsub Hgone]. split.
    + intros x Hx. apply Hsub, In_strip, In_replace1_nil in Hx. tauto.
    + intros e [<-|He]; [|apply Hgone, He].
      intros Hin. apply Hsub, In_strip, In_replace1_nil in Hin. tauto.
Qed.

Lemma clean_reaction_words content :
  (List.length (split (clean_reaction content)) <= 7)%nat.
Proof.
  unfold clean_reaction.
  match goal with
  | |- context [(7 <? List.length (split ?t))%nat] =>
    set (text := t); destruct (Nat.ltb_spec 7 (List.length (split text)))
  end.
  - rewrite split_join.
    + rewrite List.length_firstn. lia.
    + apply Forall_take, split_words.
  - assumption.
Qed.

Lemma clean_reaction_emoji_free content : emoji_free (clean_reaction content).
Proof.
  intros e He Hin. unfold clean_reaction in Hin.
  set (t0 := strip (strip_chars [39%N] (strip_chars [34%N] (strip content)))) in *.
  set (t1 := fold_left (fun text e => strip (replace1 e [] text)) emoji_chars t0) in *.
  set (t2 := strip (rstrip_chars (u ".,!?;:") t1)) in *.
  set (t3 := strip (lstrip_chars (u "-–—•") t2)) in *.
  assert (H3 : forall x, In x t3 -> In x t1).
  { intros x Hx. subst t3 t2.
    apply In_strip, In_lstrip_chars, In_strip, In_rstrip_chars in Hx. exact Hx. }
  assert (Hgone : ~ In e t1) by (apply (proj2 (emoji_removed emoji_chars t0)), He).
  assert (Hsp : e <> 32%N).
  { intros ->. revert He. vm_compute. intuition discriminate. }
  destruct (7 <? List.length (split t3))%nat.
  - apply In_join in Hin as [Hin|(w & Hw & Hx)].
    + vm_compute in Hin. destruct Hin as [Hin|[]]. congruence.
    + apply Hgone, H3. apply (In_split e w); [|exact Hx].
      apply list_elem_of_In. apply list_elem_of_In in Hw.
      eapply subseteq_take, Hw.
  - apply Hgone, H3, Hin.
Qed.

(** X7. Whatever DeepSeek answers, and when it does not answer,
    [_add_opinion_text] appends a reaction line: two newlines, the emoji
    of the tone of the post, [" - "] and a text that is not empty, has at
    most seven words, contains none of the forbidden words in any letter
    case and none of the fifteen emoji that the cleaning removes. *)
Theorem reaction_line_shape answer content :
  exists text,
    opinion_text answer content
    = [10; 10]%N ++ _determine_post_tone content ++ u " - " ++ text
    /\ text <> []
    /\ (List.length (split text) <= 7)%nat
    /\ any_in forbidden_words (lower text) = false
    /\ emoji_free text.
Proof.
  assert (Hneutral : forall emoji, emoji = clown \/ emoji = fire ->
    ([10; 10]%N ++ emoji ++ u " - " ++ neutral_reaction emoji
     = if str_eqb emoji clown then [10; 10]%N ++ u "🤡 - крипта скам"
       else [10; 10]%N ++ u "🔥 - закупился")
    /\ neutral_reaction emoji <> []
    /\ (List.length (split (neutral_reaction emoji)) <= 7)%nat
    /\ any_in forbidden_words (lower (neutral_reaction emoji)) = false
    /\ emoji_free (neutral_reaction emoji)).
  { intros emoji [-> | ->];
      (split; [vm_compute; reflexivity|]);
      (split; [vm_compute; discriminate|]);
      (split; [vm_compute; lia|]);
      (split; [vm_compute; reflexivity|]);
      apply emoji_free_check; vm_compute; reflexivity. }
  unfold opinion_text.
  pose proof (tone_cases content) as Htone.
  set (emoji := _determine_post_tone content) in *.
  destruct (Hneutral emoji Htone) as (Hshape & Hne & Hwords & Hforb & Hfree).
  assert (Hfallback :
    exists text,
      (if str_eqb emoji clown then [10; 10]%N ++ u "🤡 - крипта скам"
       else [10; 10]%N ++ u "🔥 - закупился")
      = [10; 10]%N ++ emoji ++ u " - " ++ text
      /\ text <> []
      /\ (List.length (split text) <= 7)%nat
      /\ any_in forbidden_words (lower text) = false
      /\ emoji_free text).
  { exists (neutral_reaction emoji). rewrite <- Hshape. auto. }
  unfold _generate_opinion_text.
  destruct answer as [reply|]; [|exact Hfallback].
  destruct (any_in forbidden_words (lower (clean_reaction reply))) eqn:Hbad.
  - destruct (neutral_reaction emoji) as [|c text] eqn:Hn; [congruence|].
    exists (c :: text). auto.
  - pose proof (clean_reaction_words reply) as Hw.
    pose proof (clean_reaction_emoji_free reply) as Hf.
    destruct (clean_reaction reply) as [|c text]; [exact Hfallback|].
    exists (c :: text). split; [reflexivity|]. split; [discriminate|]. auto.
Qed.

End OpinionProofs.

(* ===================================================================== *)
(** * Polling the news channel                                            *)
(* ===================================================================== *)

Module NewsProofs.
Import SchedulerProofs.

Lemma accepted_spec m :
  accepted m = true ->
  exists text,
    message_text m = Some text /\ text <> []
    /\ NewsParser.is_service text = false
    /\ is_relevant_news (Some text) = true.
Proof.
  unfold accepted. destruct (message_text m) as [[|c text]|]; try discriminate.
  intros H. apply andb_true_iff in H as [Hs Hr].
  apply negb_true_iff in Hs. exists (c :: text). repeat split; auto; discriminate.
Qed.

(** What one pass over the messages does: the answer is the accumulator
    followed by one item for each accepted message whose id was not seen,
    in the order of the feed; their ids are added to the memory and, when
    the file can be written, appended to it. *)
Lemma scan_full writable ms : forall acc w,
  exists items w',
    NewsParser.scan writable ms acc w = (Ret (acc ++ items), w')
    /\ (forall item, In item items ->
          exists m text,
            In m ms /\ message_text m = Some text /\ accepted m = true
            /\ item = mkItem (m_id m) text (m_date m)
            /\ m_id m ∉ processed_message_ids (bot w))
    /\ processed_message_ids (bot w')
       = processed_message_ids (bot w) ∪ list_to_set (n_id <$> items)
    /\ NoDup (n_id <$> items)
    /\ (forall m, In m ms -> accepted m = true ->
          m_id m ∈ processed_message_ids (bot w'))
    /\ processed_ids_txt w'
       = processed_ids_txt w ++ (if writable then n_id <$> items else []).
Proof.
  induction ms as [|m ms IH]; intros acc w.
  - exists [], w. cbn. rewrite app_nil_r.
    split; [reflexivity|]. split; [intros item []|].
    split; [symmetry; apply (right_id_L ∅ (∪))|]. split; [constructor|].
    split; [intros m []|]. destruct writable; rewrite app_nil_r; reflexivity.
  - assert (Hskip :
      m_id m ∈ processed_message_ids (bot w) \/ accepted m = false ->
      exists items w',
        NewsParser.scan writable ms acc w = (Ret (acc ++ items), w')
        /\ (forall item, In item items ->
              exists m0 text,
                In m0 (m :: ms) /\ message_text m0 = Some text
                /\ accepted m0 = true
                /\ item = mkItem (m_id m0) text (m_date m0)
                /\ m_id m0 ∉ processed_message_ids (bot w))
        /\ processed_message_ids (bot w')
           = processed_message_ids (bot w) ∪ list_to_set (n_id <$> items)
        /\ NoDup (n_id <$> items)
        /\ (forall m0, In m0 (m :: ms) -> accepted m0 = true ->
              m_id m0 ∈ processed_message_ids (bot w'))
        /\ processed_ids_txt w'
           = processed_ids_txt w ++ (if writable then n_id <$> items else [])).
    { intros Hm. destruct (IH acc w) as (items & w' & E & Hs & Hp & Hn & Hc & Ht).
      exists items, w'. split; [exact E|]. split.
      { intros item Hi. destruct (Hs item Hi) as (m0 & text & Hin & H).
        exists m0, text. split; [right; exact Hin|exact H]. }
      split; [exact Hp|]. split; [exact Hn|]. split; [|exact Ht].
      intros m0 [<-|Hin] Ha; [|apply Hc; assumption].
      destruct Hm as [Hm|Hm]; [|congruence]. rewrite Hp.
      apply elem_of_union_l, Hm. }
    cbn [NewsParser.scan].
    cbv beta iota zeta delta [mbind M_bind bind get_bot].
    destruct (bool_decide (m_id m ∈ processed_message_ids (bot w))) eqn:Hseen.
    { apply Hskip. left. apply bool_decide_eq_true in Hseen. exact Hseen. }
    apply bool_decide_eq_false in Hseen.
    pose proof (eq_refl : accepted m = accepted m) as Hacc.
    unfold accepted at 2, message_text in Hacc.
    assert (Htext : message_text m
                    = if truthy_str (m_text m) then strip <$> m_text m else None)
      by reflexivity.
    destruct (if truthy_str (m_text m) then strip <$> m_text m else None)
      as [[|c text]|]; [apply Hskip; right; exact Hacc| |apply Hskip; right; exact Hacc].
    destruct (NewsParser.is_service (c :: text));
      [apply Hskip; right; exact Hacc|].
    assert (Hacc' : accepted m = is_relevant_news (Some (c :: text)))
      by exact Hacc.
    clear Hacc. rename Hacc' into Hacc.
    destruct (is_relevant_news (Some (c :: text))) eqn:Hrel;
      [|apply Hskip; right; exact Hacc].
    cbv beta iota zeta delta
      [mbind M_bind bind update_bot NewsParser._save_processed_id with_bot].
    cbn [bot bot_state_json processed_ids_txt calls logs channel fst snd].
    match goal with
    | |- context [NewsParser.scan _ ms ?acc1 ?w1] =>
      assert (Hb1 : processed_message_ids (bot w1)
                    = {[m_id m]} ∪ processed_message_ids (bot w))
        by (destruct writable; reflexivity);
      assert (Ht1 : processed_ids_txt w1
                    = processed_ids_txt w
                      ++ (if writable then [m_id m] else []))
        by (destruct writable; cbn [processed_ids_txt with_ids_txt];
            rewrite ?app_nil_r; reflexivity);
      destruct (IH acc1 w1) as (items & w' & E & Hs & Hp & Hn & Hc & Ht)
    end.
    exists (mkItem (m_id m) (c :: text) (m_date m) :: items), w'.
    rewrite E, <- app_assoc. split; [reflexivity|].
    rewrite Hb1 in Hp.
    assert (Hold : forall item, In item items ->
              exists m0 text0,
                In m0 ms /\ message_text m0 = Some text0
                /\ accepted m0 = true
                /\ item = mkItem (m_id m0) text0 (m_date m0)
                /\ m_id m0 <> m_id m
                /\ m_id m0 ∉ processed_message_ids (bot w)).
    { intros item Hi.
      destruct (Hs item Hi) as (m0 & t0 & Hin & Ht0 & Ha0 & Hi0 & Hnot).
      rewrite Hb1 in Hnot. apply not_elem_of_union in Hnot as [Hne Hnot].
      apply not_elem_of_singleton in Hne.
      exists m0, t0. auto 10. }
    change (n_id <$> mkItem (m_id m) (c :: text) (m_date m) :: items)
      with (m_id m :: (n_id <$> items)).
    split.
    { intros item [<-|Hi].
      - exists m, (c :: text). split; [left; reflexivity|].
        split; [exact Htext|]. split; [exact Hacc|]. split; [reflexivity|].
        exact Hseen.
      - destruct (Hold item Hi) as (m0 & t0 & Hin & Ht0 & Ha0 & Hi0 & _ & Hnot).
        exists m0, t0. split; [right; exact Hin|]. auto. }
    split.
    { rewrite Hp, list_to_set_cons.
      rewrite (comm_L (∪) {[m_id m]} (processed_message_ids (bot w))).
      symmetry. apply (assoc_L (∪)). }
    split.
    { constructor; [|exact Hn]. intros Hin.
      apply list_elem_of_fmap in Hin as (item & Hid & Hin).
      apply list_elem_of_In in Hin.
      destruct (Hold item Hin) as (m0 & t0 & _ & _ & _ & -> & Hne & _).
      cbn in Hid. congruence. }
    split.
    { intros m0 [<-|Hin] Ha; [|apply Hc; assumption].
      rewrite Hp. apply elem_of_union_l, elem_of_union_l, elem_of_singleton.
      reflexivity. }
    rewrite Ht, Ht1, <- app_assoc. destruct writable; reflexivity.
Qed.

(** After a poll the accepted messages of the batch are all processed. *)
Lemma poll_full ms fails writable limit w :
  exists items w',
    NewsParser.scan writable (firstn limit ms) [] (log_call NewsSource w)
    = (Ret items, w')
    /\ NewsParser.get_new_relevant_news (Messages ms fails writable) limit w
       = (Ret (if fails then [] else items), w')
    /\ (forall item, In item items ->
          exists m text,
            In m (firstn limit ms) /\ message_text m = Some text
            /\ accepted m = true
            /\ item = mkItem (m_id m) text (m_date m)
            /\ m_id m ∉ processed_message_ids (bot w))
    /\ processed_message_ids (bot w')
       = processed_message_ids (bot w) ∪ list_to_set (n_id <$> items)
    /\ NoDup (n_id <$> items)
    /\ (forall m, In m (firstn limit ms) -> accepted m = true ->
          m_id m ∈ processed_message_ids (bot w'))
    /\ processed_ids_txt w'
       = processed_ids_txt w ++ (if writable then n_id <$> items else [])
    /\ same_but_processed (bot w) (bot w').
Proof.
  destruct (scan_full writable (firstn limit ms) [] (log_call NewsSource w))
    as (items & w' & E & Hs & Hp & Hn & Hc & Ht).
  destruct (scan_spec writable (firstn limit ms) [] (log_call NewsSource w))
    as (items0 & w0 & E0 & Hsame & _).
  rewrite E in E0. injection E0 as _ <-.
  exists items, w'. cbn [app] in E. split; [exact E|].
  split.
  { unfold NewsParser.get_new_relevant_news.
    cbv beta iota zeta delta
      [mbind M_bind mret M_ret bind ret try_except external].
    rewrite E. destruct fails; reflexivity. }
  split; [exact Hs|]. split; [exact Hp|]. split; [exact Hn|].
  split; [exact Hc|]. split; [exact Ht|exact Hsame].
Qed.

(** X8. A poll that does not fail returns exactly the new relevant
    messages of the batch: every item comes from a message among the first
    [limit] whose id was not processed, carries its stripped text, which is
    not empty, is no service message and is relevant; no id is returned
    twice; every accepted message of the batch whose id was not processed
    is returned; and the ids of the items are the ids the poll adds to the
    processed set. *)
Theorem poll_returns_the_new_relevant_messages ms writable limit w :
  exists items w',
    NewsParser.get_new_relevant_news (Messages ms false writable) limit w
    = (Ret items, w')
    /\ (forall item, In item items ->
          exists m,
            In m (firstn limit ms)
            /\ n_id item = m_id m /\ n_date item = m_date m
            /\ message_text m = Some (n_text item)
            /\ n_text item <> []
            /\ NewsParser.is_service (n_text item) = false
            /\ is_relevant_news (Some (n_text item)) = true
            /\ m_id m ∉ processed_message_ids (bot w))
    /\ NoDup (n_id <$> items)
    /\ (forall m, In m (firstn limit ms) -> accepted m = true ->
          m_id m ∉ processed_message_ids (bot w) ->
          In (m_id m) (n_id <$> items))
    /\ processed_message_ids (bot w')
       = processed_message_ids (bot w) ∪ list_to_set (n_id <$> items).
Proof.
  destruct (poll_full ms false writable limit w)
    as (items & w' & _ & E & Hs & Hp & Hn & Hc & _).
  exists items, w'. split; [exact E|]. split.
  { intros item Hi. destruct (Hs item Hi) as (m & text & Hin & Ht & Ha & -> & Hnot).
    exists m. cbn [n_id n_text n_date]. destruct (accepted_spec m Ha) as (t & Ht' & Hne & Hsv & Hrel).
    rewrite Ht in Ht'. injection Ht' as <-. auto 10. }
  split; [exact Hn|]. split; [|exact Hp].
  intros m Hin Ha Hnot. specialize (Hc m Hin Ha). rewrite Hp in Hc.
  apply elem_of_union in Hc as [Hc|Hc]; [contradiction|].
  apply elem_of_list_to_set in Hc. apply list_elem_of_In. exact Hc.
Qed.

(** X9. Polling the same messages again gives nothing: whatever the first
    poll returned, also when it failed after the scan and returned the
    empty list, a second poll of the same messages returns no item and
    changes neither the memory nor [processed_ids.txt]. The relevant
    messages of a failed poll are therefore never returned. *)
Theorem second_poll_returns_nothing ms fails writable fails' writable' limit w :
  exists items w1 w2,
    NewsParser.get_new_relevant_news (Messages ms fails writable) limit w
    = (Ret items, w1)
    /\ NewsParser.get_new_relevant_news (Messages ms fails' writable') limit w1
       = (Ret [], w2)
    /\ bot w2 = bot w1
    /\ processed_ids_txt w2 = processed_ids_txt w1.
Proof.
  destruct (poll_full ms fails writable limit w)
    as (items & w1 & _ & E & _ & _ & _ & Hc & _).
  destruct (poll_full ms fails' writable' limit w1)
    as (items2 & w2 & _ & E2 & Hs2 & Hp2 & _ & _ & Ht2 & Hsame).
  assert (Hnone : items2 = []).
  { destruct items2 as [|item rest]; [reflexivity|].
    destruct (Hs2 item (or_introl eq_refl)) as (m & _ & Hin & _ & Ha & _ & Hnot).
    destruct (Hnot (Hc m Hin Ha)). }
  subst items2. exists (if fails then [] else items), w1, w2.
  split; [exact E|].
  split; [rewrite E2; destruct fails'; reflexivity|]. split.
  - red in Hsame. rewrite Hsame, Hp2. cbn.
    rewrite (right_id_L ∅ (∪)). destruct (bot w1). reflexivity.
  - rewrite Ht2. destruct writable'; apply app_nil_r.
Qed.

Lemma _load_processed_ids_app lines ids :
  Forall (fun i => 0 <= i) ids ->
  NewsParser._load_processed_ids (lines ++ ids)
  = NewsParser._load_processed_ids lines ∪ list_to_set ids.
Proof.
  intros Hids. unfold NewsParser._load_processed_ids.
  rewrite List.filter_app, list_to_set_app_L. f_equal.
  induction Hids as [|i ids Hi _ IH]; [reflexivity|].
  cbn. destruct (Z.leb_spec 0 i); [|lia]. cbn. rewrite IH. reflexivity.
Qed.

(** X10. [processed_ids.txt] keeps up with the memory: when the processed
    set is the one loaded from the file, the file can be appended to and
    the message ids are not negative, then after a poll, failed or not, a
    process started on the file loads exactly the processed set that the
    running one has. *)
Theorem processed_ids_survive_restart ms fails limit now f w :
  processed_message_ids (bot w)
  = NewsParser._load_processed_ids (processed_ids_txt w) ->
  Forall (fun m => 0 <= m_id m) ms ->
  exists items w',
    NewsParser.get_new_relevant_news (Messages ms fails true) limit w
    = (Ret items, w')
    /\ processed_message_ids (init now f (processed_ids_txt w'))
       = processed_message_ids (bot w').
Proof.
  intros Hinv Hids.
  destruct (poll_full ms fails true limit w)
    as (items & w' & _ & E & Hs & Hp & _ & _ & Ht & _).
  exists (if fails then [] else items), w'. split; [exact E|].
  unfold init. destruct (_load_state f) as [[last hashes] ids]. cbn.
  rewrite Ht, Hp, Hinv. apply _load_processed_ids_app.
  apply Forall_forall. intros i Hi. apply list_elem_of_fmap in Hi as (item & -> & Hi).
  apply list_elem_of_In in Hi.
  destruct (Hs item Hi) as (m & text & Hin & _ & _ & -> & _). cbn.
  rewrite Forall_forall in Hids. apply Hids.
  apply list_elem_of_In in Hin. eapply subseteq_take, Hin.
Qed.

Lemma processed_ids_survive_restart_witness :
  exists items w',
    NewsParser.get_new_relevant_news
      (Messages [mkMessage 7 (Some (u "Bitcoin ETF approved")) 0] false true)
      5 (start 0 Missing [3])
    = (Ret items, w')
    /\ processed_message_ids (init 0 Missing (processed_ids_txt w'))
       = processed_message_ids (bot w').
Proof.
  apply (processed_ids_survive_restart
           [mkMessage 7 (Some (u "Bitcoin ETF approved")) 0] false 5 0 Missing
           (start 0 Missing [3])).
  - reflexivity.
  - constructor; [cbn; lia|constructor].
Defined.

(** X11. [get_latest_news] returns at most [count] texts, and each of them
    is a non-empty relevant text that is no service message. *)
Theorem get_latest_news_bounded f count w :
  exists texts w',
    get_latest_news f count w = (Ret texts, w')
    /\ (List.length texts <= count)%nat
    /\ forall text, In text texts ->
         text <> []
         /\ NewsParser.is_service text = false
         /\ is_relevant_news (Some text) = true.
Proof.
  unfold get_latest_news.
  cbv beta iota zeta delta [mbind M_bind mret M_ret bind ret].
  destruct f as [|ms fails writable].
  { exists [], w. unfold NewsParser.get_new_relevant_news.
    cbv beta iota zeta delta [mret M_ret ret]. rewrite take_nil.
    split; [reflexivity|]. split; [cbn [length]; lia|intros text []]. }
  destruct (poll_full ms fails writable (count * 2) w)
    as (items & w' & _ & E & Hs & _).
  rewrite E. eexists _, w'. split; [reflexivity|]. split.
  { rewrite length_fmap, List.length_firstn. lia. }
  intros text Hin. apply list_elem_of_In in Hin.
  apply list_elem_of_fmap in Hin as (item & -> & Hin).
  apply subseteq_take in Hin. destruct fails; [apply elem_of_nil in Hin; destruct Hin|].
  apply list_elem_of_In in Hin.
  destruct (Hs item Hin) as (m & t & _ & Ht & Ha & -> & _).
  cbn [n_id n_text n_date].
  destruct (accepted_spec m Ha) as (t' & Ht' & H).
  rewrite Ht in Ht'. injection Ht' as <-. exact H.
Qed.

End NewsProofs.

(* ===================================================================== *)
(** * More on the relevance classifier                                    *)
(* ===================================================================== *)

Module RelevanceProofs.
Import PyStrFacts.

(** ** The strict keywords *)

Lemma strict_keywords_normal kw :
  In kw strict_crypto_keywords -> strip (lower kw) = kw /\ kw <> [].
Proof.
  assert (H : forallb (fun kw => bool_decide (strip (lower kw) = kw /\ kw <> []))
                      strict_crypto_keywords = true)
    by (vm_compute; reflexivity).
  rewrite forallb_forall in H. intros Hin.
  specialize (H kw Hin). apply bool_decide_eq_true in H. exact H.
Qed.

Lemma keyword_hit_strict text_lower kw :
  In kw strict_crypto_keywords ->
  keyword_hit text_lower kw = contains text_lower kw.
Proof.
  intros Hin. destruct (strict_keywords_normal kw Hin) as [Hn Hne].
  unfold keyword_hit. rewrite Hn. destruct kw; [congruence|reflexivity].
Qed.

Lemma strict_hit_relevant text kw :
  text <> [] ->
  any_in ukraine_keywords (lower text) = false ->
  In kw strict_crypto_keywords ->
  contains (lower text) kw = true ->
  is_relevant_news (Some text) = true.
Proof.
  intros Hne Hu Hin Hc. unfold is_relevant_news.
  destruct text as [|c t]; [congruence|]. rewrite Hu.
  assert (Hs : existsb (keyword_hit (lower (c :: t))) strict_crypto_keywords
               = true).
  { apply existsb_exists. exists kw. split; [exact Hin|].
    rewrite keyword_hit_strict by exact Hin. exact Hc. }
  rewrite Hs. reflexivity.
Qed.

(** X12. A strict crypto keyword decides: a non-empty text that contains
    none of the hard-exclusion terms and, in any letter case, contains a
    strict crypto keyword anywhere, inside a longer word too, is relevant,
    whether or not it contains political markers. *)
Theorem strict_keyword_suffices text kw :
  text <> [] ->
  any_in ukraine_keywords (lower text) = false ->
  In kw strict_crypto_keywords ->
  contains (lower text) kw = true ->
  is_relevant_news (Some text) = true.
Proof. exact (strict_hit_relevant text kw). Qed.

Lemma strict_keyword_suffices_witness :
  is_relevant_news (Some (u "Trump and the president talk about ETH")) = true.
Proof.
  apply (strict_keyword_suffices
           (u "Trump and the president talk about ETH") (u "eth")).
  - vm_compute. discriminate.
  - vm_compute. reflexivity.
  - vm_compute. tauto.
  - vm_compute. reflexivity.
Defined.

(** X13. A text that contains a political marker is relevant only if it
    contains a strict crypto keyword: general keywords and financial or
    technical context never make a political text relevant. *)
Theorem political_text_needs_strict_keyword text :
  any_in political_markers (lower text) = true ->
  is_relevant_news (Some text) = true ->
  exists kw, In kw strict_crypto_keywords /\ contains (lower text) kw = true.
Proof.
  intros Hp. unfold is_relevant_news.
  destruct text as [|c t]; [discriminate|].
  destruct (any_in ukraine_keywords (lower (c :: t))); [discriminate|].
  rewrite Hp.
  destruct (existsb (keyword_hit (lower (c :: t))) strict_crypto_keywords)
    eqn:Hs; [|discriminate].
  intros _. apply existsb_exists in Hs as (kw & Hin & Hk).
  exists kw. split; [exact Hin|].
  rewrite keyword_hit_strict in Hk by exact Hin. exact Hk.
Qed.

Lemma political_text_needs_strict_keyword_witness :
  exists kw, In kw strict_crypto_keywords
             /\ contains (lower (u "Trump buys BTC")) kw = true.
Proof.
  apply (political_text_needs_strict_keyword (u "Trump buys BTC")).
  - vm_compute. reflexivity.
  - vm_compute. reflexivity.
Defined.

(** X14. Some political markers contain a strict crypto keyword
    ([washington] contains [ton], [europe] contains [op], [китай]
    contains [кит]): a non-empty text that contains such a marker and no
    hard-exclusion term is always relevant, so these markers never reject
    anything. *)
Theorem marker_with_keyword_inside_never_rejects text marker :
  In marker markers_with_keyword_inside ->
  contains (lower text) marker = true ->
  text <> [] ->
  any_in ukraine_keywords (lower text) = false ->
  In marker political_markers /\ is_relevant_news (Some text) = true.
Proof.
  intros Hin Hc Hne Hu.
  assert (Hm : In marker political_markers
               /\ existsb (contains marker) strict_crypto_keywords = true).
  { assert (H : forallb
                  (fun m => bool_decide (In m political_markers)
                            && existsb (contains m) strict_crypto_keywords)
                  markers_with_keyword_inside = true)
      by (vm_compute; reflexivity).
    rewrite forallb_forall in H. specialize (H marker Hin).
    apply andb_true_iff in H as [H1 H2].
    apply bool_decide_eq_true in H1. auto. }
  destruct Hm as [Hpol Hex]. split; [exact Hpol|].
  apply existsb_exists in Hex as (kw & Hkw & Hsub).
  apply (strict_hit_relevant text kw Hne Hu Hkw).
  exact (contains_trans _ _ _ Hc Hsub).
Qed.

Lemma marker_with_keyword_inside_never_rejects_witness :
  In (u "washington") political_markers
  /\ is_relevant_news (Some (u "Washington imposes new tariffs")) = true.
Proof.
  apply (marker_with_keyword_inside_never_rejects
           (u "Washington imposes new tariffs") (u "washington")).
  - vm_compute. tauto.
  - vm_compute. reflexivity.
  - vm_compute. discriminate.
  - vm_compute. reflexivity.
Defined.

(** X15. The classifier ignores the letter case: a text and its lowercase
    form get the same answer. *)
Theorem is_relevant_news_ignores_case text :
  is_relevant_news (Some (lower text)) = is_relevant_news (Some text).
Proof.
  destruct text as [|c t]; [reflexivity|].
  destruct (lower (c :: t)) as [|c' t'] eqn:Hlower.
  { apply do_lower_nil_iff in Hlower. discriminate. }
  unfold is_relevant_news.
  rewrite <- Hlower, lower_idem. reflexivity.
Qed.

End RelevanceProofs.

(* ===================================================================== *)
(** * What the running process keeps                                      *)
(* ===================================================================== *)

Module MemoryProofs.
Import TextProofs PublishProofs SchedulerProofs NewsProofs.

Lemma memory_kept_refl b : memory_kept b b.
Proof. unfold memory_kept. repeat split; auto; lia. Qed.

Lemma memory_kept_trans b1 b2 b3 :
  memory_kept b1 b2 -> memory_kept b2 b3 -> memory_kept b1 b3.
Proof.
  intros (H1 & H2 & H3 & H4 & H5) (K1 & K2 & K3 & K4 & K5).
  unfold memory_kept. split; [lia|]. split; [congruence|].
  split; [congruence|]. split; etransitivity; eassumption.
Qed.

Lemma memory_kept_processed b b' : same_but_processed b b' -> memory_kept b b'.
Proof.
  intros ->. unfold memory_kept. cbn. repeat split; auto; lia.
Qed.

Lemma memory_kept_published now content is_price_post recorded b :
  memory_kept b (published now content is_price_post recorded b).
Proof.
  pose proof (published_fields now content is_price_post recorded b)
    as (_ & Hn & Ht & Hr & _ & _ & _ & Hh & Hi).
  cbv zeta in Hn, Ht, Hr, Hh, Hi. unfold memory_kept.
  rewrite Hn, Ht, Hr, Hh, Hi. split; [lia|]. split; [reflexivity|].
  split; [reflexivity|]. split.
  - destruct (_get_post_hash content); [apply union_subseteq_r|reflexivity].
  - destruct (truthy_int recorded); [apply union_subseteq_r|reflexivity].
Qed.

Lemma memory_kept_price m d b : memory_kept b (set_last_price_post m d b).
Proof.
  destruct m; unfold memory_kept; cbn; repeat split; auto; lia.
Qed.

Lemma check_and_publish_new_news_kept env w :
  exists r w',
    check_and_publish_new_news env w = (r, w')
    /\ memory_kept (bot w) (bot w').
Proof.
  destruct (check_and_publish_new_news_spec env w) as (r & w' & E & _ & _ & H).
  exists r, w'. split; [exact E|].
  assert (Hsame : same_but_processed (bot w) (bot w')
                  /\ bot_state_json w' = bot_state_json w
                  /\ channel w' = channel w -> memory_kept (bot w) (bot w'))
    by (intros (Hb & _); apply memory_kept_processed, Hb).
  destruct r as [[]|e]; [|exact (Hsame H)|exact (Hsame H)].
  destruct H as (_ & (b1 & content & i & recorded & Hb1 & _ & _ & _ & ->) & _).
  eapply memory_kept_trans; [apply memory_kept_processed, Hb1|].
  apply memory_kept_published.
Qed.

Lemma price_check_kept m env w :
  exists r w',
    price_check m env w = (r, w') /\ memory_kept (bot w) (bot w').
Proof.
  assert (Hgen : forall penv,
    exists r w',
      (generate_and_publish_price penv m ≫= (fun _ => mret tt)) w = (r, w')
      /\ memory_kept (bot w) (bot w')).
  { intros penv.
    cbv beta iota zeta delta [mbind M_bind mret M_ret bind ret].
    destruct (generate_and_publish_price_spec penv m w)
      as (r & w' & -> & [(-> & (content & Hb) & _)|(_ & Hb & _)]).
    - exists (Ret tt), w'. split; [reflexivity|]. rewrite Hb.
      eapply memory_kept_trans; [apply memory_kept_published|].
      apply memory_kept_price.
    - rewrite <- Hb.
      destruct r as [a|e]; eexists; eexists;
        (split; [reflexivity|apply memory_kept_refl]). }
  unfold price_check.
  cbv beta iota zeta delta [mbind M_bind bind get_bot].
  destruct m.
  - destruct (should_post_price_morning (t_msk_morning env) (bot w));
      [apply Hgen|].
    exists (Ret tt), w. split; [reflexivity|apply memory_kept_refl].
  - destruct (should_post_price_evening (t_msk_evening env) (bot w));
      [apply Hgen|].
    exists (Ret tt), w. split; [reflexivity|apply memory_kept_refl].
Qed.

Lemma price_checks_kept env w :
  exists r w', price_checks env w = (r, w') /\ memory_kept (bot w) (bot w').
Proof.
  unfold price_checks.
  cbv beta iota zeta delta [mbind M_bind bind].
  destruct (price_check_kept true env w) as (r1 & w1 & -> & H1).
  destruct r1 as [[]|e].
  2:{ eexists; eexists; (split; [reflexivity|exact H1]). }
  destruct (price_check_kept false env w1) as (r2 & w2 & E2 & H2).
  exists r2, w2. split; [exact E2|].
  eapply memory_kept_trans; eassumption.
Qed.

Lemma tick_kept env w : memory_kept (bot w) (bot (snd (tick env w))).
Proof.
  unfold tick.
  cbv beta iota zeta delta [mbind M_bind bind try_except logger log_line_to].
  destruct (check_and_publish_new_news_kept (t_cycle env) w)
    as (r1 & w1 & -> & H1).
  destruct r1 as [ok|e]; [|exact H1].
  destruct (price_checks_kept env w1) as (r & w2 & -> & H2).
  destruct r as [[]|e]; cbn [snd bot];
    eapply memory_kept_trans; eassumption.
Qed.

Lemma run_ticks_kept envs : forall w,
  memory_kept (bot w) (bot (run_ticks envs w)).
Proof.
  induction envs as [|env envs IH]; intros w; cbn [run_ticks].
  - apply memory_kept_refl.
  - eapply memory_kept_trans; [apply tick_kept|apply IH].
Qed.

Lemma run_loop_kept start_env envs w :
  memory_kept (bot w) (bot (run_loop start_env envs w)).
Proof.
  unfold run_loop, run_loop_start.
  cbv beta iota zeta delta [mbind M_bind mret M_ret bind ret].
  destruct (price_checks_kept start_env w) as (r & w1 & -> & H1).
  destruct r as [[]|e]; [|exact H1].
  destruct (check_and_publish_new_news_kept (t_cycle start_env) w1)
    as (r2 & w2 & -> & H2).
  destruct r2 as [ok|e];
    (eapply memory_kept_trans; [exact H1|]);
    [|exact H2].
  eapply memory_kept_trans; [exact H2|apply run_ticks_kept].
Qed.

Lemma _is_duplicate_kept content b b' :
  memory_kept b b' -> _is_duplicate content b = Ret true ->
  _is_duplicate content b' = Ret true.
Proof.
  intros (_ & _ & _ & Hh & _). unfold _is_duplicate.
  destruct (_get_post_hash content) as [post_hash|e]; [|auto].
  intros [= H]. f_equal. apply bool_decide_eq_true.
  apply bool_decide_eq_true in H. apply Hh, H.
Qed.

(** X16. [publish_post] raises only on a text that holds a surrogate,
    whose hash cannot be computed, and then at once: nothing was called
    and nothing has changed. On every other text it returns, and a call
    that returns [False] changes neither the memory nor the state file
    nor [processed_ids.txt] and puts nothing on the channel. *)
Theorem publish_post_failure_changes_nothing
    env content price is_price_post news_id w :
  if encodable content then
    exists ok w',
      publish_post env content price is_price_post news_id w = (Ret ok, w')
      /\ (ok = false ->
          bot w' = bot w
          /\ bot_state_json w' = bot_state_json w
          /\ processed_ids_txt w' = processed_ids_txt w
          /\ channel w' = channel w)
  else
    publish_post env content price is_price_post news_id w
    = (Raise OtherException, w).
Proof.
  pose proof (_get_post_hash_returns content) as Hhash.
  pose proof (publish_post_spec env content price is_price_post news_id w)
    as Hspec.
  pose proof (_is_duplicate_spec content (bot w)) as Hdup.
  destruct (encodable content).
  - destruct Hhash as (post_hash & Hhash). rewrite Hhash in Hdup.
    rewrite Hdup in Hspec.
    destruct Hspec as (ok & w' & recorded & E & _ & (Hp & _ & _ & Hres) & _).
    exists ok, w'. split; [exact E|]. intros ->.
    destruct Hres as (Hb & Hf & Hch). auto.
  - rewrite Hhash in Hdup. rewrite Hdup in Hspec. exact Hspec.
Qed.

(** X17. The driving loop never resets the daily counter: over the start
    and any passes of [run_loop], [posts_today] does not go down and
    [posts_target] and [reset_time] stay as they were. *)
Theorem run_loop_never_resets_the_counter start_env envs w :
  posts_today (bot w) <= posts_today (bot (run_loop start_env envs w))
  /\ posts_target (bot (run_loop start_env envs w)) = posts_target (bot w)
  /\ reset_time (bot (run_loop start_env envs w)) = reset_time (bot w).
Proof.
  destruct (run_loop_kept start_env envs w) as (H1 & H2 & H3 & _). auto.
Qed.

(** X18. A text is published once: after [publish_post] returned [True]
    for a text, whatever the loop does afterwards, [publish_post] and
    [publish_post_manual] return [False] for the same text. *)
Theorem published_text_is_refused_later
    env content price is_price_post news_id w w1
    start_env envs env2 price2 is_price_post2 news_id2 menv image_url :
  publish_post env content price is_price_post news_id w = (Ret true, w1) ->
  let w2 := run_loop start_env envs w1 in
  fst (publish_post env2 content price2 is_price_post2 news_id2 w2) = Ret false
  /\ fst (publish_post_manual menv content image_url w2) = Ret false.
Proof.
  intros E w2.
  destruct (publish_post_returned _ _ _ _ _ _ _ _ E)
    as (duplicate & recorded & Hd & _ & (_ & _ & _ & Hres) & _).
  destruct Hres as [Hb _].
  destruct (_is_duplicate_hash _ _ _ Hd) as (post_hash & Hhash & _).
  assert (Hdup : _is_duplicate content (bot w2) = Ret true).
  { apply (_is_duplicate_kept content (bot w1)); [apply run_loop_kept|].
    unfold _is_duplicate. rewrite Hhash. f_equal.
    apply bool_decide_eq_true. rewrite Hb.
    pose proof (published_fields (p_now env) content is_price_post recorded
                                 (bot w)) as (_ & _ & _ & _ & _ & _ & _ & Hh & _).
    cbv zeta in Hh. rewrite Hh, Hhash.
    apply elem_of_union_l, elem_of_singleton. reflexivity. }
  split.
  - destruct (publish_post_refused env2 content price2 is_price_post2 news_id2
                                   w2 (or_introl Hdup)) as (line & -> & _).
    reflexivity.
  - pose proof (publish_post_manual_spec menv content image_url w2) as Hspec.
    rewrite Hdup in Hspec. destruct Hspec as (ok & w' & -> & _ & ->).
    reflexivity.
Qed.

Lemma published_text_is_refused_later_witness :
  let w1 := snd (publish_post (Scenario.all_fine 0) (u "btc up") None false
                              None (start 0 Missing [])) in
  let w2 := run_loop (Scenario.news_pass hour_us 6 (u "ETH up"))
                     [Scenario.news_pass (2 * hour_us) 7 (u "SOL up")] w1 in
  fst (publish_post (Scenario.all_fine day_us) (u "btc up") None false None w2)
  = Ret false
  /\ fst (publish_post_manual (Scenario.manual day_us) (u "btc up") None w2)
     = Ret false.
Proof.
  apply (published_text_is_refused_later
           (Scenario.all_fine 0) (u "btc up") None false None
           (start 0 Missing [])).
  vm_compute. reflexivity.
Defined.

(** ** The day of the counter *)

Lemma midnight_bounds now : midnight now <= now < midnight now + day_us.
Proof.
  unfold midnight.
  assert (H : 0 <= now mod day_us < day_us)
    by (apply Z.mod_pos_bound; reflexivity).
  lia.
Qed.

(** X19. [should_publish_now] resets the counter lazily: it always
    returns, and afterwards the current time lies before the end of the
    counter's day. If a day or more has passed since [reset_time], the
    counter is 0, the target is [POSTS_PER_DAY] and [reset_time] is the
    last midnight; otherwise the memory is unchanged. The timer, the
    hashes and the source ids are never touched. *)
Theorem should_publish_now_day_reset now w :
  exists ok w1,
    should_publish_now now w = (Ret ok, w1)
    /\ now < reset_time (bot w1) + day_us
    /\ (reset_time (bot w) + day_us <= now ->
        posts_today (bot w1) = 0
        /\ posts_target (bot w1) = config.POSTS_PER_DAY
        /\ reset_time (bot w1) = midnight now
        /\ reset_time (bot w) < reset_time (bot w1) <= now)
    /\ (now < reset_time (bot w) + day_us -> w1 = w)
    /\ last_post_time (bot w1) = last_post_time (bot w)
    /\ published_posts_hashes (bot w1) = published_posts_hashes (bot w)
    /\ published_news_ids (bot w1) = published_news_ids (bot w)
    /\ bot_state_json w1 = bot_state_json w.
Proof.
  pose proof (midnight_bounds now) as Hm.
  unfold should_publish_now.
  cbv beta iota zeta delta
    [mbind M_bind mret M_ret bind ret get_bot update_bot with_bot logger
     log_line_to].
  cbn [bot bot_state_json processed_ids_txt calls logs channel fst snd].
  destruct (Z.leb_spec (reset_time (bot w) + day_us) now) as [Hday|Hday];
    (destruct (posts_target _ <=? posts_today _);
     [|destruct (last_post_time _) eqn:Hlast; [destruct (_ <? _)|]]);
    (eexists; eexists; split; [reflexivity|]);
    cbn [bot new_day reset_time posts_today posts_target last_post_time
         published_posts_hashes published_news_ids bot_state_json] in *;
    repeat split; auto; try lia; try (exfalso; lia); try congruence.
Qed.

(** ** The window of the price posts *)

Lemma hour_window msk h :
  0 <= h < 24 ->
  ((hour_of msk =? h) && (minute_of msk <=? 15) = true
   <-> h * hour_us <= time_of_day msk < h * hour_us + 16 * minute_us).
Proof.
  intros Hh. unfold hour_of, minute_of, time_of_day.
  assert (Hd : 0 <= msk mod day_us < day_us)
    by (apply Z.mod_pos_bound; reflexivity).
  assert (Hmm : msk mod hour_us = (msk mod day_us) mod hour_us).
  { pose proof (Z.div_mod msk day_us ltac:(discriminate)) as Hq.
    set (X := msk / day_us) in *. set (T := msk mod day_us) in *.
    assert (Hq' : msk = T + 24 * X * hour_us) by (unfold day_us in Hq; lia).
    rewrite Hq' at 1. apply Z.mod_add. discriminate. }
  rewrite Hmm. set (t := msk mod day_us) in *. clearbody t.
  rewrite andb_true_iff, Z.eqb_eq, Z.leb_le.
  pose proof (Z.div_mod t hour_us ltac:(discriminate)) as Ht.
  pose proof (Z.mod_pos_bound t hour_us ltac:(reflexivity)) as Hr.
  pose proof (Z.div_mod (t mod hour_us) minute_us ltac:(discriminate)) as Hq.
  pose proof (Z.mod_pos_bound (t mod hour_us) minute_us ltac:(reflexivity)) as Hs.
  set (q := t / hour_us) in *. set (r := t mod hour_us) in *.
  set (q2 := r / minute_us) in *. set (r2 := r mod minute_us) in *.
  clearbody q r q2 r2.
  unfold hour_us, minute_us, second_us in *. split.
  - intros [-> Hle]. lia.
  - intros [H1 H2]. assert (q = h) by nia. subst q. split; [reflexivity|]. lia.
Qed.

(** X20. A price track is due exactly in the sixteen minutes that start at
    its hour, Moscow time (11:00:00 to 11:15:59.999999 for the morning,
    22:00:00 to 22:15:59.999999 for the evening), and only if the track
    has not posted on that date. *)
Theorem price_post_window m msk b :
  should_post_price m msk b = true
  <-> (price_hour m * hour_us <= time_of_day msk
       < price_hour m * hour_us + 16 * minute_us)
      /\ last_price_post m b <> Some (date_of msk).
Proof.
  assert (Hh : 0 <= price_hour m < 24).
  { unfold price_hour, config.PRICE_POST_MORNING_HOUR,
      config.PRICE_POST_EVENING_HOUR. destruct m; lia. }
  pose proof (hour_window msk (price_hour m) Hh) as Hw.
  destruct m; cbn [should_post_price last_price_post];
    unfold should_post_price_morning, should_post_price_evening;
    cbv zeta; cbn [price_hour] in *;
    destruct ((hour_of msk =? _) && (minute_of msk <=? 15)).
  all: rewrite ?negb_true_iff, ?bool_decide_eq_false.
  all: split; [intros H|intros [H1 H2]].
  all: try discriminate.
  all: try (split; [apply Hw; reflexivity|exact H]).
  all: try exact H2.
  all: apply Hw in H1; discriminate.
Qed.

(** ** News that a poll has seen *)

Lemma poll_items_spec ms fails writable w :
  exists items w',
    get_new_relevant_news_items (Messages ms fails writable) w
    = (Ret (if fails then [] else items), w')
    /\ (forall item, In item items ->
          exists m text,
            In m (firstn 100 ms) /\ message_text m = Some text
            /\ accepted m = true
            /\ item = mkItem (m_id m) text (m_date m)
            /\ m_id m ∉ processed_message_ids (bot w))
    /\ processed_message_ids (bot w')
       = processed_message_ids (bot w) ∪ list_to_set (n_id <$> items)
    /\ (forall m, In m (firstn 100 ms) -> accepted m = true ->
          m_id m ∈ processed_message_ids (bot w'))
    /\ same_but_processed (bot w) (bot w')
    /\ calls w' = calls w ++ [NewsSource]
    /\ logs w' = logs w.
Proof.
  destruct (poll_full ms fails writable 100 w)
    as (items & w' & Escan & E & Hs & Hp & _ & Hc & _ & Hsame).
  destruct (scan_spec writable (firstn 100 ms) [] (log_call NewsSource w))
    as (items0 & w0 & E0 & _ & _ & Hcalls & Hlogs & _).
  rewrite Escan in E0. injection E0 as _ <-.
  exists items, w'. split.
  { unfold get_new_relevant_news_items.
    cbv beta iota zeta delta [try_except]. rewrite E. reflexivity. }
  auto 10.
Qed.

(** After a poll that ran, the accepted messages of the batch are
    processed, whatever the rest of the cycle does. *)
Lemma cycle_consumes_batch env ms fails writable w :
  c_feed env = Messages ms fails writable ->
  poll_due (c_now env) (bot w) = true ->
  exists r w',
    check_and_publish_new_news env w = (r, w')
    /\ forall m, In m (firstn 100 ms) -> accepted m = true ->
         m_id m ∈ processed_message_ids (bot w').
Proof.
  intros Hfeed Hdue. unfold check_and_publish_new_news.
  cbv beta iota zeta delta
    [mbind M_bind mret M_ret bind ret get_bot logger log_line_to].
  cbn [bot bot_state_json processed_ids_txt calls logs channel].
  assert (Hearly : match last_post_time (bot w) with
                   | Some last => too_early (c_now env) last
                   | None => false
                   end = false).
  { unfold poll_due in Hdue. destruct (last_post_time (bot w)); [|reflexivity].
    apply negb_true_iff, Hdue. }
  rewrite Hearly, Hfeed.
  destruct (poll_items_spec ms fails writable w)
    as (items & w1 & -> & _ & _ & Hc & _).
  set (Post := fun (w' : world) =>
    forall m, In m (firstn 100 ms) -> accepted m = true ->
      m_id m ∈ processed_message_ids (bot w')).
  assert (Hno : forall (r : outcome bool) w2, bot w2 = bot w1 ->
    exists (r' : outcome bool) w', (r, w2) = (r', w') /\ Post w').
  { intros r w2 Hb. exists r, w2. split; [reflexivity|].
    unfold Post. rewrite Hb. exact Hc. }
  destruct (if fails then [] else items) as [|it rest].
  { apply Hno. reflexivity. }
  destruct (List.filter _ (it :: rest)) as [|latest others].
  { apply Hno. reflexivity. }
  cbv beta iota zeta delta
    [mbind M_bind mret M_ret bind ret try_except external log_call].
  cbn [bot bot_state_json processed_ids_txt calls logs channel].
  destruct (c_generated env) as [[[|c content]|]|e];
    try (apply Hno; reflexivity).
  destruct (is_relevant_news (Some (c :: content))); cbn [negb];
    try (apply Hno; reflexivity).
  match goal with
  | |- context [publish_post ?e ?c ?p ?i ?n ?w2] =>
    assert (Hb2 : bot w2 = bot w1) by reflexivity;
    pose proof (publish_post_spec e c p i n w2) as Hspec;
    set (v2 := w2) in *; clearbody v2
  end.
  destruct (_is_duplicate (c :: content) (bot v2)) as [duplicate|e].
  2:{ rewrite Hspec. apply Hno. exact Hb2. }
  destruct Hspec as (ok & w' & recorded & -> & _ & (_ & _ & _ & Hres) & _).
  destruct ok.
  - destruct Hres as [Hb _]. eexists (Ret true), _. split; [reflexivity|].
    unfold Post. cbn [bot]. rewrite Hb, Hb2.
    pose proof (published_fields (p_now (c_publish env)) (c :: content) false
                                 recorded (bot w1))
      as (_ & _ & _ & _ & _ & _ & Hpr & _).
    cbv zeta in Hpr. rewrite Hpr. exact Hc.
  - destruct Hres as [Hb _]. apply Hno. cbn [bot]. congruence.
Qed.

(** A cycle over messages that are all processed does nothing. *)
Lemma cycle_over_processed_batch env ms fails writable w :
  c_feed env = Messages ms fails writable ->
  (forall m, In m (firstn 100 ms) -> accepted m = true ->
     m_id m ∈ processed_message_ids (bot w)) ->
  exists w',
    check_and_publish_new_news env w = (Ret false, w')
    /\ bot w' = bot w
    /\ (calls w' = calls w \/ calls w' = calls w ++ [NewsSource]).
Proof.
  intros Hfeed Hall. unfold check_and_publish_new_news.
  cbv beta iota zeta delta
    [mbind M_bind mret M_ret bind ret get_bot logger log_line_to].
  cbn [bot bot_state_json processed_ids_txt calls logs channel].
  destruct (match last_post_time (bot w) with
            | Some last => too_early (c_now env) last
            | None => false
            end).
  { eexists. split; [reflexivity|]. cbn. auto. }
  rewrite Hfeed.
  destruct (poll_items_spec ms fails writable w)
    as (items & w1 & -> & Hs & Hp & _ & Hsame & Hcalls & _).
  assert (Hnone : items = []).
  { destruct items as [|item rest]; [reflexivity|].
    destruct (Hs item (or_introl eq_refl)) as (m & _ & Hin & _ & Ha & _ & Hnot).
    destruct (Hnot (Hall m Hin Ha)). }
  subst items. assert (Hitems : (if fails then [] else []) = @nil news_item)
    by (destruct fails; reflexivity).
  rewrite Hitems. exists w1. split; [reflexivity|]. split; [|right; exact Hcalls].
  red in Hsame. rewrite Hsame, Hp. cbn.
  rewrite (right_id_L ∅ (∪)). destruct (bot w). reflexivity.
Qed.

(** X21. A cycle whose poll ran takes every new relevant message of the
    batch out of circulation, though it publishes at most one post:
    whatever it did (published the first item, failed to generate or to
    send), a later cycle over the same messages returns [False], leaves
    the memory as it is and calls neither the content generator nor the
    channel; so it is when the first cycle raised on a generated text
    that cannot be hashed. The other relevant messages of the batch are
    never published. *)
Theorem news_not_published_at_once_is_dropped
    env env2 ms fails writable fails2 writable2 w :
  c_feed env = Messages ms fails writable ->
  c_feed env2 = Messages ms fails2 writable2 ->
  poll_due (c_now env) (bot w) = true ->
  exists r w1 w2,
    check_and_publish_new_news env w = (r, w1)
    /\ check_and_publish_new_news env2 w1 = (Ret false, w2)
    /\ bot w2 = bot w1
    /\ (calls w2 = calls w1 \/ calls w2 = calls w1 ++ [NewsSource]).
Proof.
  intros Hfeed Hfeed2 Hdue.
  destruct (cycle_consumes_batch env ms fails writable w Hfeed Hdue)
    as (r & w1 & E & Hall).
  destruct (cycle_over_processed_batch env2 ms fails2 writable2 w1 Hfeed2 Hall)
    as (w2 & E2 & Hb & Hc).
  exists r, w1, w2. auto.
Qed.

Lemma news_not_published_at_once_is_dropped_witness :
  exists r w1 w2,
    check_and_publish_new_news (Scenario.cycle 0 two_items (u "eth up"))
                               (start 0 Missing [])
    = (r, w1)
    /\ check_and_publish_new_news
         (Scenario.cycle (2 * hour_us) two_items (u "btc up")) w1
       = (Ret false, w2)
    /\ bot w2 = bot w1
    /\ (calls w2 = calls w1 \/ calls w2 = calls w1 ++ [NewsSource]).
Proof.
  apply (news_not_published_at_once_is_dropped
           (Scenario.cycle 0 two_items (u "eth up"))
           (Scenario.cycle (2 * hour_us) two_items (u "btc up"))
           [mkMessage 8 (Some (u "ETH up")) 0;
            mkMessage 7 (Some (u "BTC up")) 0] false true false true
           (start 0 Missing [])).
  - reflexivity.
  - reflexivity.
  - reflexivity.
Defined.

End MemoryProofs.
